(** * yfinance-go: session manager, retry engine and download orchestrator

    A shallow embedding of [download.go] (the [Download] orchestrator) and of
    the session file that holds [YfData] ([isValidCrumb], the cookie cache,
    [getCookieAndCrumb], [doRequest], [makeRequest]), followed by the
    properties the specification states about them.

    Modelling choices.
    - Session code runs in a state monad over the session fields and the
      outside world (trace of requests and sleeps, files, clock).  Go's
      [(value, error)] results are sums, [error]-only results are options.
    - The HTTP transport, the cookie jar and the file system's willingness
      to write are an environment ([Outside]); Go library functions whose
      text is not in the repository are an interface ([GoLib]).  Theorems
      hold for every instance of both; examples run on concrete ones.
    - [getCookieAndCrumb] holds the session mutex from entry to return, and
      the other session methods hold it for their whole body, so one call
      is modelled as one sequential computation.
    - [Download]'s goroutines are a pool stepped by a scheduler: the
      schedule says which worker moves next and what each [History] call
      answers, so a statement about every schedule covers every
      interleaving and every outcome of the fetches.

    Layout: Part I holds every definition (Go string helpers, the data model,
    the effect monad, the translated functions, the vocabulary of the
    statements, concrete environments used by examples); Part II holds the
    lemmas and theorems. *)

From Stdlib Require Import ZArith Lia List Ascii String DecimalString DecimalPos.
From stdpp Require Import base gmap sets list strings.

Local Open Scope Z_scope.
Set Warnings "-clear-no-such-hyp".

(* ===================================================================== *)
(** * Part I: definitions                                                  *)
(* ===================================================================== *)

(** ** Go's [strings] package, on byte strings *)

(** [strings.HasPrefix(s, prefix)]. *)
Definition HasPrefix (s pre : string) : bool := String.prefix pre s.

(** [strings.Contains(s, substr)]: [substr] starts at some offset of [s]. *)
Fixpoint Contains (s substr : string) : bool :=
  HasPrefix s substr ||
  match s with
  | EmptyString => false
  | String _ s' => Contains s' substr
  end.

(** [strings.HasSuffix(s, suffix)]:
    [len(s) >= len(suffix) && s[len(s)-len(suffix):] == suffix]. *)
Definition HasSuffix (s suf : string) : bool :=
  let n := String.length s in
  let m := String.length suf in
  (m <=? n)%nat && String.eqb (String.substring (n - m) m s) suf.

(** [strings.Index(s, substr)]; [None] stands for Go's [-1]. *)
Fixpoint Index (s substr : string) : option nat :=
  if HasPrefix s substr then Some O
  else match s with
       | EmptyString => None
       | String _ s' => S <$> Index s' substr
       end.

(** The slice [s[i:]]. *)
Definition sliceFrom (s : string) (i : nat) : string :=
  String.substring i (String.length s - i) s.

(** The slice [s[i:j]]. *)
Definition slice (s : string) (i j : nat) : string :=
  String.substring i (j - i) s.

(** [strings.Split(s, ",")]: the parts between commas; one (empty) part for
    the empty string. *)
Fixpoint SplitComma (s : string) : list string :=
  match s with
  | EmptyString => [EmptyString]
  | String c s' =>
      if Ascii.eqb c ","%char then EmptyString :: SplitComma s'
      else match SplitComma s' with
           | p :: ps => String c p :: ps
           | [] => [String c EmptyString]
           end
  end.

(** The double-quote character, for the patterns of [extractInputValue]. *)
Definition dquote : string := String "034"%char EmptyString.

(** ** Errors *)

(** The [error] values the session code builds or passes on. *)
Inductive error : Type :=
| ErrTransport (msg : string)        (* returned by client.Do or io.ReadAll *)
| YFRateLimitError                   (* NewYFRateLimitError() *)
| ErrFailedCookie (e : error)        (* "failed to get cookie: %w" *)
| ErrFailedCrumb (body : string)     (* "failed to get crumb: %s" *)
| ErrFailedCrumbCSRF (body : string) (* "failed to get crumb via CSRF: %s" *)
| ErrNoCsrfToken                     (* "failed to find csrfToken" *)
| ErrInvalidCrumb (body : string)    (* "invalid crumb received: %s" *)
| ErrMarshalBody                     (* "failed to marshal request body: %w" *)
| ErrCreateRequest                   (* "failed to create request: %w" *)
| ErrAuthFailed (status : Z)         (* "authentication failed: %d" *)
| ErrOther (msg : string).           (* any other error, e.g. from History *)

(** ** Data model of the session *)

(** [CookieCache]: the record serialised into [cookie_cache.json].  [Expiry]
    is an instant, in nanoseconds. *)
Record CookieCache : Type := mkCookieCache {
  Cookie : string;
  Crumb : string;
  Expiry : Z;
  Strategy : string
}.

(** The fields of [YfData] that the session logic reads and writes (the HTTP
    client, the jar and the transport are part of the outside world below). *)
Record YfData : Type := mkYfData {
  crumb : string;
  cookie : string;
  cookieStrategy : string;
  userAgent : string;
  cacheDir : string;
  sessionID : string
}.

(** The body argument of [makeRequest] ([interface{}]): [nil], a value that
    [json.Marshal] rejects, or a value with its JSON text. *)
Inductive ReqBody : Type :=
| NilBody
| BadBody
| JsonBody (json : string).

(** An outgoing [http.Request], as far as the session code sets it. *)
Record Request : Type := mkRequest {
  Method : string;
  URL : string;
  Payload : option string;
  UserAgentHdr : string;
  ContentType : option string
}.

(** An [http.Response]: [Body] is what [io.ReadAll] gives, [FinalURL] is
    [resp.Request.URL.String()] (the last request after redirects). *)
Record Response : Type := mkResponse {
  StatusCode : Z;
  Body : string + error;
  Cookies : list (string * string);
  FinalURL : string
}.

(** Who sent a request: [doRequest] itself, or credential acquisition. *)
Inductive Origin : Type := Api | Acq.

(** What a call does to the outside: requests sent and sleeps.  [Switched]
    is a ghost event: it records a call of [switchCookieStrategy], which the
    code does not log, so that statements can count the switches. *)
Inductive Event : Type :=
| Sent (o : Origin) (r : Request)
| Slept (d : Z)
| Switched.

(** The mutable outside world: the events so far (newest first), the files
    on disk and the wall clock in nanoseconds ([time.Now()]). *)
Record World : Type := mkWorld {
  trace : list Event;
  disk : gmap string string;
  clock : Z
}.

(** ** Library functions and environment the code calls *)

(** Go library functions the code relies on and whose text is not part of
    the repository.  They are taken as they are: any implementation. *)
Class GoLib : Type := {
  ToUpper : string -> string;                       (* strings.ToUpper *)
  TrimSpace : string -> string;                     (* strings.TrimSpace *)
  QueryEscape : string -> string;                   (* url.QueryEscape *)
  EncodeValues : gmap string string -> string;      (* url.Values.Encode *)
  Hostname : string -> option string;               (* url.Parse, then Hostname(); None on a parse error *)
  PathJoin : string -> string -> string;            (* filepath.Join *)
  Marshal : CookieCache -> option string;           (* json.Marshal; None on an error *)
  Unmarshal : string -> option CookieCache;         (* json.Unmarshal; None on an error *)
  newRequestOK : string -> string -> bool;          (* does http.NewRequestWithContext accept method and URL *)
  float64ToInt64Overflow : Z                        (* int64(f) for a float64 f >= 2^63: left to the platform *)
}.

(** The outside the session talks to: the HTTP transport (its answer may
    depend on everything sent before), the cookie jar's cookies for
    yahoo.com, and whether a file can be written. *)
Class Outside : Type := {
  transport : list Event -> Origin -> Request -> Response + error;
  jarCookies : list Event -> list (string * string);
  writable : string -> bool
}.

(** ** The effect monad: session state and world, threaded through calls *)

Record Sys : Type := mkSys {
  session : YfData;
  world : World
}.

Definition M (A : Type) : Type := Sys -> A * Sys.

Definition ret {A : Type} (a : A) : M A := fun s => (a, s).

Definition bind {A B : Type} (m : M A) (k : A -> M B) : M B :=
  fun s => let '(a, s') := m s in k a s'.

Notation "x <~ m ;; k" := (bind m (fun x => k))
  (at level 100, m at level 99, k at level 200, right associativity).
Notation "m ;;; k" := (bind m (fun _ => k))
  (at level 100, k at level 200, right associativity).

Definition getYd : M YfData := fun s => (session s, s).

Definition modifyYd (f : YfData -> YfData) : M unit :=
  fun s => (tt, mkSys (f (session s)) (world s)).

Definition setCrumb (v : string) (yd : YfData) : YfData :=
  mkYfData v (cookie yd) (cookieStrategy yd) (userAgent yd) (cacheDir yd) (sessionID yd).

Definition setCookie (v : string) (yd : YfData) : YfData :=
  mkYfData (crumb yd) v (cookieStrategy yd) (userAgent yd) (cacheDir yd) (sessionID yd).

Definition setStrategy (v : string) (yd : YfData) : YfData :=
  mkYfData (crumb yd) (cookie yd) v (userAgent yd) (cacheDir yd) (sessionID yd).

Definition emit (e : Event) (w : World) : World :=
  mkWorld (e :: trace w) (disk w) (clock w).

(** [yd.client.Do(req)]: the transport answers, the request is on record. *)
Definition clientDo `{Outside} (o : Origin) (r : Request) : M (Response + error) :=
  fun s => (transport (trace (world s)) o r, mkSys (session s) (emit (Sent o r) (world s))).

(** [yd.jar.Cookies(yahooURL)]. *)
Definition jarLookup `{Outside} : M (list (string * string)) :=
  fun s => (jarCookies (trace (world s)), s).

(** [time.Sleep(d)]: returns at once for [d <= 0]. *)
Definition timeSleep (d : Z) : M unit :=
  fun s => let w := world s in
           (tt, mkSys (session s) (mkWorld (Slept d :: trace w) (disk w) (clock w + Z.max d 0))).

(** [time.Now()]. *)
Definition timeNow : M Z := fun s => (clock (world s), s).

(** [os.ReadFile(path)]; [None] on an error. *)
Definition ReadFile (path : string) : M (option string) :=
  fun s => (disk (world s) !! path, s).

(** [os.WriteFile(path, data, 0644)]. *)
Definition WriteFile `{Outside} (path data : string) : M (option error) :=
  fun s =>
    if writable path then
      let w := world s in
      (None, mkSys (session s) (mkWorld (trace w) (<[path := data]> (disk w)) (clock w)))
    else (Some (ErrOther "write failed"), s).

(** ** Durations ([time.Duration] is an int64 count of nanoseconds) *)

Definition Second : Z := 1000000000.
Definition Hour : Z := 3600 * Second.

(** Two's-complement wrap-around of an int64 result. *)
Definition wrap64 (z : Z) : Z := (z + 2 ^ 63) mod 2 ^ 64 - 2 ^ 63.

(** [time.Duration(math.Pow(2, float64(attempt)))]: a power of two is exact
    in float64 and converts exactly while it fits int64; a negative exponent
    gives a fraction, truncated to zero. *)
Definition pow2Duration `{GoLib} (attempt : Z) : Z :=
  if attempt <? 63 then 2 ^ attempt else float64ToInt64Overflow.

(** The wait before the next attempt:
    [backoff := time.Duration(math.Pow(2, float64(attempt))) * time.Second]
    (an int64 product), capped at thirty seconds. *)
Definition backoff `{GoLib} (attempt : Z) : Z :=
  let b := wrap64 (pow2Duration attempt * Second) in
  if b >? 30 * Second then 30 * Second else b.

(** ** Credential store *)

(** [isValidCrumb]. *)
Definition isValidCrumb (c : string) : bool :=
  if String.eqb c "" then false
  else if Contains c "<html>" || Contains c "<!DOCTYPE" ||
          Contains c "Too Many Requests" || Contains c "Yahoo" then false
  else true.

Definition cacheFileOf `{GoLib} (yd : YfData) : string :=
  PathJoin (cacheDir yd) "cookie_cache.json".

(** [YfData.loadCookieCache]. *)
Definition loadCookieCache `{GoLib} : M bool :=
  yd <~ getYd ;;
  if String.eqb (cacheDir yd) "" then ret false
  else
    data <~ ReadFile (cacheFileOf yd) ;;
    match data with
    | None => ret false
    | Some data =>
        match Unmarshal data with
        | None => ret false
        | Some cache =>
            t <~ timeNow ;;
            if Expiry cache <? t then ret false          (* time.Now().After(cache.Expiry) *)
            else if negb (isValidCrumb (Crumb cache)) then ret false
            else
              modifyYd (setCookie (Cookie cache)) ;;;
              modifyYd (setCrumb (Crumb cache)) ;;;
              modifyYd (setStrategy (Strategy cache)) ;;;
              ret true
        end
    end.

(** [YfData.saveCookieCache]. *)
Definition saveCookieCache `{GoLib} `{Outside} : M (option error) :=
  yd <~ getYd ;;
  if String.eqb (cacheDir yd) "" then ret None
  else
    t <~ timeNow ;;
    let cache := mkCookieCache (cookie yd) (crumb yd) (t + 24 * Hour) (cookieStrategy yd) in
    match Marshal cache with
    | None => ret (Some (ErrOther "json"))
    | Some data => WriteFile (cacheFileOf yd) data
    end.

(** [YfData.switchCookieStrategy]. *)
Definition switchCookieStrategy : M unit :=
  yd <~ getYd ;;
  (if String.eqb (cookieStrategy yd) "basic"
   then modifyYd (setStrategy "csrf")
   else modifyYd (setStrategy "basic")) ;;;
  modifyYd (setCrumb "") ;;;
  modifyYd (setCookie "") ;;;
  (fun s => (tt, mkSys (session s) (emit Switched (world s)))).

(** [YfData.ResetCrumb]. *)
Definition ResetCrumb : M unit :=
  modifyYd (setCrumb "") ;;;
  modifyYd (setCookie "").

(** [YfData.acceptConsent]: always returns [nil]. *)
Definition acceptConsent : M (option error) :=
  modifyYd (setCrumb "") ;;;
  modifyYd (setCookie "") ;;;
  modifyYd (setStrategy "csrf") ;;;
  ret None.

(** [YfData.isConsentURL]. *)
Definition isConsentURL `{GoLib} (urlStr : string) : bool :=
  match Hostname urlStr with
  | None => false
  | Some host => HasSuffix host "consent.yahoo.com"
  end.

(** ** Acquisition strategies

    [http.NewRequestWithContext] cannot fail on the constant methods and
    URLs of this part, so its error branches are left out; only [doRequest],
    which builds its URL from the caller's endpoint, keeps the test. *)

(** The request [setBrowserHeadersWithUA] leaves: the user agent, and a JSON
    content type when there is a body. *)
Definition browserRequest (method url : string) (payload : option string) (ua : string) : Request :=
  mkRequest method url payload ua
            (match payload with Some _ => Some "application/json" | None => None end).

(** The loop [for _, cookie := range cs { if cookie.Name == name ... }]. *)
Fixpoint findCookie (name : string) (cs : list (string * string)) : option string :=
  match cs with
  | [] => None
  | (n, v) :: rest => if String.eqb n name then Some v else findCookie name rest
  end.

Definition fcURL : string := "https://fc.yahoo.com".
Definition crumbURL1 : string := "https://query1.finance.yahoo.com/v1/test/getcrumb".
Definition crumbURL2 : string := "https://query2.finance.yahoo.com/v1/test/getcrumb".
Definition consentPageURL : string := "https://guce.yahoo.com/consent".

(** [YfData.getCookieBasicInternal]. *)
Definition getCookieBasicInternal `{Outside} : M (option error) :=
  yd <~ getYd ;;
  r <~ clientDo Acq (browserRequest "GET" fcURL None (userAgent yd)) ;;
  match r with
  | inr err => ret (Some err)
  | inl resp =>
      match findCookie "A3" (Cookies resp) with
      | Some v => modifyYd (setCookie v) ;;; ret None
      | None =>
          jar <~ jarLookup ;;
          match findCookie "A3" jar with
          | Some v => modifyYd (setCookie v) ;;; ret None
          | None => ret None
          end
      end
  end.

(** The test both crumb fetchers apply to the body they read. *)
Definition crumbBodyRejected (body : string) : bool :=
  String.eqb body "" || Contains body "<html>" || Contains body "Too Many Requests".

(** [YfData.getCrumbBasicInternal]. *)
Definition getCrumbBasicInternal `{Outside} : M (string + error) :=
  yd <~ getYd ;;
  r <~ clientDo Acq (browserRequest "GET" crumbURL1 None (userAgent yd)) ;;
  match r with
  | inr err => ret (inr err)
  | inl resp =>
      if StatusCode resp =? 429 then ret (inr YFRateLimitError)
      else match Body resp with
           | inr err => ret (inr err)
           | inl body =>
               if crumbBodyRejected body then ret (inr (ErrFailedCrumb body))
               else ret (inl body)
           end
  end.

(** [YfData.getCookieAndCrumbBasicInternal]. *)
Definition getCookieAndCrumbBasicInternal `{Outside} : M (string + error) :=
  e <~ getCookieBasicInternal ;;
  match e with
  | Some err => ret (inr (ErrFailedCookie err))
  | None => getCrumbBasicInternal
  end.

(** [extractInputValue]. *)
Definition indexEither (s p1 p2 : string) : option nat :=
  match Index s p1 with
  | Some i => Some i
  | None => Index s p2
  end.

Definition extractInputValue (html name : string) : string :=
  match indexEither html ("name=" +:+ dquote +:+ name +:+ dquote) ("name='" +:+ name +:+ "'") with
  | None => ""
  | Some idx =>
      match indexEither (sliceFrom html idx) ("value=" +:+ dquote) "value='" with
      | None => ""
      | Some vs =>
          let valueStart := (vs + idx + 7)%nat in
          match indexEither (sliceFrom html valueStart) dquote "'" with
          | None => ""
          | Some valueEnd => slice html valueStart (valueStart + valueEnd)
          end
      end
  end.

Definition consentForm `{GoLib} (sessionId csrfToken : string) : string :=
  EncodeValues (list_to_map
    [("agree", "agree"); ("consentUUID", "default"); ("sessionId", sessionId);
     ("csrfToken", csrfToken); ("originalDoneUrl", "https://finance.yahoo.com/");
     ("namespace", "yahoo")]).

(** [YfData.getCookieCSRFInternal]. *)
Definition getCookieCSRFInternal `{GoLib} `{Outside} : M (option error) :=
  yd <~ getYd ;;
  r <~ clientDo Acq (browserRequest "GET" consentPageURL None (userAgent yd)) ;;
  match r with
  | inr err => ret (Some err)
  | inl resp =>
      match Body resp with
      | inr err => ret (Some err)
      | inl htmlBody =>
          let csrfToken := extractInputValue htmlBody "csrfToken" in
          if String.eqb csrfToken "" then ret (Some ErrNoCsrfToken)
          else
            let sid := extractInputValue htmlBody "sessionId" in
            let sessionId := if String.eqb sid "" then sessionID yd else sid in
            let req2 := mkRequest "POST"
                          ("https://consent.yahoo.com/v2/collectConsent?sessionId=" +:+ sessionId)
                          (Some (consentForm sessionId csrfToken)) (userAgent yd)
                          (Some "application/x-www-form-urlencoded") in
            r2 <~ clientDo Acq req2 ;;
            match r2 with
            | inr err => ret (Some err)
            | inl _ =>
                r3 <~ clientDo Acq (browserRequest "GET"
                        ("https://guce.yahoo.com/copyConsent?sessionId=" +:+ sessionId)
                        None (userAgent yd)) ;;
                match r3 with
                | inr err => ret (Some err)
                | inl _ => modifyYd (setCookie "csrf-obtained") ;;; ret None
                end
            end
      end
  end.

(** [YfData.getCrumbCSRFInternal]. *)
Definition getCrumbCSRFInternal `{Outside} : M (string + error) :=
  yd <~ getYd ;;
  r <~ clientDo Acq (browserRequest "GET" crumbURL2 None (userAgent yd)) ;;
  match r with
  | inr err => ret (inr err)
  | inl resp =>
      if StatusCode resp =? 429 then ret (inr YFRateLimitError)
      else match Body resp with
           | inr err => ret (inr err)
           | inl body =>
               if crumbBodyRejected body then ret (inr (ErrFailedCrumbCSRF body))
               else ret (inl body)
           end
  end.

(** [YfData.getCookieAndCrumbCSRFInternal]. *)
Definition getCookieAndCrumbCSRFInternal `{GoLib} `{Outside} : M (string + error) :=
  e <~ getCookieCSRFInternal ;;
  match e with
  | Some err => ret (inr err)
  | None => getCrumbCSRFInternal
  end.

(** ** Session manager *)

(** [YfData.getCookieAndCrumb] (the lock is held from entry to return, so
    the body runs without interleaving on the session fields). *)
Definition getCookieAndCrumb `{GoLib} `{Outside} : M (string + error) :=
  yd <~ getYd ;;
  if negb (String.eqb (crumb yd) "") then ret (inl (crumb yd))
  else
    r <~ (if String.eqb (cookieStrategy yd) "csrf" then
            r1 <~ getCookieAndCrumbCSRFInternal ;;
            match r1 with
            | inr _ => modifyYd (setStrategy "basic") ;;; getCookieAndCrumbBasicInternal
            | inl _ => ret r1
            end
          else
            r1 <~ getCookieAndCrumbBasicInternal ;;
            match r1 with
            | inr _ => modifyYd (setStrategy "csrf") ;;; getCookieAndCrumbCSRFInternal
            | inl _ => ret r1
            end) ;;
    match r with
    | inr err => ret (inr err)
    | inl c =>
        if negb (isValidCrumb c) then ret (inr (ErrInvalidCrumb c))
        else
          modifyYd (setCrumb c) ;;;
          saveCookieCache ;;;
          ret (inl c)
    end.

(** The URL [doRequest] builds from the endpoint and the parameters. *)
Definition baseURL `{GoLib} (endpoint : string) (params : gmap string string) : string :=
  if (0 <? size params)%nat then endpoint +:+ "?" +:+ EncodeValues params else endpoint.

(** ... and the crumb it appends, when it has one. *)
Definition withCrumb `{GoLib} (reqURL c : string) : string :=
  if negb (String.eqb c "") then
    if Contains reqURL "?" then reqURL +:+ "&crumb=" +:+ QueryEscape c
    else reqURL +:+ "?crumb=" +:+ QueryEscape c
  else reqURL.

(** The tail of [doRequest], from "Create request" on. *)
Definition sendRequest `{GoLib} `{Outside} (method reqURL : string) (body : ReqBody) : M (Response + error) :=
  match body with
  | BadBody => ret (inr ErrMarshalBody)
  | _ =>
      if newRequestOK method reqURL then
        yd <~ getYd ;;
        clientDo Api (browserRequest method reqURL
                        (match body with JsonBody j => Some j | _ => None end) (userAgent yd))
      else ret (inr ErrCreateRequest)
  end.

(** [YfData.doRequest]. *)
Definition doRequest `{GoLib} `{Outside} (method endpoint : string) (params : gmap string string)
    (body : ReqBody) : M (Response + error) :=
  let reqURL := baseURL endpoint params in
  r <~ getCookieAndCrumb ;;
  let c := match r with
           | inl c => c
           | inr _ => ""          (* Try without crumb *)
           end in
  sendRequest method (withCrumb reqURL c) body.

(** [IsTransientError]. *)
Definition IsTransientError (err : option error) : bool :=
  match err with
  | None => false
  | Some _ => true
  end.

(** How one pass through the body of the retry loop ends: a [return], or
    [continue] with the value [lastErr] then has. *)
Inductive LoopStep : Type :=
| Return (resp : option Response) (err : option error)
| Continue (lastErr : option error).

(** The body of [for attempt := 0; attempt <= retries; attempt++] in
    [makeRequest]. *)
Definition attemptBody `{GoLib} `{Outside} (retries attempt : Z) (lastErr : option error)
    (method endpoint : string) (params : gmap string string) (body : ReqBody) : M LoopStep :=
  r <~ doRequest method endpoint params body ;;
  match r with
  | inr err =>
      if IsTransientError (Some err) && (attempt <? retries) then
        timeSleep (backoff attempt) ;;;
        ret (Continue (Some err))
      else ret (Return None (Some err))
  | inl resp =>
      if StatusCode resp =? 429 then
        switchCookieStrategy ;;;
        if attempt <? retries then
          timeSleep (backoff attempt) ;;;
          ret (Continue (Some YFRateLimitError))
        else ret (Return None (Some YFRateLimitError))
      else if isConsentURL (FinalURL resp) then
        e <~ acceptConsent ;;
        match e with
        | Some err => ret (Return None (Some err))
        | None => ret (Continue lastErr)
        end
      else if (StatusCode resp =? 401) || (StatusCode resp =? 403) then
        ResetCrumb ;;;
        if attempt <? retries then ret (Continue lastErr)
        else ret (Return None (Some (ErrAuthFailed (StatusCode resp))))
      else ret (Return (Some resp) None)
  end.

(** The loop itself.  [remaining] is the number of passes the loop header
    still allows, [retries + 1 - attempt]: the header's test
    [attempt <= retries] holds exactly while it is positive ([retries] is
    below the largest int, so [attempt++] does not wrap). *)
Fixpoint attemptLoop `{GoLib} `{Outside} (remaining : nat) (retries attempt : Z)
    (lastErr : option error) (method endpoint : string) (params : gmap string string)
    (body : ReqBody) : M (option Response * option error) :=
  match remaining with
  | O => ret (None, lastErr)
  | S remaining' =>
      st <~ attemptBody retries attempt lastErr method endpoint params body ;;
      match st with
      | Return resp err => ret (resp, err)
      | Continue lastErr' =>
          attemptLoop remaining' retries (attempt + 1) lastErr' method endpoint params body
      end
  end.

(** The retry budget: [retries := GlobalConfig.GetRetries(); if retries == 0 { retries = 3 }]. *)
Definition retryBudget (configured : Z) : Z :=
  if configured =? 0 then 3 else configured.

(** [YfData.makeRequest]; [configured] is [GlobalConfig.GetRetries()]. *)
Definition makeRequest `{GoLib} `{Outside} (configured : Z) (method endpoint : string)
    (params : gmap string string) (body : ReqBody) : M (option Response * option error) :=
  let retries := retryBudget configured in
  attemptLoop (Z.to_nat (retries + 1)) retries 0 None method endpoint params body.

(** ** Fetch orchestrator ([download.go]) *)

(** [DownloadOptions]; instants are nanosecond counts, [nil] pointers [None]. *)
Record DownloadOptions : Type := mkDownloadOptions {
  Tickers : list string;
  Period : string;
  Interval : string;
  Start : option Z;
  End_ : option Z;
  GroupBy : string;
  PrePost : bool;
  AutoAdjust : bool;
  BackAdjust : bool;
  Repair : bool;
  KeepNaN : bool;
  Threads : Z;
  Progress : bool;
  ShowErrors : bool;
  Timeout : Z
}.

(** [DefaultDownloadOptions]. *)
Definition DefaultDownloadOptions : DownloadOptions :=
  mkDownloadOptions [] "1mo" "1d" None None "column" false true false false false 4 false false 10.

(** The normalisation loop of [Download]: the inner loop's body, one
    comma-separated group, then all of them.  The state is the pair
    [(tickers, seen)]. *)
Definition normalizePart `{GoLib} (acc : list string * gmap string bool) (part : string)
    : list string * gmap string bool :=
  let p := ToUpper (TrimSpace part) in
  if negb (String.eqb p "") && negb (default false (acc.2 !! p))
  then (acc.1 ++ [p], <[p := true]> acc.2)
  else acc.

Definition normalizeGroup `{GoLib} (acc : list string * gmap string bool) (t : string)
    : list string * gmap string bool :=
  foldl normalizePart acc (SplitComma t).

Definition normalizeTickers `{GoLib} (ts : list string) : list string :=
  (foldl normalizeGroup ([], ∅) ts).1.

(** "Determine number of workers". *)
Definition workerCount (threads n : Z) : Z :=
  let workers := if threads <=? 0 then 1 else threads in
  if workers >? n then n else workers.

Section Orchestrator.

(** The payload of a successful fetch ([*HistoryResult]); its parsing is
    outside the orchestrator. *)
Variable HistoryResult : Type.

(** [DownloadResult]. *)
Record DownloadResult : Type := mkDownloadResult {
  Data : gmap string HistoryResult;
  Errors : gmap string error;
  Failed : list string;
  Succeeded : list string
}.

Definition emptyResult : DownloadResult := mkDownloadResult ∅ ∅ [] [].

(** What a worker does with the outcome of [t.History], under the mutex. *)
Definition record (ticker : string) (r : HistoryResult + error) (res : DownloadResult)
    : DownloadResult :=
  match r with
  | inr err => mkDownloadResult (Data res) (<[ticker := err]> (Errors res))
                                (Failed res ++ [ticker]) (Succeeded res)
  | inl history => mkDownloadResult (<[ticker := history]> (Data res)) (Errors res)
                                    (Failed res) (Succeeded res ++ [ticker])
  end.

(** A worker goroutine: at the [range] over the channel, inside [History]
    for a ticker, or past its loop ([wg.Done] has run). *)
Inductive Worker : Type :=
| AtChannel
| Fetching (ticker : string)
| Exited.

(** The pool: the buffered, closed channel, the workers and the shared result. *)
Record Pool : Type := mkPool {
  tickerChan : list string;
  workers : list Worker;
  result : DownloadResult
}.

(** The scheduler's choices: worker [i] receives from the channel (or sees
    it closed and drained, and exits); worker [i]'s [History] call returns
    [r] and the worker records it. *)
Inductive PoolEvent : Type :=
| Receive (i : nat)
| Finish (i : nat) (r : HistoryResult + error).

Definition poolStep (ev : PoolEvent) (p : Pool) : option Pool :=
  match ev with
  | Receive i =>
      match workers p !! i with
      | Some AtChannel =>
          match tickerChan p with
          | t :: rest => Some (mkPool rest (<[i := Fetching t]> (workers p)) (result p))
          | [] => Some (mkPool [] (<[i := Exited]> (workers p)) (result p))
          end
      | _ => None
      end
  | Finish i r =>
      match workers p !! i with
      | Some (Fetching t) =>
          Some (mkPool (tickerChan p) (<[i := AtChannel]> (workers p)) (record t r (result p)))
      | _ => None
      end
  end.

Fixpoint poolRun (evs : list PoolEvent) (p : Pool) : option Pool :=
  match evs with
  | [] => Some p
  | ev :: rest =>
      match poolStep ev p with
      | Some p' => poolRun rest p'
      | None => None
      end
  end.

Definition isExited (w : Worker) : bool :=
  match w with
  | Exited => true
  | _ => false
  end.

(** [wg.Wait()] returns once every worker has exited. *)
Definition allExited (p : Pool) : bool := forallb isExited (workers p).

(** The pool [Download] starts for the given options. *)
Definition startPool `{GoLib} (options : DownloadOptions) : Pool :=
  let tickers := normalizeTickers (Tickers options) in
  let n := workerCount (Threads options) (Z.of_nat (length tickers)) in
  mkPool tickers (replicate (Z.to_nat n) AtChannel) emptyResult.

(** [Download]: [options = None] is the [nil] pointer; [sched] is the order
    in which the goroutines ran and what each [History] call gave.  The
    value is [None] when [sched] is not a complete run of the pool (a step
    that cannot happen, or workers still running at its end). *)
Definition Download `{GoLib} (options : option DownloadOptions) (sched : list PoolEvent)
    : option (DownloadResult * option error) :=
  let options := default DefaultDownloadOptions options in
  if (length (Tickers options) =? 0)%nat then Some (emptyResult, None)
  else
    match poolRun sched (startPool options) with
    | Some p => if allExited p then Some (result p, None) else None
    | None => None
    end.

End Orchestrator.

Arguments mkDownloadResult {HistoryResult}.
Arguments Data {HistoryResult}.
Arguments Errors {HistoryResult}.
Arguments Failed {HistoryResult}.
Arguments Succeeded {HistoryResult}.
Arguments emptyResult {HistoryResult}.
Arguments record {HistoryResult}.
Arguments mkPool {HistoryResult}.
Arguments tickerChan {HistoryResult}.
Arguments workers {HistoryResult}.
Arguments result {HistoryResult}.
Arguments Receive {HistoryResult}.
Arguments Finish {HistoryResult}.
Arguments poolStep {HistoryResult}.
Arguments poolRun {HistoryResult}.
Arguments allExited {HistoryResult}.
Arguments startPool {HistoryResult _}.
Arguments Download {HistoryResult _}.

(** ** The specification's reading of the normal form *)

(** "The case-normalized (upper-cased, trimmed, comma-split, de-duplicated)
    form of S", word for word: every comma-separated part of every entry,
    trimmed and upper-cased.  As a list it may repeat an element; the form
    is the set of its elements. *)
Definition normalForm `{GoLib} (ts : list string) : list string :=
  (fun part => ToUpper (TrimSpace part)) <$> (ts ≫= SplitComma).

(** The ticker a worker is fetching at the moment, if any; and those of a
    whole pool. *)
Definition flightOf (w : Worker) : option string :=
  match w with
  | Fetching t => Some t
  | _ => None
  end.

Definition inFlight (ws : list Worker) : list string := omap flightOf ws.

(** A bound on the steps a pool can still take. *)
Definition workerWeight (w : Worker) : nat :=
  match w with
  | AtChannel => 1
  | Fetching _ => 2
  | Exited => 0
  end.

Definition poolWeight {HistoryResult : Type} (p : Pool HistoryResult) : nat :=
  (2 * length (tickerChan p) + sum_list_with workerWeight (workers p))%nat.

(** What the normalisation loop keeps true of [(tickers, seen)]. *)
Definition normInv (acc : list string * gmap string bool) : Prop :=
  NoDup acc.1 ∧ (∀ x, default false (acc.2 !! x) = true ↔ x ∈ acc.1).

(** What the pool keeps true: every ticker is in exactly one place --
    recorded, being fetched, or still in the channel; the maps follow the
    lists; and no worker leaves while the channel holds a ticker. *)
Record poolInv {HistoryResult : Type} (tickers : list string) (p : Pool HistoryResult) : Prop := {
  inv_perm : Succeeded (result p) ++ Failed (result p) ++ inFlight (workers p) ++ tickerChan p
             ≡ₚ tickers;
  inv_data : dom (Data (result p)) = list_to_set (Succeeded (result p));
  inv_errors : dom (Errors (result p)) = list_to_set (Failed (result p));
  inv_live : tickerChan p = [] ∨ (workers p ≠ [] ∧ Forall (λ w, w ≠ Exited) (workers p))
}.

(** ** Vocabulary for statements about the session *)

(** The two acquisition strategies, as the selection in [getCookieAndCrumb]
    reads the [cookieStrategy] field: ["csrf"] is Csrf, anything else runs
    the basic branch. *)
Inductive StrategyKind : Type := Basic | Csrf.

Definition strategyOf (name : string) : StrategyKind :=
  if String.eqb name "csrf" then Csrf else Basic.

Definition strategyName (k : StrategyKind) : string :=
  match k with
  | Basic => "basic"
  | Csrf => "csrf"
  end.

Definition otherStrategy (k : StrategyKind) : StrategyKind :=
  match k with
  | Basic => Csrf
  | Csrf => Basic
  end.

Definition acquire `{GoLib} `{Outside} (k : StrategyKind) : M (string + error) :=
  match k with
  | Basic => getCookieAndCrumbBasicInternal
  | Csrf => getCookieAndCrumbCSRFInternal
  end.

(** The request a strategy opens with. *)
Definition entryURL (k : StrategyKind) : string :=
  match k with
  | Basic => fcURL
  | Csrf => consentPageURL
  end.

Definition isEntry (k : StrategyKind) (e : Event) : bool :=
  match e with
  | Sent Acq r => String.eqb (URL r) (entryURL k)
  | _ => false
  end.

Definition isAcq (e : Event) : bool :=
  match e with
  | Sent Acq _ => true
  | _ => false
  end.

Definition isApi (e : Event) : bool :=
  match e with
  | Sent Api _ => true
  | _ => false
  end.

Definition isSwitch (e : Event) : bool :=
  match e with
  | Switched => true
  | _ => false
  end.

Definition isSleep (e : Event) : bool :=
  match e with
  | Slept _ => true
  | _ => false
  end.

(** How many events of a kind a stretch of the trace holds. *)
Definition countEvents (f : Event -> bool) (evs : list Event) : nat :=
  length (List.filter f evs).

(** The sleeps of a stretch of the trace, oldest first. *)
Definition sleeps (evs : list Event) : list Z :=
  omap (fun e => match e with Slept d => Some d | _ => None end) (reverse evs).

(** The crumbs the specification rules out: empty, an HTML page, the
    rate-limit message. *)
Definition rejectedCrumb (c : string) : Prop :=
  c = "" ∨ Contains c "<html>" = true ∨ Contains c "Too Many Requests" = true.

(** What acquisition may change: the cookie and the trace (by requests of
    its own), nothing else. *)
Definition acquisitionFrame (s s' : Sys) : Prop :=
  crumb (session s') = crumb (session s) ∧
  cookieStrategy (session s') = cookieStrategy (session s) ∧
  userAgent (session s') = userAgent (session s) ∧
  cacheDir (session s') = cacheDir (session s) ∧
  sessionID (session s') = sessionID (session s) ∧
  disk (world s') = disk (world s) ∧
  clock (world s') = clock (world s).

(** The end of [getCookieAndCrumb], from "Validate crumb before saving". *)
Definition finishAcquisition `{GoLib} `{Outside} (c : string) : M (string + error) :=
  if negb (isValidCrumb c) then ret (inr (ErrInvalidCrumb c))
  else
    modifyYd (setCrumb c) ;;;
    saveCookieCache ;;;
    ret (inl c).

(** The session with its strategy field set. *)
Definition withStrategy (name : string) (s : Sys) : Sys :=
  mkSys (setStrategy name (session s)) (world s).

(** The record [saveCookieCache] writes for a session at a given instant. *)
Definition cacheRecord (yd : YfData) (now : Z) : CookieCache :=
  mkCookieCache (cookie yd) (crumb yd) (now + 24 * Hour) (cookieStrategy yd).




(** The state [acceptConsent] leaves. *)
Definition consentReset (s : Sys) : Sys :=
  mkSys (setStrategy "csrf" (setCookie "" (setCrumb "" (session s)))) (world s).

(** ** A concrete library, for running the model on examples

    These agree with Go's functions on the plain ASCII inputs the examples
    use; the theorems of Part II hold for any [GoLib]. *)

Definition asciiUpperChar (c : ascii) : ascii :=
  let n := nat_of_ascii c in
  if (97 <=? n)%nat && (n <=? 122)%nat then ascii_of_nat (n - 32) else c.

Fixpoint asciiToUpper (s : string) : string :=
  match s with
  | EmptyString => EmptyString
  | String c s' => String (asciiUpperChar c) (asciiToUpper s')
  end.

Definition isAsciiSpace (c : ascii) : bool :=
  let n := nat_of_ascii c in
  ((9 <=? n)%nat && (n <=? 13)%nat) || (n =? 32)%nat.

Fixpoint trimLeft (s : string) : string :=
  match s with
  | EmptyString => EmptyString
  | String c s' => if isAsciiSpace c then trimLeft s' else s
  end.

Definition asciiTrimSpace (s : string) : string :=
  String.rev (trimLeft (String.rev (trimLeft s))).

(** The host of [scheme://host/path]. *)
Fixpoint upToDelimiter (s : string) : string :=
  match s with
  | EmptyString => EmptyString
  | String c s' =>
      if Ascii.eqb c "/"%char || Ascii.eqb c "?"%char || Ascii.eqb c ":"%char
      then EmptyString
      else String c (upToDelimiter s')
  end.

Definition simpleHostname (u : string) : option string :=
  match Index u "://" with
  | Some i => Some (upToDelimiter (sliceFrom u (i + 3)))
  | None => Some EmptyString
  end.

(** [k=v] pairs joined by [&]. *)
Definition simpleEncode (m : gmap string string) : string :=
  foldr (fun kv acc => kv.1 +:+ "=" +:+ kv.2 +:+ (if String.eqb acc "" then "" else "&" +:+ acc))
        "" (map_to_list m).

(** A cache record as four comma-separated fields (refused when a text
    field holds a comma or the expiry is negative). *)
Definition simpleMarshal (c : CookieCache) : option string :=
  if Contains (Cookie c) "," || Contains (Crumb c) "," || Contains (Strategy c) "," ||
     (Expiry c <? 0)
  then None
  else Some (Cookie c +:+ "," +:+ Crumb c +:+ "," +:+
             NilZero.string_of_uint (N.to_uint (Z.to_N (Expiry c))) +:+ "," +:+ Strategy c).

Definition simpleUnmarshal (data : string) : option CookieCache :=
  match SplitComma data with
  | [ck; cr; ex; st] =>
      match NilZero.uint_of_string ex with
      | Some u => Some (mkCookieCache ck cr (Z.of_N (N.of_uint u)) st)
      | None => None
      end
  | _ => None
  end.

Definition asciiLib : GoLib := {|
  ToUpper := asciiToUpper;
  TrimSpace := asciiTrimSpace;
  QueryEscape := fun s => s;
  EncodeValues := simpleEncode;
  Hostname := simpleHostname;
  PathJoin := fun dir name => dir +:+ "/" +:+ name;
  Marshal := simpleMarshal;
  Unmarshal := simpleUnmarshal;
  newRequestOK := fun _ _ => true;
  float64ToInt64Overflow := - 2 ^ 63
|}.

(** ** Example inputs of [Download] *)

Definition optionsFor (tickers : list string) (threads : Z) : DownloadOptions :=
  mkDownloadOptions tickers "1mo" "1d" None None "column" false true false false false
                    threads false false 10.

(** Two workers over [" aapl,msft"] and ["AAPL"]: MSFT fails, AAPL succeeds. *)
Definition exampleSchedule : list (PoolEvent unit) :=
  [Receive 0%nat; Receive 1%nat; Finish 1%nat (inr (ErrOther "timeout"));
   Finish 0%nat (inl tt); Receive 0%nat; Receive 1%nat].

(** One worker over ["aapl,"], a group with a trailing comma. *)
Definition trailingCommaSchedule : list (PoolEvent unit) :=
  [Receive 0%nat; Finish 0%nat (inl tt); Receive 0%nat].

(** ** Example sessions and simulated outsides *)

(** A session as [NewYfData] leaves it when there is no cache: no crumb, no
    cookie, the basic strategy. *)
Definition freshSession (dir : string) : YfData :=
  mkYfData "" "" "basic" "Mozilla/5.0" dir "0123456789abcdef".

Definition emptyWorld (now : Z) : World := mkWorld [] ∅ now.

Definition freshSys : Sys := mkSys (freshSession "") (emptyWorld 0).

Definition okResponse (body url : string) : Response :=
  mkResponse 200 (inl body) [] url.

Definition chartEndpoint : string := "https://query2.finance.yahoo.com/v8/finance/chart/AAPL".

(** The answers of a healthy server to the acquisition requests: the A3
    cookie, a consent page with its form fields, and a crumb. *)
Definition healthyAcquisition (r : Request) : Response + error :=
  if String.eqb (URL r) fcURL then inl (mkResponse 200 (inl "") [("A3", "d=AQABBK")] (URL r))
  else if String.eqb (URL r) consentPageURL then
    inl (okResponse "<form><input name='csrfToken' value='tok42'><input name='sessionId' value='s7'></form>" (URL r))
  else if String.eqb (URL r) crumbURL1 then inl (okResponse "crumbOne" (URL r))
  else if String.eqb (URL r) crumbURL2 then inl (okResponse "crumbTwo" (URL r))
  else inl (okResponse "" (URL r)).

(** A server that answers the first two API requests with 429 and the
    later ones with 200. *)
Definition twice429 : Outside := {|
  transport := fun tr o r =>
    match o with
    | Acq => healthyAcquisition r
    | Api => if (countEvents isApi tr <? 2)%nat
             then inl (mkResponse 429 (inl "Too Many Requests") [] (URL r))
             else inl (okResponse "{}" chartEndpoint)
    end;
  jarCookies := fun _ => [];
  writable := fun _ => true
|}.

(** A server that answers every API request with 429. *)
Definition always429 : Outside := {|
  transport := fun tr o r =>
    match o with
    | Acq => healthyAcquisition r
    | Api => inl (mkResponse 429 (inl "Too Many Requests") [] (URL r))
    end;
  jarCookies := fun _ => [];
  writable := fun _ => true
|}.

(** A server whose crumb endpoints answer with an HTML error page that
    opens with a doctype. *)
Definition errorPage : string := "<!DOCTYPE html><html lang=en><body>Oops</body></html>".

Definition errorPageOutside : Outside := {|
  transport := fun tr o r =>
    match o with
    | Acq => if String.eqb (URL r) crumbURL1 || String.eqb (URL r) crumbURL2
             then inl (okResponse errorPage (URL r))
             else healthyAcquisition r
    | Api => inl (okResponse "{}" (URL r))
    end;
  jarCookies := fun _ => [];
  writable := fun _ => true
|}.

(** A network on which acquisition cannot reach its endpoints, and every
    API request is redirected to the consent host. *)
Definition consentOutside : Outside := {|
  transport := fun tr o r =>
    match o with
    | Acq => inr (ErrTransport "connection refused")
    | Api => inl (okResponse "<html>consent</html>" "https://consent.yahoo.com/v2/collectConsent?sessionId=1")
    end;
  jarCookies := fun _ => [];
  writable := fun _ => true
|}.

(** Credentials whose crumb has been cleared, and valid ones. *)
Definition clearedCredentials : YfData :=
  mkYfData "" "d=AQABBK" "csrf" "Mozilla/5.0" "/home/u/.cache/yfinance-go" "0123456789abcdef".

Definition validCredentials : YfData :=
  mkYfData "crumbOne" "d=AQABBK" "csrf" "Mozilla/5.0" "/home/u/.cache/yfinance-go" "0123456789abcdef".

(** ** More of the session file: construction, cache removal, JSON fetch *)

(** [UserAgents] ([const.go]). *)
Definition UserAgents : list string :=
  ["Mozilla/5.0 (Windows NT 10.0; Win64; x64) AppleWebKit/537.36 (KHTML, like Gecko) Chrome/133.0.0.0 Safari/537.36";
   "Mozilla/5.0 (Macintosh; Intel Mac OS X 10_15_7) AppleWebKit/537.36 (KHTML, like Gecko) Chrome/133.0.0.0 Safari/537.36";
   "Mozilla/5.0 (X11; Linux x86_64) AppleWebKit/537.36 (KHTML, like Gecko) Chrome/133.0.0.0 Safari/537.36";
   "Mozilla/5.0 (Windows NT 10.0; Win64; x64; rv:135.0) Gecko/20100101 Firefox/135.0";
   "Mozilla/5.0 (Macintosh; Intel Mac OS X 14.7; rv:135.0) Gecko/20100101 Firefox/135.0";
   "Mozilla/5.0 (Macintosh; Intel Mac OS X 14_7_4) AppleWebKit/605.1.15 (KHTML, like Gecko) Version/18.3 Safari/605.1.15"].

(** [NewYfData], run in the world [w]: [pick] is the value of
    [mrand.Intn(len(UserAgents))], [sid] the hex of the random session
    bytes, [dir] what [getCacheDir] returned. *)
Definition NewYfData `{GoLib} (pick : nat) (sid dir : string) (w : World) : Sys :=
  let yd := mkYfData "" "" "basic" (default "" (UserAgents !! pick)) dir sid in
  (loadCookieCache (mkSys yd w)).2.

(** [YfData.SetUserAgent]. *)
Definition SetUserAgent (ua : string) : M unit :=
  modifyYd (fun yd => mkYfData (crumb yd) (cookie yd) (cookieStrategy yd) ua
                               (cacheDir yd) (sessionID yd)).

(** [os.Remove(path)]: an error when there is no such file, or when the
    file system does not let the process change the path. *)
Definition RemoveFile `{Outside} (path : string) : M (option error) :=
  fun s =>
    match disk (world s) !! path with
    | None => (Some (ErrOther "no such file"), s)
    | Some _ =>
        if writable path then
          let w := world s in
          (None, mkSys (session s) (mkWorld (trace w) (delete path (disk w)) (clock w)))
        else (Some (ErrOther "remove failed"), s)
    end.

(** [YfData.ClearCache]. *)
Definition ClearCache `{GoLib} `{Outside} : M (option error) :=
  modifyYd (setCrumb "") ;;;
  modifyYd (setCookie "") ;;;
  yd <~ getYd ;;
  if String.eqb (cacheDir yd) "" then ret None
  else RemoveFile (cacheFileOf yd).

(** [YfData.Get] and [YfData.Post]; [configured] is
    [GlobalConfig.GetRetries()] at the time of the call. *)
Definition Get `{GoLib} `{Outside} (configured : Z) (endpoint : string)
    (params : gmap string string) : M (option Response * option error) :=
  makeRequest configured "GET" endpoint params NilBody.

Definition Post `{GoLib} `{Outside} (configured : Z) (endpoint : string)
    (params : gmap string string) (body : ReqBody) : M (option Response * option error) :=
  makeRequest configured "POST" endpoint params body.

(** How [GetRawJSON] ends: [nil] with the value decoded into [v], an error,
    or a run-time panic. *)
Inductive fetchError : Type :=
| SessionError (e : error)          (* the error of Get, or of io.ReadAll *)
| HTTPError (status : Z)            (* "HTTP error: %d" *)
| YahooDown                         (* NewYFDataException("*** YAHOO! FINANCE IS CURRENTLY DOWN! ***") *)
| ParseError.                       (* "failed to parse JSON: %w" *)

Inductive Fetched (V : Type) : Type :=
| Decoded (v : V)
| FetchFailed (e : fetchError)
| Panicked.

Arguments Decoded {V}.
Arguments FetchFailed {V}.
Arguments Panicked {V}.

Definition downMarker : string := "Will be right back".

(** [YfData.GetRawJSON]; [decode] is [json.Unmarshal] into the caller's
    value.  With a [nil] response and a [nil] error from [Get], the
    [defer resp.Body.Close()] dereferences the [nil] pointer. *)
Definition GetRawJSON `{GoLib} `{Outside} {V : Type} (decode : string -> option V)
    (configured : Z) (endpoint : string) (params : gmap string string) : M (Fetched V) :=
  r <~ Get configured endpoint params ;;
  match r with
  | (_, Some err) => ret (FetchFailed (SessionError err))
  | (None, None) => ret Panicked
  | (Some resp, None) =>
      if 400 <=? StatusCode resp then ret (FetchFailed (HTTPError (StatusCode resp)))
      else match Body resp with
           | inr err => ret (FetchFailed (SessionError err))
           | inl body =>
               if Contains body downMarker then ret (FetchFailed YahooDown)
               else match decode body with
                    | None => ret (FetchFailed ParseError)
                    | Some v => ret (Decoded v)
                    end
           end
  end.

(** The session invariant of the credential store: the crumb in memory is
    empty or one [isValidCrumb] accepts. *)
Definition crumbOK (s : Sys) : Prop :=
  crumb (session s) = "" ∨ isValidCrumb (crumb (session s)) = true.




(** A server that answers every API request with 401, and a network on
    which no request gets through. *)
Definition always401 : Outside := {|
  transport := fun tr o r =>
    match o with
    | Acq => healthyAcquisition r
    | Api => inl (mkResponse 401 (inl "Unauthorized") [] chartEndpoint)
    end;
  jarCookies := fun _ => [];
  writable := fun _ => true
|}.

Definition offline : Outside := {|
  transport := fun tr o r => inr (ErrTransport "no route to host");
  jarCookies := fun _ => [];
  writable := fun _ => true
|}.

(** Every request in a stretch of the trace carries the user agent [ua]. *)
Definition sentWith (ua : string) (evs : list Event) : Prop :=
  ∀ o req, Sent o req ∈ evs → UserAgentHdr req = ua.

(** Run in [s], the computation leaves the session's user agent as it is
    and sends each of its requests with it. *)
Definition keepsAgent {A : Type} (m : M A) (s : Sys) : Prop :=
  ∀ r s', m s = (r, s') →
    userAgent (session s') = userAgent (session s) ∧
    ∃ evs, trace (world s') = evs ++ trace (world s) ∧ sentWith (userAgent (session s)) evs.

(** A server that answers every acquisition request with the same page,
    which holds no form. *)
Definition blockedConsent : Outside := {|
  transport := fun tr o r => inl (okResponse "<html><body>Sorry</body></html>" (URL r));
  jarCookies := fun _ => [];
  writable := fun _ => true
|}.

(** ** The configuration object *)

Module Config.

(** [Config] (the mutex left out: every method holds it for its body). *)
Record t : Type := mk {
  Proxy : string;
  Retries : Z;
  HideExceptions : bool;
  Logging : bool;
  Timeout : Z
}.

(** [GlobalConfig], as the package initialises it. *)
Definition GlobalConfig : t := mk "" 0 true false 30.

Definition SetProxy (proxy : string) (c : t) : t :=
  mk proxy (Retries c) (HideExceptions c) (Logging c) (Timeout c).

(** [Config.GetProxy]; [getenv] is [os.Getenv] (empty for an unset variable). *)
Definition GetProxy (getenv : string -> string) (c : t) : string :=
  if negb (String.eqb (getenv "YFINANCE_PROXY") "") then getenv "YFINANCE_PROXY"
  else if negb (String.eqb (getenv "HTTPS_PROXY") "") then getenv "HTTPS_PROXY"
  else if negb (String.eqb (getenv "HTTP_PROXY") "") then getenv "HTTP_PROXY"
  else Proxy c.

Definition SetRetries (retries : Z) (c : t) : t :=
  mk (Proxy c) retries (HideExceptions c) (Logging c) (Timeout c).

Definition GetRetries (c : t) : Z := Retries c.

Definition SetHideExceptions (hide : bool) (c : t) : t :=
  mk (Proxy c) (Retries c) hide (Logging c) (Timeout c).

Definition SetTimeout (timeout : Z) (c : t) : t :=
  mk (Proxy c) (Retries c) (HideExceptions c) (Logging c) timeout.

(** [SetConfig], applied to the global configuration [c]. *)
Definition SetConfig (proxy : string) (retries : Z) (hideExceptions : bool) (timeout : Z)
    (c : t) : t :=
  let c := if negb (String.eqb proxy "") then SetProxy proxy c else c in
  let c := if 0 <=? retries then SetRetries retries c else c in
  let c := SetHideExceptions hideExceptions c in
  if 0 <? timeout then SetTimeout timeout c else c.

(** The arguments of one [SetConfig] call, and a sequence of calls. *)
Definition call : Type := string * Z * bool * Z.

Definition apply (c : t) (a : call) : t :=
  let '(proxy, retries, hide, timeout) := a in SetConfig proxy retries hide timeout c.

End Config.

(** ** Helpers of the parsers *)

(** [joinModules]: the loop over [modules] with its index. *)
Definition joinModules (modules : list string) : string :=
  (foldl (fun (acc : nat * string) (m : string) =>
            (S acc.1, (if (0 <? acc.1)%nat then acc.2 +:+ "," else acc.2) +:+ m))
         (O, "") modules).2.

(** [strings.Join(elems, ",")]. *)
Fixpoint JoinComma (elems : list string) : string :=
  match elems with
  | [] => ""
  | [e] => e
  | e :: rest => e +:+ "," +:+ JoinComma rest
  end.

(** [boolToString]. *)
Definition boolToString (b : bool) : string := if b then "true" else "false".

(** ** More of [download.go]: [DownloadSimple] and [Tickers] *)

(** The options [DownloadSimple] passes to [Download]: the fields it names,
    every other field at its zero value. *)
Definition simpleOptions (tickers : list string) (period interval : string) : DownloadOptions :=
  mkDownloadOptions tickers period interval None None "" false true false false false
                    0 false false 0.

(** The error of [DownloadSimple]: the one [Download] returned, or
    ["failed to download: %v"] with the list of failed tickers. *)
Inductive simpleError : Type :=
| DownloadError (e : error)
| FailedToDownload (failed : list string).

(** [DownloadSimple]: the map it returns ([None] for [nil]) and its error.
    As for [Download], [sched] is the run of the worker pool. *)
Definition DownloadSimple `{GoLib} {HistoryResult : Type} (tickers : list string)
    (period interval : string) (sched : list (PoolEvent HistoryResult))
    : option (option (gmap string HistoryResult) * option simpleError) :=
  match Download (Some (simpleOptions tickers period interval)) sched with
  | None => None
  | Some (_, Some err) => Some (None, Some (DownloadError err))
  | Some (res, None) =>
      if (0 <? length (Failed res))%nat
      then Some (Some (Data res), Some (FailedToDownload (Failed res)))
      else Some (Some (Data res), None)
  end.

(** [NewTickers], the [Symbols] it computes: the body of its loop is the
    body of the inner loop of [Download]. *)
Definition NewTickers `{GoLib} (symbols : list string) : list string :=
  (foldl normalizePart ([], ∅) symbols).1.

(** [Tickers.String]. *)
Definition TickersString (symbols : list string) : string := JoinComma symbols.

Section TickersHistory.

Variable HistoryResult : Type.

(** [Tickers.History] starts one goroutine per symbol.  [pending] holds, for
    each goroutine, the symbol it is still fetching ([None] once it has
    recorded its outcome and called [wg.Done]); the two maps are [result]
    and [errors]. *)
Record HistoryRun : Type := mkHistoryRun {
  pending : list (option string);
  fetched : gmap string HistoryResult;
  failures : gmap string error
}.

(** Goroutine [i] gets the outcome [r] of [ticker.History] and records it
    under the mutex. *)
Definition historyStep (ev : nat * (HistoryResult + error)) (st : HistoryRun)
    : option HistoryRun :=
  match pending st !! ev.1 with
  | Some (Some sym) =>
      match ev.2 with
      | inr err => Some (mkHistoryRun (<[ev.1 := None]> (pending st)) (fetched st)
                                      (<[sym := err]> (failures st)))
      | inl history => Some (mkHistoryRun (<[ev.1 := None]> (pending st))
                                          (<[sym := history]> (fetched st)) (failures st))
      end
  | _ => None
  end.

Fixpoint historyRun (evs : list (nat * (HistoryResult + error))) (st : HistoryRun)
    : option HistoryRun :=
  match evs with
  | [] => Some st
  | ev :: rest =>
      match historyStep ev st with
      | Some st' => historyRun rest st'
      | None => None
      end
  end.

Definition allDone (st : HistoryRun) : bool :=
  forallb (fun p => match p with None => true | Some _ => false end) (pending st).

(** [Tickers.History] on the symbols [symbols]: the map of results and the
    error (["some tickers failed: %v"] with the map of errors, when that
    map is not empty).  [None] when [sched] is not a complete run. *)
Definition TickersHistory (symbols : list string) (sched : list (nat * (HistoryResult + error)))
    : option (gmap string HistoryResult * option (gmap string error)) :=
  match historyRun sched (mkHistoryRun (Some <$> symbols) ∅ ∅) with
  | Some st =>
      if allDone st then
        Some (fetched st, if (0 <? size (failures st))%nat then Some (failures st) else None)
      else None
  | None => None
  end.

End TickersHistory.

Arguments mkHistoryRun {HistoryResult}.
Arguments pending {HistoryResult}.
Arguments fetched {HistoryResult}.
Arguments failures {HistoryResult}.
Arguments historyStep {HistoryResult}.
Arguments historyRun {HistoryResult}.
Arguments allDone {HistoryResult}.
Arguments TickersHistory {HistoryResult}.

(** The symbols the goroutines of a run are still fetching. *)
Definition stillPending (ps : list (option string)) : list string := omap id ps.

(** What a run of [Tickers.History] keeps true. *)
Record historyInv {HistoryResult : Type} (symbols : list string)
    (st : HistoryRun HistoryResult) : Prop := {
  hinv_cover : dom (fetched st) ∪ dom (failures st) ∪ list_to_set (stillPending (pending st))
               = list_to_set (C := gset string) symbols;
  hinv_apart : NoDup symbols →
               NoDup (stillPending (pending st)) ∧
               (dom (fetched st) ## dom (failures st)) ∧
               (∀ x, x ∈ stillPending (pending st) →
                     (x ∉ dom (fetched st)) ∧ (x ∉ dom (failures st)))
}.
(** ** The ticker file ([ticker.go]): options, chart fetch, price rows, search *)

Definition BaseURL : string := "https://query2.finance.yahoo.com".

(** [ValidPeriods] and [ValidIntervals] ([const.go]). *)
Definition ValidPeriods : list string :=
  ["1d"; "5d"; "1mo"; "3mo"; "6mo"; "1y"; "2y"; "5y"; "10y"; "ytd"; "max"].

Definition ValidIntervals : list string :=
  ["1m"; "2m"; "5m"; "15m"; "30m"; "60m"; "90m"; "1h"; "1d"; "5d"; "1wk"; "1mo"; "3mo"].

(** [fmt.Sprintf("%d", n)]. *)
Definition formatInt (n : Z) : string := NilZero.string_of_int (Z.to_int n).

(** [HistoryOptions].  Of an instant the code reads [Unix()] only: [Start]
    and [End] hold that number of seconds, [None] for a [nil] pointer. *)
Module HistoryOptions.

Record t : Type := mk {
  Period : string;
  Interval : string;
  Start : option Z;
  End_ : option Z;
  PrePost : bool;
  AutoAdjust : bool;
  BackAdjust : bool;
  Repair : bool;
  KeepNaN : bool;
  Rounding : bool;
  Timeout : Z;
  ShowErrors : bool
}.

End HistoryOptions.

(** [DefaultHistoryOptions]. *)
Definition DefaultHistoryOptions : HistoryOptions.t :=
  HistoryOptions.mk "1mo" "1d" None None false true false false false false 10 false.

(** The two errors of [Validate]. *)
Inductive optionsError : Type :=
| InvalidPeriod (period : string)       (* "invalid period: %s, must be one of: %v" *)
| InvalidInterval (interval : string).  (* "invalid interval: %s, must be one of: %v" *)

(** The search loops of [Validate]. *)
Definition oneOf (v : string) (valid : list string) : bool :=
  existsb (fun p => String.eqb p v) valid.

(** [HistoryOptions.Validate]; [None] is [nil]. *)
Definition Validate (o : HistoryOptions.t) : option optionsError :=
  if negb (String.eqb (HistoryOptions.Period o) "") && negb (oneOf (HistoryOptions.Period o) ValidPeriods)
  then Some (InvalidPeriod (HistoryOptions.Period o))
  else if negb (String.eqb (HistoryOptions.Interval o) "")
          && negb (oneOf (HistoryOptions.Interval o) ValidIntervals)
  then Some (InvalidInterval (HistoryOptions.Interval o))
  else None.

(** [if c { params[k] = v }]. *)
Definition setIf (c : bool) (k v : string) (params : gmap string string) : gmap string string :=
  if c then <[k := v]> params else params.

(** [HistoryOptions.ToParams]. *)
Definition ToParams (o : HistoryOptions.t) : gmap string string :=
  let params : gmap string string := ∅ in
  let params := setIf (negb (String.eqb (HistoryOptions.Period o) "") && bool_decide (HistoryOptions.Start o = None))
                      "range" (HistoryOptions.Period o) params in
  let params := setIf (negb (String.eqb (HistoryOptions.Interval o) ""))
                      "interval" (HistoryOptions.Interval o) params in
  let params := match HistoryOptions.Start o with
                | Some start => <["period1" := formatInt start]> params
                | None => params
                end in
  let params := match HistoryOptions.End_ o with
                | Some end_ => <["period2" := formatInt end_]> params
                | None => params
                end in
  let params := setIf (HistoryOptions.PrePost o) "includePrePost" "true" params in
  let params := setIf (HistoryOptions.ShowErrors o) "events" "div,split" params in
  params.

(** The [histOpts] a worker of [Download] builds from the download options
    ("Create history options"): the fields the literal does not name are at
    their zero value.  [Download] hands [Start] and [End] on as they are. *)
Definition histOpts (options : DownloadOptions) : HistoryOptions.t :=
  HistoryOptions.mk (Period options) (Interval options) (Start options) (End_ options)
                    (PrePost options) (AutoAdjust options) (BackAdjust options)
                    (Repair options) (KeepNaN options) false (Timeout options) false.

(** *** [Ticker.History] and [Ticker.GetTimezone] *)

(** The fields of [Ticker] beside the shared [YfData]. *)
Record Ticker : Type := mkTicker {
  Symbol : string;
  tz : string
}.

(** [NewTicker] and [NewTickerWithData], the ticker they make. *)
Definition NewTicker `{GoLib} (symbol : string) : Ticker :=
  mkTicker (ToUpper (TrimSpace symbol)) "".

(** The errors of [History] and [GetTimezone]. *)
Inductive historyError : Type :=
| InvalidOptions (e : optionsError)
| FetchError (e : fetchError)           (* the error of GetRawJSON *)
| ChartError (description : string)     (* "chart error: %s" *)
| PricesMissing (symbol : string)       (* NewYFPricesMissingError(t.Symbol, "") *)
| TzMissing (symbol : string).          (* NewYFTzMissingError(t.Symbol) *)

(** How a call ends: a value with a [nil] error, an error, or a run-time
    panic. *)
Inductive Result (V : Type) : Type :=
| Returned (v : V)
| Errored (e : historyError)
| Crashed.

Arguments Returned {V}.
Arguments Errored {V}.
Arguments Crashed {V}.

Section TickerHistory.

Context `{GoLib} `{Outside}.

(** A decoded [chartResult], of which [History] itself reads the time zone
    of the metadata, and the [*HistoryResult] that [parseChartResult] makes
    of it ([None]: it panics). *)
Variable chartResult : Type.
Variable metaTimezone : chartResult -> string.
Variable HistoryResult : Type.
Variable parseChartResult : chartResult -> HistoryOptions.t -> option HistoryResult.

(** [chartResponse]: [Chart.Result] and the description of [Chart.Error]. *)
Record chartResponse : Type := mkChartResponse {
  ChartResult : list chartResult;
  ChartErr : option string
}.

(** [json.Unmarshal] into a fresh [chartResponse]. *)
Variable decodeChart : string -> option chartResponse.

(** [GlobalConfig.GetRetries()], the same during the call. *)
Variable configured : Z.

Definition chartURL (t : Ticker) : string := BaseURL +:+ "/v8/finance/chart/" +:+ Symbol t.

(** [Ticker.GetTimezone]: its result and the ticker afterwards. *)
Definition GetTimezone (t : Ticker) : M (Result string * Ticker) :=
  if negb (String.eqb (tz t) "") then ret (Returned (tz t), t)
  else
    let params : gmap string string := <["interval" := "1d"]> (<["range" := "1d"]> ∅) in
    r <~ GetRawJSON decodeChart configured (chartURL t) params ;;
    match r with
    | FetchFailed e => ret (Errored (FetchError e), t)
    | Panicked => ret (Crashed, t)
    | Decoded result =>
        match ChartResult result with
        | [] => ret (Errored (TzMissing (Symbol t)), t)
        | first :: _ => ret (Returned (metaTimezone first), mkTicker (Symbol t) (metaTimezone first))
        end
    end.

(** [Ticker.History]; [None] for [nil] options. *)
Definition History (t : Ticker) (options : option HistoryOptions.t)
    : M (Result HistoryResult * Ticker) :=
  let options := default DefaultHistoryOptions options in
  match Validate options with
  | Some err => ret (Errored (InvalidOptions err), t)
  | None =>
      zt <~ (if String.eqb (tz t) "" then
               zt <~ GetTimezone t ;;
               match zt with
               | (Returned z, t') => ret (false, mkTicker (Symbol t') z)
               | (Errored _, t') => ret (false, t')
               | (Crashed, t') => ret (true, t')
               end
             else ret (false, t)) ;;
      let '(crashed, t) := zt in
      if crashed then ret (Crashed, t)
      else
        r <~ GetRawJSON decodeChart configured (chartURL t) (ToParams options) ;;
        match r with
        | FetchFailed e => ret (Errored (FetchError e), t)
        | Panicked => ret (Crashed, t)
        | Decoded result =>
            match ChartErr result with
            | Some description => ret (Errored (ChartError description), t)
            | None =>
                match ChartResult result with
                | [] => ret (Errored (PricesMissing (Symbol t)), t)
                | first :: _ =>
                    match parseChartResult first options with
                    | Some hr => ret (Returned hr, t)
                    | None => ret (Crashed, t)
                    end
                end
            end
        end
  end.

End TickerHistory.

(** *** The price rows of [parseChartResult] and [AutoAdjustPrices] *)

(** [chartQuote] and [PriceData] over the type [F] of [float64] values,
    which the parsing copies and does not inspect.  [Date] is the Unix time
    of the row ([time.Unix(ts, 0).In(loc)] is that instant). *)
Module Quote.

Record t (F : Type) : Type := mk {
  Open : list F;
  High : list F;
  Low : list F;
  Close : list F;
  Volume : list Z
}.

Arguments mk {F}.
Arguments Open {F}.
Arguments High {F}.
Arguments Low {F}.
Arguments Close {F}.
Arguments Volume {F}.

End Quote.

Module PriceData.

Record t (F : Type) : Type := mk {
  Date : Z;
  Open : F;
  High : F;
  Low : F;
  Close : F;
  AdjClose : F;
  Volume : Z
}.

Arguments mk {F}.
Arguments Date {F}.
Arguments Open {F}.
Arguments High {F}.
Arguments Low {F}.
Arguments Close {F}.
Arguments AdjClose {F}.
Arguments Volume {F}.

End PriceData.

Section Prices.

Variable F : Type.

(** The loop [for i, ts := range result.Timestamp] of "Parse price data",
    from index [i] on, with the rows appended so far.  [None]: an index
    is out of range and the program panics. *)
Fixpoint priceLoop (quote : Quote.t F) (adjClose : list F) (i : nat) (timestamps : list Z)
    (data : list (PriceData.t F)) : option (list (PriceData.t F)) :=
  match timestamps with
  | [] => Some data
  | ts :: rest =>
      match Quote.Open quote !! i with
      | None => Some data                        (* i >= len(quote.Open): break *)
      | Some open =>
          match Quote.High quote !! i, Quote.Low quote !! i,
                Quote.Close quote !! i, Quote.Volume quote !! i with
          | Some high, Some low, Some close, Some volume =>
              let adj := match adjClose !! i with
                         | Some a => a           (* adjClose != nil && i < len(adjClose) *)
                         | None => close
                         end in
              priceLoop quote adjClose (S i) rest
                        (data ++ [PriceData.mk ts open high low close adj volume])
          | _, _, _, _ => None
          end
      end
  end.

(** "Parse price data": [hr.Data] from [result.Timestamp],
    [result.Indicators.Quote] and the [Adjclose] arrays of
    [result.Indicators.Adjclose].  A [nil] slice is the empty list. *)
Definition parsePriceData (timestamps : list Z) (quotes : list (Quote.t F))
    (adjcloses : list (list F)) : option (list (PriceData.t F)) :=
  match timestamps, quotes with
  | _ :: _, quote :: _ =>
      let adjClose := match adjcloses with
                      | first :: _ => first
                      | [] => []
                      end in
      priceLoop quote adjClose 0 timestamps []
  | _, _ => Some []
  end.

(** [float64] arithmetic, as far as [AutoAdjustPrices] uses it: the test
    [x == 0], the product and the quotient. *)
Variable isZero : F -> bool.
Variables fmul fdiv : F -> F -> F.

Definition setAdjClose (v : F) (pd : PriceData.t F) : PriceData.t F :=
  PriceData.mk (PriceData.Date pd) (PriceData.Open pd) (PriceData.High pd) (PriceData.Low pd)
               (PriceData.Close pd) v (PriceData.Volume pd).

(** [HistoryResult.AutoAdjustPrices], on [hr.Data]. *)
Definition AutoAdjustPrices (data : list (PriceData.t F)) : list (PriceData.t F) :=
  match last data with
  | None => data
  | Some final =>
      let lastClose := PriceData.Close final in
      let lastAdjClose := PriceData.AdjClose final in
      if isZero lastClose || isZero lastAdjClose then data
      else
        let adjustFactor := fdiv lastAdjClose lastClose in
        (fun pd => setAdjClose (fmul (PriceData.Close pd) adjustFactor) pd) <$> data
  end.

End Prices.

Arguments priceLoop {F}.
Arguments parsePriceData {F}.
Arguments setAdjClose {F}.
Arguments AutoAdjustPrices {F}.

(** *** The parameters of [Search.Do] *)

(** The conversion [rune(n)] of an [int]: the low 32 bits, signed. *)
Definition wrap32 (z : Z) : Z := (z + 2 ^ 31) mod 2 ^ 32 - 2 ^ 31.

(** The bytes of [string(r)] for a rune [r]: the UTF-8 encoding of the code
    point, and that of U+FFFD for a value that is no code point. *)
Definition utf8 (r : Z) : list Z :=
  if (r <? 0) || (1114111 <? r) || ((55296 <=? r) && (r <=? 57343)) then [239; 191; 189]
  else if r <? 128 then [r]
  else if r <? 2048 then [Z.lor 192 (Z.shiftr r 6); Z.lor 128 (Z.land r 63)]
  else if r <? 65536 then
    [Z.lor 224 (Z.shiftr r 12); Z.lor 128 (Z.land (Z.shiftr r 6) 63); Z.lor 128 (Z.land r 63)]
  else
    [Z.lor 240 (Z.shiftr r 18); Z.lor 128 (Z.land (Z.shiftr r 12) 63);
     Z.lor 128 (Z.land (Z.shiftr r 6) 63); Z.lor 128 (Z.land r 63)].

Definition bytesToString (bs : list Z) : string :=
  foldr (fun b s => String (ascii_of_N (Z.to_N b)) s) EmptyString bs.

(** [string(rune(n))]. *)
Definition runeString (n : Z) : string := bytesToString (utf8 (wrap32 n)).

(** The fields of [Search] that [Do] reads. *)
Record Search : Type := mkSearch {
  Query : string;
  MaxResults : Z;
  NewsCount : Z;
  ListsCount : Z;
  IncludeCB : bool;
  EnableFuzzy : bool;
  Recommended : Z
}.

(** [NewSearch] without options. *)
Definition NewSearch (query : string) : Search := mkSearch query 8 8 8 true false 8.

(** The [params] of [Search.Do]. *)
Definition SearchParams (s : Search) : gmap string string :=
  <["newsQueryId" := "news_cie_vespa"]> (
  <["quotesQueryId" := "tss_match_phrase_query"]> (
  <["recommendedCount" := runeString (Recommended s)]> (
  <["enableFuzzyQuery" := boolToString (EnableFuzzy s)]> (
  <["enableCb" := "true"]> (
  <["listsCount" := runeString (ListsCount s)]> (
  <["newsCount" := runeString (NewsCount s)]> (
  <["quotesCount" := runeString (MaxResults s)]> (
  <["q" := Query s]> ∅)))))))).

(** [Search.Do]: the fetch it makes; [decode] is [json.Unmarshal] into the
    [searchResponse]. *)
Definition SearchDo `{GoLib} `{Outside} {V : Type} (decode : string -> option V)
    (configured : Z) (s : Search) : M (Fetched V) :=
  GetRawJSON decode configured (BaseURL +:+ "/v1/finance/search") (SearchParams s).

(** Two rows that differ at most in [AdjClose]. *)
Definition sameButAdjClose {F : Type} (pd pd' : PriceData.t F) : Prop :=
  pd' = setAdjClose (PriceData.AdjClose pd') pd.

(** The keys [ToParams] can set. *)
Definition historyKeys : gset string :=
  {[ "range"; "interval"; "period1"; "period2"; "includePrePost"; "events" ]}.

(** The length of the shortest of the four arrays that the price loop
    indexes without a test. *)
Definition shortest {F : Type} (quote : Quote.t F) : nat :=
  Nat.min (Nat.min (length (Quote.High quote)) (length (Quote.Low quote)))
          (Nat.min (length (Quote.Close quote)) (length (Quote.Volume quote))).

(** [row] is what the price loop makes of index [i + k], for the
    timestamp at [k]. *)
Definition rowOf {F : Type} (quote : Quote.t F) (adjClose : list F) (timestamps : list Z)
    (i k : nat) (row : PriceData.t F) : Prop :=
  timestamps !! k = Some (PriceData.Date row) ∧
  Quote.Open quote !! (i + k)%nat = Some (PriceData.Open row) ∧
  Quote.High quote !! (i + k)%nat = Some (PriceData.High row) ∧
  Quote.Low quote !! (i + k)%nat = Some (PriceData.Low row) ∧
  Quote.Close quote !! (i + k)%nat = Some (PriceData.Close row) ∧
  Quote.Volume quote !! (i + k)%nat = Some (PriceData.Volume row) ∧
  PriceData.AdjClose row = default (PriceData.Close row) (adjClose !! (i + k)%nat).

(* ===================================================================== *)
(** * Part II: lemmas and theorems                                         *)
(* ===================================================================== *)

(** ** Normalisation of the ticker list *)

Section Normalisation.
Context `{GoLib}.

Lemma normInv_init : normInv ([], ∅).
Proof.
  split; [constructor|].
  intros x. simpl. rewrite lookup_empty. simpl. split; [discriminate|].
  intros Hx. by apply elem_of_nil in Hx.
Qed.

Lemma String_eqb_false_ne (a b : string) : String.eqb a b = false ↔ a ≠ b.
Proof. destruct (String.eqb_spec a b); split; congruence. Qed.

Lemma normalizePart_spec acc part :
  normInv acc →
  normInv (normalizePart acc part) ∧
  (∀ x, x ∈ (normalizePart acc part).1 ↔
        x ∈ acc.1 ∨ (x = ToUpper (TrimSpace part) ∧ x ≠ "")).
Proof.
  intros [Hnd Hseen]. unfold normalizePart.
  set (p := ToUpper (TrimSpace part)).
  destruct (String.eqb_spec p "") as [He|Hne]; simpl.
  { split; [by split|]. intros x. split; [by left|]. intros [?|[-> ?]]; [done|]. congruence. }
  destruct (default false (acc.2 !! p)) eqn:Hp; simpl.
  { split; [by split|]. intros x. split; [by left|].
    intros [?|[-> _]]; [done|]. by apply Hseen. }
  assert (Hfresh : p ∉ acc.1).
  { intros Hin. apply Hseen in Hin. congruence. }
  split; [split|]; simpl.
  - apply NoDup_app. split; [done|]. split.
    + intros x Hx Hx'. apply list_elem_of_singleton in Hx'. by subst.
    + apply NoDup_singleton.
  - intros x. rewrite elem_of_app, list_elem_of_singleton.
    destruct (decide (x = p)) as [->|Hxp].
    + rewrite lookup_insert_eq. simpl. naive_solver.
    + rewrite lookup_insert_ne by done. rewrite Hseen. naive_solver.
  - intros x. rewrite elem_of_app, list_elem_of_singleton. naive_solver.
Qed.

Lemma normalizeParts_spec parts : ∀ acc,
  normInv acc →
  normInv (foldl normalizePart acc parts) ∧
  (∀ x, x ∈ (foldl normalizePart acc parts).1 ↔
        x ∈ acc.1 ∨ (x ≠ "" ∧ ∃ part, part ∈ parts ∧ x = ToUpper (TrimSpace part))).
Proof.
  induction parts as [|part parts IH]; intros acc Hinv; simpl.
  { split; [done|]. intros x. split; [by left|]. intros [?|[_ [part [Hin _]]]]; [done|].
    by apply elem_of_nil in Hin. }
  destruct (normalizePart_spec acc part Hinv) as [Hinv' Hmem].
  destruct (IH _ Hinv') as [Hinv'' Hmem'].
  split; [done|]. intros x. rewrite Hmem', Hmem. split.
  - intros [[?|[-> ?]]|[? [q [Hq ->]]]]; [by left| |].
    + right. split; [done|]. exists part. split; [left|done].
    + right. split; [done|]. exists q. split; [by right|done].
  - intros [?|[Hne [q [Hq ->]]]]; [by left; left|].
    apply elem_of_cons in Hq as [->|Hq]; [left; right; done|].
    right. split; [done|]. by exists q.
Qed.

Lemma normalizeGroups_spec ts : ∀ acc,
  normInv acc →
  normInv (foldl normalizeGroup acc ts) ∧
  (∀ x, x ∈ (foldl normalizeGroup acc ts).1 ↔
        x ∈ acc.1 ∨ (x ≠ "" ∧ x ∈ normalForm ts)).
Proof.
  unfold normalForm.
  induction ts as [|t ts IH]; intros acc Hinv; simpl.
  { split; [done|]. intros x. split; [by left|]. intros [?|[_ Hin]]; [done|].
    by apply elem_of_nil in Hin. }
  destruct (normalizeParts_spec (SplitComma t) acc Hinv) as [Hinv' Hmem].
  destruct (IH _ Hinv') as [Hinv'' Hmem'].
  split; [done|]. intros x. unfold normalizeGroup at 2. rewrite Hmem', Hmem.
  rewrite fmap_app, elem_of_app, !list_elem_of_fmap. naive_solver.
Qed.

(** The loop computes the specification's normal form without its empty
    string, each element once. *)
Lemma normalizeTickers_spec ts :
  NoDup (normalizeTickers ts) ∧
  (∀ x, x ∈ normalizeTickers ts ↔ x ∈ normalForm ts ∧ x ≠ "").
Proof.
  destruct (normalizeGroups_spec ts _ normInv_init) as [[Hnd _] Hmem].
  split; [done|]. intros x. unfold normalizeTickers. rewrite Hmem. simpl.
  split; [intros [Hx|[? ?]]; [by apply elem_of_nil in Hx|done] | intros [? ?]; by right].
Qed.

End Normalisation.

(** ** The worker pool *)

Section PoolProofs.
Context {HistoryResult : Type}.
Implicit Types (p : Pool HistoryResult) (ws : list Worker).

Lemma inFlight_insert ws i w w' :
  ws !! i = Some w →
  option_list (flightOf w) ++ inFlight (<[i := w']> ws) ≡ₚ
  option_list (flightOf w') ++ inFlight ws.
Proof.
  intros Hi.
  rewrite <- (take_drop_middle ws i w Hi) at 2.
  rewrite insert_take_drop by (by eapply lookup_lt_Some).
  unfold inFlight. rewrite !omap_app. simpl.
  destruct (flightOf w), (flightOf w'); simpl;
    rewrite ?Permutation_middle; try done.
  f_equiv. apply perm_swap.
Qed.

Lemma weight_insert ws i w w' :
  ws !! i = Some w →
  (sum_list_with workerWeight (<[i := w']> ws) + workerWeight w =
   sum_list_with workerWeight ws + workerWeight w')%nat.
Proof.
  intros Hi.
  rewrite <- (take_drop_middle ws i w Hi) at 2.
  rewrite insert_take_drop by (by eapply lookup_lt_Some).
  rewrite !sum_list_with_app. simpl. lia.
Qed.

Lemma Forall_insert_ne ws i (w : Worker) :
  Forall (λ w, w ≠ Exited) ws → w ≠ Exited → Forall (λ w, w ≠ Exited) (<[i := w]> ws).
Proof. intros Hall Hw. by apply Forall_insert. Qed.

Lemma insert_nonempty ws i (w : Worker) : ws ≠ [] → <[i := w]> ws ≠ [].
Proof.
  intros Hne Heq. apply Hne. apply (f_equal length) in Heq.
  rewrite length_insert in Heq. by destruct ws.
Qed.

Lemma poolStep_inv tickers ev p p' :
  poolInv tickers p → poolStep ev p = Some p' → poolInv tickers p'.
Proof.
  intros [Hperm Hdata Herr Hlive] Hstep.
  destruct ev as [i|i r]; simpl in Hstep.
  - destruct (workers p !! i) as [[| |]|] eqn:Hi; try discriminate.
    destruct (tickerChan p) as [|t rest] eqn:Hchan; inversion Hstep; subst; clear Hstep.
    + constructor; simpl; try done; [|by left].
      rewrite <- Hperm. do 2 f_equiv.
      pose proof (inFlight_insert _ _ _ Exited Hi) as Hfl. simpl in Hfl. by rewrite Hfl.
    + constructor; simpl; try done.
      * rewrite <- Hperm. do 2 f_equiv.
        pose proof (inFlight_insert _ _ _ (Fetching t) Hi) as Hfl. simpl in Hfl.
        rewrite Hfl. by rewrite <- Permutation_middle.
      * destruct Hlive as [?|[Hne Hall]]; [discriminate|]. right. split.
        -- by apply insert_nonempty.
        -- by apply Forall_insert_ne.
  - destruct (workers p !! i) as [[|t|]|] eqn:Hi; try discriminate.
    inversion Hstep; subst; clear Hstep.
    pose proof (inFlight_insert _ _ _ AtChannel Hi) as Hfl. simpl in Hfl.
    assert (Hlive' : tickerChan p = [] ∨
              (<[i := AtChannel]> (workers p) ≠ [] ∧
               Forall (λ w, w ≠ Exited) (<[i := AtChannel]> (workers p)))).
    { destruct Hlive as [?|[Hne Hall]]; [by left|]. right. split.
      - by apply insert_nonempty.
      - by apply Forall_insert_ne. }
    destruct r as [history|err]; constructor; simpl; try done.
    + rewrite <- Hperm, <- Hfl.
      rewrite <- !app_assoc. simpl. f_equiv.
      by rewrite <- Permutation_middle.
    + rewrite dom_insert_L, Hdata, list_to_set_app_L. set_solver.
    + rewrite <- Hperm, <- Hfl.
      rewrite <- !app_assoc. simpl.
      rewrite <- (Permutation_middle (Failed (result p))). simpl.
      rewrite <- (Permutation_middle (Succeeded (result p))). done.
    + rewrite dom_insert_L, Herr, list_to_set_app_L. set_solver.
Qed.

Lemma poolRun_inv tickers sched : ∀ p p',
  poolInv tickers p → poolRun sched p = Some p' → poolInv tickers p'.
Proof.
  induction sched as [|ev sched IH]; intros p p' Hinv Hrun; simpl in Hrun.
  { by inversion Hrun; subst. }
  destruct (poolStep ev p) as [p1|] eqn:Hstep; [|discriminate].
  eapply IH; [|done]. by eapply poolStep_inv.
Qed.

Lemma allExited_inFlight ws : forallb isExited ws = true → inFlight ws = [].
Proof.
  induction ws as [|w ws IH]; [done|]. simpl. intros Hall.
  apply andb_prop in Hall as [Hw Hws]. destruct w; try discriminate.
  unfold inFlight in *. simpl. by apply IH.
Qed.

(** When [wg.Wait()] returns, the two lists hold the tickers and nothing else. *)
Lemma poolInv_final tickers p :
  poolInv tickers p → allExited p = true →
  Succeeded (result p) ++ Failed (result p) ≡ₚ tickers.
Proof.
  intros [Hperm _ _ Hlive] Hall. unfold allExited in Hall.
  rewrite (allExited_inFlight _ Hall) in Hperm.
  destruct Hlive as [Hchan|[Hne Hlive]].
  - rewrite Hchan in Hperm. simpl in Hperm. by rewrite app_nil_r in Hperm.
  - destruct (workers p) as [|w ws]; [done|]. simpl in Hall.
    apply andb_prop in Hall as [Hw _]. apply Forall_cons in Hlive as [Hw' _].
    by destruct w.
Qed.

(** Every step uses up weight: a run is never longer than the weight of
    the pool it starts from. *)
Lemma poolStep_weight ev p p' :
  poolStep ev p = Some p' → (poolWeight p = S (poolWeight p'))%nat.
Proof.
  unfold poolWeight. intros Hstep.
  destruct ev as [i|i r]; simpl in Hstep.
  - destruct (workers p !! i) as [[| |]|] eqn:Hi; try discriminate.
    destruct (tickerChan p) as [|t rest] eqn:Hchan; inversion Hstep; subst; clear Hstep; simpl.
    + pose proof (weight_insert _ _ _ Exited Hi). simpl in *. lia.
    + pose proof (weight_insert _ _ _ (Fetching t) Hi). simpl in *. lia.
  - destruct (workers p !! i) as [[|t|]|] eqn:Hi; try discriminate.
    inversion Hstep; subst; clear Hstep; simpl.
    pose proof (weight_insert _ _ _ AtChannel Hi). simpl in *. lia.
Qed.

Lemma poolRun_length sched : ∀ p p',
  poolRun sched p = Some p' → (length sched + poolWeight p' = poolWeight p)%nat.
Proof.
  induction sched as [|ev sched IH]; intros p p' Hrun; simpl in Hrun.
  { by inversion Hrun. }
  destruct (poolStep ev p) as [p1|] eqn:Hstep; [|discriminate].
  apply IH in Hrun. apply poolStep_weight in Hstep. simpl. lia.
Qed.

(** A worker that has not exited can always take its next step. *)
Lemma pool_progress p :
  allExited p = false → ∃ ev p', poolStep ev p = Some p'.
Proof.
  unfold allExited. intros Hall.
  assert (∃ i w, workers p !! i = Some w ∧ w ≠ Exited) as (i & w & Hi & Hw).
  { induction (workers p) as [|w ws IH]; [discriminate|]. simpl in Hall.
    destruct w; try (by exists 0%nat; eexists).
    simpl in Hall. destruct (IH Hall) as (i & w & Hi & Hw). by exists (S i), w. }
  destruct w as [|t|]; [| |done].
  - exists (Receive i). simpl. rewrite Hi. destruct (tickerChan p); eauto.
  - exists (Finish i (inr (ErrOther ""))). simpl. rewrite Hi. eauto.
Qed.

(** Hence every run can be carried on to the point where [wg.Wait()]
    returns. *)
Lemma pool_completes : ∀ n p, poolWeight p = n →
  ∃ sched p', poolRun sched p = Some p' ∧ allExited p' = true.
Proof.
  induction n as [n IH] using lt_wf_ind. intros p Hn.
  destruct (allExited p) eqn:Hall.
  { by exists [], p. }
  destruct (pool_progress p Hall) as (ev & p1 & Hstep).
  pose proof (poolStep_weight _ _ _ Hstep) as Hw.
  destruct (IH (poolWeight p1) ltac:(lia) p1 eq_refl) as (sched & p' & Hrun & Hfin).
  exists (ev :: sched), p'. simpl. by rewrite Hstep.
Qed.

End PoolProofs.

(** ** [Download] *)

Section DownloadProofs.
Context {HistoryResult : Type} `{GoLib}.

Lemma workerCount_pos threads n : 0 < n → 0 < workerCount threads n.
Proof.
  unfold workerCount. intros Hn.
  destruct (threads <=? 0) eqn:Ht; [|apply Z.leb_gt in Ht];
    match goal with |- context [?a >? ?b] => destruct (Z.gtb_spec a b) end; lia.
Qed.

Lemma startPool_inv (options : DownloadOptions) :
  poolInv (normalizeTickers (Tickers options)) (startPool (HistoryResult := HistoryResult) options).
Proof.
  unfold startPool.
  set (tickers := normalizeTickers (Tickers options)).
  set (n := workerCount _ _).
  constructor; simpl.
  - assert (inFlight (replicate (Z.to_nat n) AtChannel) = []) as ->; [|done].
    induction (Z.to_nat n) as [|k IH]; [done|]. unfold inFlight in *. simpl. done.
  - by rewrite dom_empty_L.
  - by rewrite dom_empty_L.
  - destruct tickers as [|t ts] eqn:Ht; [by left|]. right.
    assert (0 < n) as Hn.
    { apply workerCount_pos. simpl length. lia. }
    split.
    + destruct (Z.to_nat n) eqn:Hk; [lia|]. done.
    + apply Forall_replicate. done.
Qed.

(** Lemma behind C1: a returned result lists the normalised tickers, each
    once, split between [Succeeded] and [Failed]. *)
Lemma Download_result_perm (options : DownloadOptions) (sched : list (PoolEvent HistoryResult)) res err :
  Download (Some options) sched = Some (res, err) →
  err = None ∧
  Succeeded res ++ Failed res ≡ₚ normalizeTickers (Tickers options) ∧
  dom (Data res) = list_to_set (Succeeded res) ∧
  dom (Errors res) = list_to_set (Failed res).
Proof.
  unfold Download. simpl.
  destruct (Nat.eqb_spec (length (Tickers options)) 0) as [Hlen|Hlen].
  - intros [= <- <-]. apply nil_length_inv in Hlen.
    unfold normalizeTickers. rewrite Hlen. simpl.
    by rewrite !dom_empty_L.
  - destruct (poolRun sched (startPool options)) as [p|] eqn:Hrun; [|discriminate].
    destruct (allExited p) eqn:Hall; [|discriminate].
    intros [= <- <-].
    pose proof (poolRun_inv _ _ _ _ (startPool_inv options) Hrun) as Hinv.
    split; [done|]. split; [by apply poolInv_final|].
    by destruct Hinv.
Qed.

(** [Download] returns: the pool it starts can always run to the end. *)
Lemma Download_returns (options : option DownloadOptions) :
  ∃ (sched : list (PoolEvent HistoryResult)) res, Download options sched = Some (res, None).
Proof.
  unfold Download.
  destruct (length (Tickers (default DefaultDownloadOptions options)) =? 0)%nat.
  { by exists [], emptyResult. }
  destruct (pool_completes _ (startPool (HistoryResult := HistoryResult)
                                (default DefaultDownloadOptions options)) eq_refl)
    as (sched & p & Hrun & Hall).
  exists sched, (result p). by rewrite Hrun, Hall.
Qed.

Lemma poolRun_app (sched1 sched2 : list (PoolEvent HistoryResult)) : ∀ p,
  poolRun (sched1 ++ sched2) p =
  match poolRun sched1 p with
  | Some p' => poolRun sched2 p'
  | None => None
  end.
Proof.
  induction sched1 as [|ev sched1 IH]; intros p; simpl; [done|].
  by destruct (poolStep ev p).
Qed.

(** No run of the pool gets stuck or goes on for ever: it has at most as
    many steps as the weight of the pool, and can always be carried on to
    the return of [Download]. *)
Lemma Download_no_deadlock (options : DownloadOptions) (sched : list (PoolEvent HistoryResult)) p :
  poolRun sched (startPool options) = Some p →
  (length sched <= poolWeight (startPool (HistoryResult := HistoryResult) options))%nat ∧
  ∃ rest res, Download (Some options) (sched ++ rest) = Some (res, None).
Proof.
  intros Hrun. split.
  { apply poolRun_length in Hrun. lia. }
  unfold Download. simpl.
  destruct (length (Tickers options) =? 0)%nat.
  { by exists [], emptyResult. }
  destruct (pool_completes _ p eq_refl) as (rest & p' & Hrest & Hall).
  exists rest, (result p'). by rewrite poolRun_app, Hrun, Hrest, Hall.
Qed.

End DownloadProofs.

(** ** The session: acquisition *)

Ltac munfold :=
  unfold bind, ret, getYd, modifyYd, clientDo, jarLookup, timeSleep, timeNow,
         ReadFile, WriteFile, emit in *.

Section AcquisitionProofs.
Context `{GoLib} `{Outside}.

Lemma acquisitionFrame_refl s : acquisitionFrame s s.
Proof. by repeat split. Qed.

Lemma acquisitionFrame_trans s1 s2 s3 :
  acquisitionFrame s1 s2 → acquisitionFrame s2 s3 → acquisitionFrame s1 s3.
Proof. unfold acquisitionFrame. intros (?&?&?&?&?&?&?) (?&?&?&?&?&?&?). repeat split; congruence. Qed.

Lemma collect_not_entry sid k :
  String.eqb ("https://consent.yahoo.com/v2/collectConsent?sessionId=" +:+ sid) (entryURL k) = false.
Proof. by destruct k. Qed.

Lemma copy_not_entry sid k :
  String.eqb ("https://guce.yahoo.com/copyConsent?sessionId=" +:+ sid) (entryURL k) = false.
Proof. by destruct k. Qed.

(** The basic strategy: one request to the cookie endpoint first, none to
    the consent page. *)
Lemma basic_acquisition s r s' :
  getCookieAndCrumbBasicInternal s = (r, s') →
  acquisitionFrame s s' ∧
  ∃ evs, trace (world s') = evs ++ trace (world s) ∧
         Forall (λ e, isAcq e = true) evs ∧
         countEvents (isEntry Basic) evs = 1%nat ∧
         countEvents (isEntry Csrf) evs = 0%nat ∧
         last evs = Some (Sent Acq (browserRequest "GET" fcURL None (userAgent (session s)))).
Proof.
  unfold getCookieAndCrumbBasicInternal, getCookieBasicInternal, getCrumbBasicInternal.
  munfold. destruct s as [yd w]. simpl.
  intros Heq.
  repeat (case_match; simplify_eq; simpl in * );
    (split; [by repeat split|]);
    first [ eexists [_]; split; [reflexivity|]
          | eexists [_; _]; split; [reflexivity|] ];
    repeat split; repeat constructor.
Qed.

(** The consent strategy: one request to the consent page first, none to
    the cookie endpoint. *)
Lemma csrf_acquisition s r s' :
  getCookieAndCrumbCSRFInternal s = (r, s') →
  acquisitionFrame s s' ∧
  ∃ evs, trace (world s') = evs ++ trace (world s) ∧
         Forall (λ e, isAcq e = true) evs ∧
         countEvents (isEntry Csrf) evs = 1%nat ∧
         countEvents (isEntry Basic) evs = 0%nat ∧
         last evs = Some (Sent Acq (browserRequest "GET" consentPageURL None (userAgent (session s)))).
Proof.
  unfold getCookieAndCrumbCSRFInternal, getCookieCSRFInternal, getCrumbCSRFInternal.
  munfold. destruct s as [yd w]. simpl.
  intros Heq.
  repeat (case_match; simplify_eq; simpl in * );
    (split; [by repeat split|]);
    first [ eexists [_]; split; [reflexivity|]
          | eexists [_; _]; split; [reflexivity|]
          | eexists [_; _; _]; split; [reflexivity|]
          | eexists [_; _; _; _]; split; [reflexivity|] ];
    (split; [repeat constructor|]);
    unfold countEvents; simpl; rewrite ?collect_not_entry, ?copy_not_entry; simpl;
    repeat split.
Qed.

Lemma acquire_events k s r s' :
  acquire k s = (r, s') →
  acquisitionFrame s s' ∧
  ∃ evs, trace (world s') = evs ++ trace (world s) ∧
         Forall (λ e, isAcq e = true) evs ∧
         countEvents (isEntry k) evs = 1%nat ∧
         countEvents (isEntry (otherStrategy k)) evs = 0%nat ∧
         last evs = Some (Sent Acq (browserRequest "GET" (entryURL k) None (userAgent (session s)))).
Proof. destruct k; [apply basic_acquisition | apply csrf_acquisition]. Qed.

(** [getCookieAndCrumb] with no crumb in memory, as a composition of the
    two strategies. *)
Lemma getCookieAndCrumb_acquire s :
  crumb (session s) = "" →
  getCookieAndCrumb s =
  let k := strategyOf (cookieStrategy (session s)) in
  let '(r1, s1) := acquire k s in
  match r1 with
  | inl c => finishAcquisition c s1
  | inr _ =>
      let '(r2, s2) := acquire (otherStrategy k)
                               (withStrategy (strategyName (otherStrategy k)) s1) in
      match r2 with
      | inl c => finishAcquisition c s2
      | inr e => (inr e, s2)
      end
  end.
Proof.
  intros Hc. unfold getCookieAndCrumb, strategyOf, finishAcquisition, withStrategy.
  munfold. rewrite Hc. simpl.
  destruct (String.eqb (cookieStrategy (session s)) "csrf"); simpl.
  - destruct (getCookieAndCrumbCSRFInternal s) as [[c|e] s1]; simpl; [done|].
    by destruct (getCookieAndCrumbBasicInternal _) as [[c|e'] s2].
  - destruct (getCookieAndCrumbBasicInternal s) as [[c|e] s1]; simpl; [done|].
    by destruct (getCookieAndCrumbCSRFInternal _) as [[c|e'] s2].
Qed.

Lemma getCookieAndCrumb_cached s :
  crumb (session s) ≠ "" → getCookieAndCrumb s = (inl (crumb (session s)), s).
Proof.
  intros Hc. unfold getCookieAndCrumb. munfold.
  apply String_eqb_false_ne in Hc. by rewrite Hc.
Qed.

(** [saveCookieCache] touches the disk only, and writes the session's own
    record or nothing. *)
Lemma saveCookieCache_effect s e s' :
  saveCookieCache s = (e, s') →
  session s' = session s ∧ trace (world s') = trace (world s) ∧
  clock (world s') = clock (world s) ∧
  (disk (world s') = disk (world s) ∨
   ∃ data, Marshal (cacheRecord (session s) (clock (world s))) = Some data ∧
           e = None ∧ cacheDir (session s) ≠ "" ∧
           disk (world s') = <[cacheFileOf (session s) := data]> (disk (world s))).
Proof.
  unfold saveCookieCache. munfold. fold (cacheRecord (session s) (clock (world s))).
  destruct (String.eqb_spec (cacheDir (session s)) "") as [Hd|Hd].
  { intros [= <- <-]. repeat split; by left. }
  destruct (Marshal _) as [data|] eqn:Hm.
  - destruct (writable _); intros [= <- <-]; simpl; repeat split; [right|by left].
    by exists data.
  - intros [= <- <-]. repeat split; by left.
Qed.

(** The end of acquisition: an invalid crumb is answered with an error and
    changes nothing; a valid one is stored and saved. *)
Lemma finishAcquisition_effect c s r s' :
  finishAcquisition c s = (r, s') →
  trace (world s') = trace (world s) ∧
  cookieStrategy (session s') = cookieStrategy (session s) ∧
  (if isValidCrumb c
   then r = inl c ∧ session s' = setCrumb c (session s) ∧
        (disk (world s') = disk (world s) ∨
         ∃ data, Marshal (cacheRecord (setCrumb c (session s)) (clock (world s))) = Some data ∧
                 disk (world s') = <[cacheFileOf (session s) := data]> (disk (world s)))
   else r = inr (ErrInvalidCrumb c) ∧ s' = s).
Proof.
  unfold finishAcquisition. destruct (isValidCrumb c); simpl.
  - munfold. destruct (saveCookieCache _) as [e s1] eqn:Hsave.
    intros [= <- <-]. apply saveCookieCache_effect in Hsave as (Hs & Ht & _ & Hd). simpl in *.
    rewrite Hs, Ht. simpl. repeat split.
    destruct Hd as [Hd|(data & Hm & _ & _ & Hd)]; [by left|right]. by exists data.
  - unfold ret. by intros [= <- <-].
Qed.

Lemma isValidCrumb_nonempty c : isValidCrumb c = true → c ≠ "".
Proof. unfold isValidCrumb. by destruct (String.eqb_spec c ""). Qed.

Lemma withStrategy_frame name s :
  crumb (session (withStrategy name s)) = crumb (session s) ∧
  userAgent (session (withStrategy name s)) = userAgent (session s) ∧
  cacheDir (session (withStrategy name s)) = cacheDir (session s) ∧
  world (withStrategy name s) = world s.
Proof. done. Qed.

(** What a call of [getCookieAndCrumb] can do: requests of the acquisition
    kind only; the crumb field changes only to the valid crumb returned; the
    cache file is written only with a record holding that crumb; an error
    leaves crumb and disk as they were. *)
Lemma getCookieAndCrumb_effect s r s' :
  getCookieAndCrumb s = (r, s') →
  (∃ evs, trace (world s') = evs ++ trace (world s) ∧ Forall (λ e, isAcq e = true) evs) ∧
  userAgent (session s') = userAgent (session s) ∧
  cacheDir (session s') = cacheDir (session s) ∧
  clock (world s') = clock (world s) ∧
  match r with
  | inl c => c ≠ "" ∧ crumb (session s') = c ∧
             (s' = s ∨ (crumb (session s) = "" ∧ isValidCrumb c = true))
  | inr e => crumb (session s) = "" ∧ crumb (session s') = "" ∧
             disk (world s') = disk (world s)
  end ∧
  (disk (world s') = disk (world s) ∨
   ∃ cache data, Marshal cache = Some data ∧ isValidCrumb (Crumb cache) = true ∧
                 Crumb cache = crumb (session s') ∧ crumb (session s) = "" ∧
                 disk (world s') = <[cacheFileOf (session s) := data]> (disk (world s))).
Proof.
  destruct (String.eqb_spec (crumb (session s)) "") as [Hc|Hc].
  2:{ rewrite getCookieAndCrumb_cached by done. intros [= <- <-].
      split; [exists []; by split|]. repeat split; try done; by left. }
  rewrite getCookieAndCrumb_acquire by done. simpl.
  set (k := strategyOf _).
  destruct (acquire k s) as [r1 s1] eqn:H1.
  destruct (acquire_events _ _ _ _ H1) as ((F1c & F1s & F1u & F1d & F1i & F1k & F1t) & evs1 & Ht1 & Ha1 & _).
  assert (Hfin : ∀ c s2 evs2,
            acquisitionFrame s s2 ∨ (acquisitionFrame (withStrategy (strategyName (otherStrategy k)) s1) s2) →
            trace (world s2) = evs2 ++ trace (world s) → Forall (λ e, isAcq e = true) evs2 →
            finishAcquisition c s2 = (r, s') →
            (∃ evs, trace (world s') = evs ++ trace (world s) ∧ Forall (λ e, isAcq e = true) evs) ∧
            userAgent (session s') = userAgent (session s) ∧
            cacheDir (session s') = cacheDir (session s) ∧
            clock (world s') = clock (world s) ∧
            match r with
            | inl c => c ≠ "" ∧ crumb (session s') = c ∧
                       (s' = s ∨ (crumb (session s) = "" ∧ isValidCrumb c = true))
            | inr e => crumb (session s) = "" ∧ crumb (session s') = "" ∧
                       disk (world s') = disk (world s)
            end ∧
            (disk (world s') = disk (world s) ∨
             ∃ cache data, Marshal cache = Some data ∧ isValidCrumb (Crumb cache) = true ∧
                           Crumb cache = crumb (session s') ∧ crumb (session s) = "" ∧
                           disk (world s') = <[cacheFileOf (session s) := data]> (disk (world s)))).
  { intros c s2 evs2 Hfr Ht2 Ha2 Hf.
    assert (crumb (session s2) = "" ∧ userAgent (session s2) = userAgent (session s) ∧
            cacheDir (session s2) = cacheDir (session s) ∧
            disk (world s2) = disk (world s) ∧ clock (world s2) = clock (world s))
      as (G1 & G2 & G3 & G4 & G5).
    { destruct Hfr as [(?&?&?&?&?&?&?)|(?&?&?&?&?&?&?)]; simpl in *;
        repeat split; congruence. }
    pose proof (finishAcquisition_effect _ _ _ _ Hf) as (Ht & _ & Hv).
    destruct (isValidCrumb c) eqn:Hvalid.
    - destruct Hv as (-> & Hs & Hd).
      assert (Hclock : clock (world s') = clock (world s)).
      { unfold finishAcquisition in Hf. rewrite Hvalid in Hf. simpl in Hf. munfold.
        destruct (saveCookieCache _) as [e0 s3] eqn:Hsave. inversion Hf; subst.
        apply saveCookieCache_effect in Hsave as (_ & _ & Hcl & _). simpl in Hcl. congruence. }
      split; [exists evs2; split; [congruence|done]|].
      rewrite Hs. simpl. repeat split; try done.
      + by apply isValidCrumb_nonempty.
      + by right.
      + destruct Hd as [Hd|(data & Hm & Hd)]; [left; congruence|right].
        exists (cacheRecord (setCrumb c (session s2)) (clock (world s2))), data.
        repeat split; try done.
        rewrite Hd, G4. unfold cacheFileOf. by rewrite G3.
    - destruct Hv as (-> & ->).
      split; [by exists evs2|]. repeat split; try done. by left. }
  destruct r1 as [c|e1].
  - intros Hf. eapply (Hfin c s1 evs1); try done. left. by repeat split.
  - destruct (acquire (otherStrategy k) _) as [r2 s2] eqn:H2.
    destruct (acquire_events _ _ _ _ H2) as (F2 & evs2 & Ht2 & Ha2 & _).
    simpl in Ht2. rewrite Ht1, app_assoc in Ht2.
    assert (Ha : Forall (λ e, isAcq e = true) (evs2 ++ evs1)) by (by apply Forall_app).
    destruct r2 as [c|e2].
    + intros Hf. eapply (Hfin c s2 (evs2 ++ evs1)); try done. by right.
    + intros [= <- <-].
      destruct F2 as (?&?&?&?&?&?&?); simpl in *.
      split; [by exists (evs2 ++ evs1)|]. repeat split; try congruence. left. congruence.
Qed.

End AcquisitionProofs.

(** ** Claims about the orchestrator *)

(** C1, as the code has it.  For every list of ticker strings, [Download]
    returns: however the scheduler has run the worker pool so far, the run
    is bounded and can be carried on to the point where [wg.Wait()]
    returns.  Whenever [Download] returns it gives no error and a result in
    which [Succeeded] and [Failed] together hold each element of the normal
    form of the input -- every comma-separated part, trimmed and
    upper-cased -- exactly once, the empty string left out: no symbol is in
    both lists, none is repeated, none is missing. *)
Theorem Download_partitions_symbols {HistoryResult : Type} `{GoLib} (options : DownloadOptions) :
  (∀ (sched : list (PoolEvent HistoryResult)) p,
      poolRun sched (startPool options) = Some p →
      (length sched <= poolWeight (startPool (HistoryResult := HistoryResult) options))%nat ∧
      ∃ rest res, Download (Some options) (sched ++ rest) = Some (res, None)) ∧
  (∀ (sched : list (PoolEvent HistoryResult)) res err,
      Download (Some options) sched = Some (res, err) →
      err = None ∧
      NoDup (Succeeded res ++ Failed res) ∧
      (∀ x, x ∈ Succeeded res → x ∉ Failed res) ∧
      (∀ x, x ∈ Succeeded res ++ Failed res ↔ x ∈ normalForm (Tickers options) ∧ x ≠ "") ∧
      dom (Data res) = list_to_set (Succeeded res) ∧
      dom (Errors res) = list_to_set (Failed res)).
Proof.
  split; [apply Download_no_deadlock|].
  intros sched res err Hret.
  destruct (Download_result_perm _ _ _ _ Hret) as (Herr & Hperm & Hdata & Herrors).
  destruct (normalizeTickers_spec (Tickers options)) as [Hnd Hmem].
  assert (Hnd' : NoDup (Succeeded res ++ Failed res)) by (by rewrite Hperm).
  split; [done|]. split; [done|]. split; [|split; [|done]].
  - intros x Hs Hf. apply NoDup_app in Hnd' as (_ & Hdisj & _). by apply (Hdisj x).
  - intros x. rewrite Hperm. apply Hmem.
Qed.

(** C1, witness: two workers over [" aapl,msft"] and ["AAPL"]. *)
Lemma Download_partitions_symbols_witness :
  ∃ res,
    @Download unit asciiLib (Some (optionsFor [" aapl,msft"; "AAPL"] 2)) exampleSchedule
      = Some (res, None) ∧
    Succeeded res = ["AAPL"] ∧ Failed res = ["MSFT"] ∧
    NoDup (Succeeded res ++ Failed res) ∧
    (∀ x, x ∈ Succeeded res ++ Failed res ↔
          x ∈ @normalForm asciiLib [" aapl,msft"; "AAPL"] ∧ x ≠ "").
Proof.
  eexists. split; [vm_compute; reflexivity|].
  split; [reflexivity|]. split; [reflexivity|].
  pose proof (proj2 (@Download_partitions_symbols unit asciiLib
                       (optionsFor [" aapl,msft"; "AAPL"] 2))
                    exampleSchedule _ None ltac:(vm_compute; reflexivity)) as Hthm.
  split; apply Hthm.
Defined.

(** C1, counterexample to the claim as worded: for the input ["aapl,"] the
    normal form, read word for word, holds the empty string next to AAPL,
    and the result holds AAPL alone. *)
Lemma Download_drops_empty_parts :
  @Download unit asciiLib (Some (optionsFor ["aapl,"] 1)) trailingCommaSchedule
    = Some (mkDownloadResult {["AAPL" := tt]} ∅ [] ["AAPL"], None) ∧
  @normalForm asciiLib ["aapl,"] = ["AAPL"; ""] ∧
  ¬ (∀ x, x ∈ ["AAPL"] ++ [] ↔ x ∈ @normalForm asciiLib ["aapl,"]).
Proof.
  split; [vm_compute; reflexivity|]. split; [vm_compute; reflexivity|].
  intros Hall. specialize (Hall "").
  assert (Hin : "" ∈ @normalForm asciiLib ["aapl,"]).
  { vm_compute. right. left. }
  apply Hall in Hin. simpl in Hin.
  apply list_elem_of_singleton in Hin. discriminate.
Qed.

(** C6, as the code has it.  The pool [Download] starts has
    [min(max(configured, 1), n)] workers, where [configured] is
    [options.Threads] and [n] the number of distinct normalised symbols: a
    configured count of zero or less counts as one, and there are never
    more workers than symbols. *)
Theorem Download_worker_count {HistoryResult : Type} `{GoLib} (options : DownloadOptions) :
  NoDup (normalizeTickers (Tickers options)) ∧
  Z.of_nat (length (workers (startPool (HistoryResult := HistoryResult) options))) =
  Z.min (Z.max (Threads options) 1) (Z.of_nat (length (normalizeTickers (Tickers options)))).
Proof.
  split; [apply normalizeTickers_spec|].
  unfold startPool. simpl. rewrite length_replicate.
  set (n := Z.of_nat (length _)). assert (0 <= n) by (unfold n; lia).
  unfold workerCount.
  destruct (Z.leb_spec (Threads options) 0);
    match goal with |- context [?a >? ?b] => destruct (Z.gtb_spec a b) end; lia.
Qed.

(** C6, counterexample to the claim as worded: four configured workers and
    five distinct symbols give four workers, while [min(4, 5, 1)] is one. *)
Lemma Download_worker_count_not_min_with_one :
  length (workers (@startPool unit asciiLib (optionsFor ["a"; "b"; "c"; "d"; "e"] 4))) = 4%nat ∧
  length (@normalizeTickers asciiLib ["a"; "b"; "c"; "d"; "e"]) = 5%nat ∧
  Z.min 4 (Z.min 5 1) = 1.
Proof. repeat split; vm_compute; reflexivity. Qed.

(** C9.  For a [nil] options value or an empty ticker list, [Download]
    returns no error and a result whose [Data], [Errors], [Failed] and
    [Succeeded] are all empty; it does so whatever the scheduler would do,
    and already with no pool event at all: no work is dispatched. *)
Theorem Download_empty_input {HistoryResult : Type} `{GoLib} (options : option DownloadOptions)
    (sched : list (PoolEvent HistoryResult)) :
  (options = None ∨ ∃ o, options = Some o ∧ Tickers o = []) →
  Download options sched = Some (mkDownloadResult ∅ ∅ [] [], None) ∧
  Download options ([] : list (PoolEvent HistoryResult)) = Some (mkDownloadResult ∅ ∅ [] [], None).
Proof.
  intros [->|(o & -> & Ht)]; unfold Download; simpl; [done|].
  by rewrite Ht.
Qed.

(** C9, witness: an options value with no tickers, and any schedule. *)
Lemma Download_empty_input_witness :
  Tickers (optionsFor [] 4) = [] ∧
  @Download unit asciiLib (Some (optionsFor [] 4)) exampleSchedule
    = Some (mkDownloadResult ∅ ∅ [] [], None).
Proof.
  split; [reflexivity|].
  apply (@Download_empty_input unit asciiLib (Some (optionsFor [] 4)) exampleSchedule).
  right. exists (optionsFor [] 4). split; reflexivity.
Defined.

(** ** Claims about the credential store and acquisition *)

Lemma rejected_crumb_invalid c : rejectedCrumb c → isValidCrumb c = false.
Proof.
  unfold isValidCrumb. intros [->|[Hc|Hc]]; [done| |]; rewrite Hc;
    destruct (String.eqb c ""); simpl; try done.
  by rewrite orb_true_r.
Qed.

(** C2.  A crumb that is empty, contains ["<html>"] or contains
    ["Too Many Requests"] is refused by [isValidCrumb]; and no call of
    [getCookieAndCrumb] stores it in the session's crumb field (if the
    field holds it afterwards, it held it before), returns it as freshly
    acquired, or writes it to the cookie cache (the disk is left alone, or
    the cache file receives a record whose crumb is another one); handed
    such a crumb by a strategy, the function answers with an error and
    changes nothing; and whenever the call answers with an error, crumb
    field and disk are as before. *)
Theorem rejected_crumb_never_kept `{GoLib} `{Outside} (c : string) (s : Sys) :
  rejectedCrumb c →
  isValidCrumb c = false ∧
  finishAcquisition c s = (inr (ErrInvalidCrumb c), s) ∧
  ∀ r s', getCookieAndCrumb s = (r, s') →
    (crumb (session s') = c → crumb (session s) = c) ∧
    (r = inl c → s' = s) ∧
    (disk (world s') = disk (world s) ∨
     ∃ cache data, Marshal cache = Some data ∧ Crumb cache ≠ c ∧
                   disk (world s') = <[cacheFileOf (session s) := data]> (disk (world s))) ∧
    (∀ e, r = inr e → crumb (session s') = crumb (session s) ∧
                      disk (world s') = disk (world s)).
Proof.
  intros Hrej. pose proof (rejected_crumb_invalid c Hrej) as Hinv.
  split; [done|]. split.
  { unfold finishAcquisition. by rewrite Hinv. }
  intros r s' Hcall.
  destruct (getCookieAndCrumb_effect _ _ _ Hcall) as (_ & _ & _ & _ & Hr & Hd).
  split; [|split; [|split]].
  - intros Hc. destruct r as [c'|e].
    + destruct Hr as (_ & Hc' & [->|[_ Hv]]); [done|]. congruence.
    + destruct Hr as (H1 & H2 & _). congruence.
  - intros ->. destruct Hr as (_ & _ & [?|[_ Hv]]); [done|congruence].
  - destruct Hd as [?|(cache & data & Hm & Hv & Hcr & _ & Hd)]; [by left|right].
    exists cache, data. split; [done|]. split; [|done]. intros Hc. congruence.
  - intros e ->. destruct Hr as (H1 & H2 & H3). split; congruence.
Qed.

(** C2, witness: an HTML page as the crumb, and a fresh session talking to
    [errorPageOutside]. *)
Lemma rejected_crumb_never_kept_witness :
  rejectedCrumb "<html>429</html>" ∧
  isValidCrumb "<html>429</html>" = false ∧
  crumb (session (@getCookieAndCrumb asciiLib errorPageOutside freshSys).2) ≠ "<html>429</html>".
Proof.
  assert (Hrej : rejectedCrumb "<html>429</html>") by (right; left; reflexivity).
  split; [exact Hrej|].
  destruct (@rejected_crumb_never_kept asciiLib errorPageOutside "<html>429</html>" freshSys Hrej)
    as (Hinv & _ & Hcall).
  split; [exact Hinv|].
  intros Hc.
  destruct (@getCookieAndCrumb asciiLib errorPageOutside freshSys) as [r s'] eqn:Hrun.
  destruct (Hcall r s' eq_refl) as (Hkeep & _).
  apply Hkeep in Hc. discriminate Hc.
Defined.

Lemma countEvents_app f evs1 evs2 :
  countEvents f (evs1 ++ evs2) = (countEvents f evs1 + countEvents f evs2)%nat.
Proof. unfold countEvents. by rewrite List.filter_app, length_app. Qed.

Lemma finishAcquisition_result `{GoLib} `{Outside} c s :
  (finishAcquisition c s).1 = (if isValidCrumb c then inl c else inr (ErrInvalidCrumb c)).
Proof.
  destruct (finishAcquisition c s) as [r s'] eqn:Hf.
  apply finishAcquisition_effect in Hf as (_ & _ & Hv). simpl.
  destruct (isValidCrumb c); by destruct Hv.
Qed.

(** C7, as the code has it.  With no crumb in memory, [getCookieAndCrumb]
    opens with the strategy the [cookieStrategy] field names (Csrf for
    ["csrf"], Basic otherwise) and runs it exactly once.  When that
    strategy gives a crumb, the other one is not run and the field is left
    alone.  When it gives an error, the other strategy is run exactly once
    and the field is set to its name, whether or not it succeeds; its
    error, if it gives one, is what the caller gets.  A crumb given by
    either strategy is returned if [isValidCrumb] accepts it; if not, the
    caller gets an error at once, with no further attempt. *)
Theorem strategy_fallback_once `{GoLib} `{Outside} (s : Sys) r s' :
  crumb (session s) = "" →
  getCookieAndCrumb s = (r, s') →
  let first := strategyOf (cookieStrategy (session s)) in
  let second := otherStrategy first in
  ∃ evs, trace (world s') = evs ++ trace (world s) ∧
    last evs = Some (Sent Acq (browserRequest "GET" (entryURL first) None (userAgent (session s)))) ∧
    countEvents (isEntry first) evs = 1%nat ∧
    match (acquire first s).1 with
    | inl c =>
        countEvents (isEntry second) evs = 0%nat ∧
        cookieStrategy (session s') = cookieStrategy (session s) ∧
        r = (if isValidCrumb c then inl c else inr (ErrInvalidCrumb c))
    | inr _ =>
        countEvents (isEntry second) evs = 1%nat ∧
        cookieStrategy (session s') = strategyName second ∧
        match (acquire second (withStrategy (strategyName second) (acquire first s).2)).1 with
        | inl c => r = (if isValidCrumb c then inl c else inr (ErrInvalidCrumb c))
        | inr e => r = inr e
        end
    end.
Proof.
  intros Hc Hcall. simpl.
  rewrite getCookieAndCrumb_acquire in Hcall by done. simpl in Hcall.
  set (first := strategyOf _) in *.
  destruct (acquire first s) as [r1 s1] eqn:H1. simpl.
  destruct (acquire_events _ _ _ _ H1) as (F1 & evs1 & Ht1 & _ & Hn1 & Hm1 & Hl1).
  destruct r1 as [c|e1].
  - pose proof (finishAcquisition_result c s1) as Hres. rewrite Hcall in Hres. simpl in Hres.
    apply finishAcquisition_effect in Hcall as (Ht & Hk & _).
    exists evs1. destruct F1 as (_ & Hk1 & _).
    repeat split; try congruence.
  - destruct (acquire (otherStrategy first) _) as [r2 s2] eqn:H2. simpl.
    destruct (acquire_events _ _ _ _ H2) as (F2 & evs2 & Ht2 & _ & Hn2 & Hm2 & Hl2).
    simpl in Ht2. rewrite Ht1, app_assoc in Ht2.
    assert (Hother : otherStrategy (otherStrategy first) = first) by (by destruct first).
    rewrite Hother in Hm2.
    assert (Hlast : last (evs2 ++ evs1) =
              Some (Sent Acq (browserRequest "GET" (entryURL first) None (userAgent (session s))))).
    { rewrite last_app, Hl1. done. }
    destruct F2 as (_ & Hk2 & _). simpl in Hk2.
    exists (evs2 ++ evs1). rewrite !countEvents_app, Hn1, Hm1, Hn2, Hm2.
    destruct r2 as [c|e2].
    + pose proof (finishAcquisition_result c s2) as Hres. rewrite Hcall in Hres. simpl in Hres.
      apply finishAcquisition_effect in Hcall as (Ht & Hk & _).
      repeat split; try congruence.
    + inversion Hcall; subst. repeat split; try congruence.
Qed.

(** C7, witness: on [consentOutside] no acquisition endpoint answers; the
    fresh session tries Basic, then Csrf, and keeps ["csrf"]. *)
Lemma strategy_fallback_once_witness :
  crumb (session freshSys) = "" ∧
  ∃ evs, trace (world (@getCookieAndCrumb asciiLib consentOutside freshSys).2) = evs ++ [] ∧
         countEvents (isEntry Basic) evs = 1%nat ∧
         countEvents (isEntry Csrf) evs = 1%nat ∧
         cookieStrategy (session (@getCookieAndCrumb asciiLib consentOutside freshSys).2) = "csrf".
Proof.
  split; [reflexivity|].
  destruct (@getCookieAndCrumb asciiLib consentOutside freshSys) as [r s'] eqn:Hrun.
  destruct (@strategy_fallback_once asciiLib consentOutside freshSys r s' eq_refl Hrun)
    as (evs & Ht & _ & Hn & Hrest).
  exists evs. split; [exact Ht|]. split; [exact Hn|].
  vm_compute in Hrest. destruct Hrest as (Hm & Hk & _).
  split; [exact Hm|exact Hk].
Defined.

(** C7, counterexample to the claim as worded: the crumb endpoint answers
    the basic strategy with an error page that opens with a doctype.  The
    strategy passes it on as a crumb, [isValidCrumb] refuses it, and the
    caller gets an error although the fallback was never attempted. *)
Lemma error_without_fallback :
  (@acquire asciiLib errorPageOutside Basic freshSys).1 = inl errorPage ∧
  (@getCookieAndCrumb asciiLib errorPageOutside freshSys).1 = inr (ErrInvalidCrumb errorPage) ∧
  countEvents (isEntry Csrf)
    (trace (world (@getCookieAndCrumb asciiLib errorPageOutside freshSys).2)) = 0%nat ∧
  cookieStrategy (session (@getCookieAndCrumb asciiLib errorPageOutside freshSys).2) = "basic".
Proof. repeat split; vm_compute; reflexivity. Qed.

(** ** Claims about [doRequest] *)

Lemma string_app_self_inv (a b : string) : a +:+ b = a → b = "".
Proof.
  induction a as [|c a IH]; simpl; [done|]. intros [= Heq]. by apply IH.
Qed.

Lemma getCookieAndCrumb_nonempty `{GoLib} `{Outside} s c s' :
  getCookieAndCrumb s = (inl c, s') → c ≠ "".
Proof. intros Hcall. by destruct (getCookieAndCrumb_effect _ _ _ Hcall) as (_&_&_&_&(?&_)&_). Qed.

(** The payload [doRequest] gives the request. *)
Lemma sendRequest_sends `{GoLib} `{Outside} (method url : string) (body : ReqBody) (s : Sys) :
  body ≠ BadBody →
  newRequestOK method url = true →
  sendRequest method url body s =
    (transport (trace (world s)) Api
       (browserRequest method url (match body with JsonBody j => Some j | _ => None end)
                       (userAgent (session s))),
     mkSys (session s)
           (emit (Sent Api (browserRequest method url
                              (match body with JsonBody j => Some j | _ => None end)
                              (userAgent (session s))))
                 (world s))).
Proof.
  intros Hbody Hnew. unfold sendRequest.
  destruct body; [|done|]; rewrite Hnew; by munfold.
Qed.

(** [doRequest] is acquisition followed by the sending, whatever
    acquisition answered. *)
Lemma doRequest_after_acquisition `{GoLib} `{Outside} (method endpoint : string)
    (params : gmap string string) (body : ReqBody) (s : Sys) r s1 :
  getCookieAndCrumb s = (r, s1) →
  doRequest method endpoint params body s =
  sendRequest method (withCrumb (baseURL endpoint params)
                                (match r with inl c => c | inr _ => "" end)) body s1.
Proof. intros Hcall. unfold doRequest, bind. by rewrite Hcall. Qed.

(** C10.  Whatever [getCookieAndCrumb] answers, [doRequest] goes on to
    build and send the request (given a body that marshals and a URL that
    [http.NewRequestWithContext] accepts): after an acquisition error the
    request goes to the plain URL, with no crumb parameter, and the error is
    dropped; after a success the crumb is non-empty and is appended as
    [crumb=...].  So the URL sent carries a crumb parameter exactly when a
    crumb was obtained. *)
Theorem doRequest_crumb_parameter `{GoLib} `{Outside} (method endpoint : string)
    (params : gmap string string) (body : ReqBody) (s : Sys) r s1 :
  getCookieAndCrumb s = (r, s1) →
  body ≠ BadBody →
  newRequestOK method (withCrumb (baseURL endpoint params)
                                 (match r with inl c => c | inr _ => "" end)) = true →
  ∃ req,
    doRequest method endpoint params body s =
      (transport (trace (world s1)) Api req, mkSys (session s1) (emit (Sent Api req) (world s1))) ∧
    Method req = method ∧
    match r with
    | inr _ => URL req = baseURL endpoint params
    | inl c => c ≠ "" ∧
               URL req = baseURL endpoint params +:+
                         (if Contains (baseURL endpoint params) "?" then "&crumb=" else "?crumb=") +:+
                         QueryEscape c
    end ∧
    (URL req = baseURL endpoint params ↔ ∃ e, r = inr e).
Proof.
  intros Hcall Hbody Hnew.
  rewrite (doRequest_after_acquisition _ _ _ _ _ _ _ Hcall).
  rewrite (sendRequest_sends _ _ _ _ Hbody Hnew).
  set (base := baseURL endpoint params).
  set (c := match r with inl c => c | inr _ => "" end).
  assert (Hurl : withCrumb base c =
            match r with
            | inr _ => base
            | inl c => base +:+ (if Contains base "?" then "&crumb=" else "?crumb=") +:+ QueryEscape c
            end).
  { unfold withCrumb, c. destruct r as [c'|e]; [|done].
    apply getCookieAndCrumb_nonempty in Hcall. apply String_eqb_false_ne in Hcall.
    rewrite Hcall. simpl. by destruct (Contains base "?"). }
  eexists. split; [reflexivity|].
  split; [done|]. simpl. rewrite Hurl. destruct r as [c'|e].
  - split; [split; [by eapply getCookieAndCrumb_nonempty|done]|].
    split; [|by intros [e ?]].
    intros Heq. apply string_app_self_inv in Heq. by destruct (Contains base "?").
  - split; [done|]. split; [by exists e|done].
Qed.

(** C10, witness: on [consentOutside] acquisition fails, and the request
    for the chart endpoint goes out without a crumb. *)
Lemma doRequest_crumb_parameter_witness :
  (∃ e, (@getCookieAndCrumb asciiLib consentOutside freshSys).1 = inr e) ∧
  ∃ req s',
    @doRequest asciiLib consentOutside "GET" chartEndpoint ∅ NilBody freshSys =
      (inl (okResponse "<html>consent</html>" "https://consent.yahoo.com/v2/collectConsent?sessionId=1"), s') ∧
    head (trace (world s')) = Some (Sent Api req) ∧
    URL req = chartEndpoint.
Proof.
  split; [eexists; vm_compute; reflexivity|].
  destruct (@getCookieAndCrumb asciiLib consentOutside freshSys) as [r s1] eqn:Hrun.
  destruct (@doRequest_crumb_parameter asciiLib consentOutside "GET" chartEndpoint ∅ NilBody
              freshSys r s1 Hrun ltac:(discriminate) ltac:(reflexivity))
    as (req & Hdo & _ & _ & Hiff).
  exists req, (mkSys (session s1) (emit (Sent Api req) (world s1))).
  split; [rewrite Hdo; reflexivity|]. split; [reflexivity|].
  apply Hiff. assert (Hr : r = (@getCookieAndCrumb asciiLib consentOutside freshSys).1)
    by (rewrite Hrun; reflexivity).
  rewrite Hr. eexists. vm_compute. reflexivity.
Defined.

(** ** Claims about the cookie cache *)

Lemma loadCookieCache_miss `{GoLib} s s' : loadCookieCache s = (false, s') → s' = s.
Proof.
  unfold loadCookieCache. munfold.
  repeat (case_match; simplify_eq; simpl in * ); by intros [= <-].
Qed.

Lemma saveCookieCache_written `{GoLib} `{Outside} s s' :
  cacheDir (session s) ≠ "" →
  saveCookieCache s = (None, s') →
  ∃ data, Marshal (cacheRecord (session s) (clock (world s))) = Some data ∧
          session s' = session s ∧
          disk (world s') = <[cacheFileOf (session s) := data]> (disk (world s)).
Proof.
  intros Hdir. unfold saveCookieCache. munfold.
  fold (cacheRecord (session s) (clock (world s))).
  apply String_eqb_false_ne in Hdir. rewrite Hdir.
  destruct (Marshal _) as [data|]; [|discriminate].
  destruct (writable _); [|discriminate]. intros [= <-]. by exists data.
Qed.

(** C8, as the code has it.  Let a session with a cache directory save its
    credentials [(cookie, crumb, strategy)] successfully at instant [t], and
    let the file decode to the record written.  A session on the same
    directory that then loads the file at instant [t']
    - no later than [t + 24h], gets [true] and exactly these three values,
      provided the crumb passes [isValidCrumb];
    - no later than [t + 24h], gets a miss ([false], session unchanged) when
      the crumb does not pass [isValidCrumb];
    - later than [t + 24h], gets a miss ([false], session unchanged). *)
Theorem cache_round_trip `{GoLib} `{Outside} (yd yd' : YfData) (w w' : World) (s1 : Sys) :
  cacheDir yd ≠ "" →
  cacheDir yd' = cacheDir yd →
  saveCookieCache (mkSys yd w) = (None, s1) →
  (∀ data, Marshal (cacheRecord yd (clock w)) = Some data →
           Unmarshal data = Some (cacheRecord yd (clock w))) →
  disk w' = disk (world s1) →
  (clock w' <= clock w + 24 * Hour → isValidCrumb (crumb yd) = true →
     ∃ yd2, loadCookieCache (mkSys yd' w') = (true, mkSys yd2 w') ∧
            cookie yd2 = cookie yd ∧ crumb yd2 = crumb yd ∧
            cookieStrategy yd2 = cookieStrategy yd) ∧
  (clock w' <= clock w + 24 * Hour → isValidCrumb (crumb yd) = false →
     loadCookieCache (mkSys yd' w') = (false, mkSys yd' w')) ∧
  (clock w + 24 * Hour < clock w' →
     loadCookieCache (mkSys yd' w') = (false, mkSys yd' w')).
Proof.
  intros Hdir Hsame Hsave Hcodec Hdisk.
  destruct (saveCookieCache_written (mkSys yd w) s1 Hdir Hsave) as (data & Hm & _ & Hd).
  simpl in *.
  specialize (Hcodec data Hm).
  assert (Hfile : disk w' !! cacheFileOf yd' = Some data).
  { rewrite Hdisk, Hd. unfold cacheFileOf. rewrite Hsame. apply lookup_insert_eq. }
  assert (Hdir' : String.eqb (cacheDir yd') "" = false).
  { apply String_eqb_false_ne. congruence. }
  unfold loadCookieCache. munfold. cbn [session world]. rewrite Hdir'.
  change (disk (world (mkSys yd' w'))) with (disk w'). rewrite Hfile, Hcodec.
  cbn [session world Expiry Crumb Cookie Strategy cacheRecord].
  split; [|split].
  - intros Ht Hv. destruct (Z.ltb_spec (clock w + 24 * Hour) (clock w')); [lia|].
    rewrite Hv. simpl. eexists. split; [reflexivity|]. done.
  - intros Ht Hv. destruct (Z.ltb_spec (clock w + 24 * Hour) (clock w')); [lia|].
    by rewrite Hv.
  - intros Ht. destruct (Z.ltb_spec (clock w + 24 * Hour) (clock w')); [done|lia].
Qed.

(** C8, witness: valid credentials saved at instant 0 and loaded by a fresh
    session one hour later. *)
Lemma cache_round_trip_witness :
  ∃ yd2 w',
    clock w' = Hour ∧
    disk w' = disk (world (@saveCookieCache asciiLib twice429
                              (mkSys validCredentials (emptyWorld 0))).2) ∧
    @loadCookieCache asciiLib (mkSys (freshSession "/home/u/.cache/yfinance-go") w')
      = (true, mkSys yd2 w') ∧
    cookie yd2 = "d=AQABBK" ∧ crumb yd2 = "crumbOne" ∧ cookieStrategy yd2 = "csrf".
Proof.
  pose (s1 := (@saveCookieCache asciiLib twice429 (mkSys validCredentials (emptyWorld 0))).2).
  pose (w' := mkWorld [] (disk (world s1)) Hour).
  destruct (@cache_round_trip asciiLib twice429 validCredentials
              (freshSession "/home/u/.cache/yfinance-go") (emptyWorld 0) w' s1
              ltac:(discriminate) ltac:(reflexivity) ltac:(vm_compute; reflexivity)
              ltac:(intros data [= <-]; vm_compute; reflexivity) ltac:(reflexivity))
    as (Hfresh & _ & _).
  destruct (Hfresh ltac:(vm_compute; discriminate) ltac:(reflexivity))
    as (yd2 & Hload & Hck & Hcr & Hst).
  exists yd2, w'. split; [reflexivity|]. split; [reflexivity|].
  split; [exact Hload|]. split; [exact Hck|]. split; [exact Hcr|exact Hst].
Defined.

(** C8, counterexample to the claim as worded: credentials whose crumb is
    empty (the state [ResetCrumb] leaves) are saved without error, and a
    fresh session loading the file one second later gets a miss. *)
Lemma cleared_credentials_do_not_round_trip :
  (@saveCookieCache asciiLib twice429 (mkSys clearedCredentials (emptyWorld 0))).1 = None ∧
  @loadCookieCache asciiLib
    (mkSys (freshSession "/home/u/.cache/yfinance-go")
           (mkWorld [] (disk (world (@saveCookieCache asciiLib twice429
                                       (mkSys clearedCredentials (emptyWorld 0))).2)) Second))
  = (false,
     mkSys (freshSession "/home/u/.cache/yfinance-go")
           (mkWorld [] (disk (world (@saveCookieCache asciiLib twice429
                                       (mkSys clearedCredentials (emptyWorld 0))).2)) Second)) ∧
  cookie (freshSession "/home/u/.cache/yfinance-go") ≠ cookie clearedCredentials.
Proof. split; [vm_compute; reflexivity|]. split; [vm_compute; reflexivity|]. discriminate. Qed.

(** ** Claims about the backoff *)



(** C5, the code at the failing input.  At attempt 34 the product
    [2^34 * time.Second] does not fit an int64: it wraps to a negative
    duration, the cap does not apply, and [time.Sleep] returns at once,
    where the claim has a wait of thirty seconds.  So a call with 35
    retries configured, against a server that always answers 429, sleeps
    thirty seconds after its 34th request and not at all after its 35th. *)
Theorem backoff_overflows_at_34 :
  (∀ lib : GoLib, @backoff lib 34 = -1266874889709551616) ∧
  Z.min (2 ^ 34) 30 * Second = 30000000000 ∧
  sleeps (trace (world (@makeRequest asciiLib always429 35 "GET" chartEndpoint ∅ NilBody
                          freshSys).2)) !! 33%nat = Some 30000000000 ∧
  sleeps (trace (world (@makeRequest asciiLib always429 35 "GET" chartEndpoint ∅ NilBody
                          freshSys).2)) !! 34%nat = Some (-1266874889709551616).
Proof. repeat split; vm_compute; reflexivity. Qed.

(** ** The retry loop *)

Section RetryProofs.
Context `{GoLib} `{Outside}.

Lemma quiet_counts acq :
  Forall (λ e, isAcq e = true) acq →
  countEvents isApi acq = 0%nat ∧ countEvents isSwitch acq = 0%nat ∧
  countEvents isSleep acq = 0%nat ∧ sleeps acq = [].
Proof.
  unfold sleeps, countEvents.
  induction 1 as [|e acq He _ IH]; [done|].
  destruct e as [[|] r| |]; try discriminate. simpl.
  destruct IH as (?&?&?&Hs). repeat split; try done.
  rewrite reverse_cons, omap_app, Hs. done.
Qed.



(** Every dispatch, whatever the body: acquisition traffic and at most one
    API request. *)
Lemma doRequest_events method endpoint params body s r s' :
  doRequest method endpoint params body s = (r, s') →
  ∃ evs, trace (world s') = evs ++ trace (world s) ∧
         (countEvents isApi evs <= 1)%nat ∧ countEvents isSleep evs = 0%nat ∧
         countEvents isSwitch evs = 0%nat.
Proof.
  unfold doRequest, bind.
  destruct (getCookieAndCrumb s) as [r0 s0] eqn:Hcall.
  destruct (getCookieAndCrumb_effect _ _ _ Hcall) as ((acq & Ht & Hq) & _).
  destruct (quiet_counts _ Hq) as (Ha & Hsw & Hsl & _).
  unfold sendRequest. munfold.
  destruct body; try destruct (newRequestOK _ _); intros [= <- <-]; simpl;
    first [ exists acq; split; [done|]; rewrite Ha, Hsl, Hsw; split; [lia|done]
          | eexists (_ :: acq); split; [by rewrite Ht|];
            unfold countEvents in *; simpl; rewrite Ha, Hsl, Hsw; split; [lia|done] ].
Qed.



(** A pass that meets a consent redirect: reset, no sleep, continue. *)
Lemma attemptBody_consent retries attempt lastErr method endpoint params body s resp s1 :
  doRequest method endpoint params body s = (inl resp, s1) →
  StatusCode resp ≠ 429 →
  isConsentURL (FinalURL resp) = true →
  attemptBody retries attempt lastErr method endpoint params body s
    = (Continue lastErr, consentReset s1).
Proof.
  intros Hdo Hst Hco. unfold attemptBody, bind at 1. rewrite Hdo.
  apply Z.eqb_neq in Hst. rewrite Hst, Hco. reflexivity.
Qed.

(** What one pass adds to the trace: at most one API request. *)
Lemma attemptBody_events retries attempt lastErr method endpoint params body s st s' :
  attemptBody retries attempt lastErr method endpoint params body s = (st, s') →
  ∃ evs, trace (world s') = evs ++ trace (world s) ∧ (countEvents isApi evs <= 1)%nat.
Proof.
  unfold attemptBody, bind at 1.
  destruct (doRequest _ _ _ _ s) as [r s1] eqn:Hdo.
  destruct (doRequest_events _ _ _ _ _ _ _ Hdo) as (evs & Ht & Ha & _).
  unfold switchCookieStrategy, acceptConsent, ResetCrumb. munfold.
  repeat (case_match; simplify_eq; simpl in * ); intros [= <- <-]; simpl;
    first [ exists evs; split; [done|lia]
          | eexists (_ :: evs); split; [by rewrite Ht|unfold countEvents in *; simpl; lia]
          | eexists (_ :: _ :: evs); split; [by rewrite Ht|unfold countEvents in *; simpl; lia] ].
Qed.

(** The loop sends at most as many API requests as it has passes. *)
Lemma attemptLoop_api_bound remaining : ∀ retries attempt lastErr method endpoint params body s r s',
  attemptLoop remaining retries attempt lastErr method endpoint params body s = (r, s') →
  ∃ evs, trace (world s') = evs ++ trace (world s) ∧ (countEvents isApi evs <= remaining)%nat.
Proof.
  induction remaining as [|n IH]; intros retries attempt lastErr method endpoint params body s r s'.
  { simpl. unfold ret. intros [= <- <-]. by exists []. }
  simpl. unfold bind at 1.
  destruct (attemptBody _ _ _ _ _ _ _ s) as [st s1] eqn:Hbody.
  destruct (attemptBody_events _ _ _ _ _ _ _ _ _ _ Hbody) as (evs1 & Ht1 & Ha1).
  destruct st as [resp err|lastErr'].
  - unfold ret. intros [= <- <-]. exists evs1. split; [done|lia].
  - intros Hloop. destruct (IH _ _ _ _ _ _ _ _ _ _ Hloop) as (evs2 & Ht2 & Ha2).
    exists (evs2 ++ evs1). rewrite Ht2, Ht1, app_assoc, countEvents_app. split; [done|lia].
Qed.

(** With the configured retry count at zero the budget is three retries:
    no more than four API requests go out. *)
Lemma makeRequest_default_budget method endpoint params body s r s' :
  makeRequest 0 method endpoint params body s = (r, s') →
  retryBudget 0 = 3 ∧
  ∃ evs, trace (world s') = evs ++ trace (world s) ∧ (countEvents isApi evs <= 4)%nat.
Proof.
  intros Hcall. split; [done|]. by apply attemptLoop_api_bound in Hcall.
Qed.

End RetryProofs.





(** C4, as the code has it.  When a dispatch comes back with a response
    other than a 429 whose final URL is on a consent host, the pass clears
    crumb and cookie, sets the strategy to ["csrf"] and continues without
    sleeping: the world is as the dispatch left it, and no sleep was added
    since the pass began.  The pass is counted like any other: the loop
    goes on with one pass fewer and the attempt number raised by one. *)
Theorem consent_redirect_pass `{GoLib} `{Outside} (retries attempt : Z) (lastErr : option error)
    (method endpoint : string) (params : gmap string string) (body : ReqBody)
    (s : Sys) (resp : Response) (s1 : Sys) :
  doRequest method endpoint params body s = (inl resp, s1) →
  StatusCode resp ≠ 429 →
  isConsentURL (FinalURL resp) = true →
  attemptBody retries attempt lastErr method endpoint params body s
    = (Continue lastErr, consentReset s1) ∧
  crumb (session (consentReset s1)) = "" ∧
  cookie (session (consentReset s1)) = "" ∧
  cookieStrategy (session (consentReset s1)) = "csrf" ∧
  world (consentReset s1) = world s1 ∧
  (∃ evs, trace (world (consentReset s1)) = evs ++ trace (world s) ∧
          countEvents isSleep evs = 0%nat) ∧
  ∀ n, attemptLoop (S n) retries attempt lastErr method endpoint params body s
       = attemptLoop n retries (attempt + 1) lastErr method endpoint params body (consentReset s1).
Proof.
  intros Hdo Hst Hco.
  pose proof (attemptBody_consent retries attempt lastErr _ _ _ _ _ _ _ Hdo Hst Hco) as Hbody.
  split; [done|]. do 4 (split; [reflexivity|]). split.
  - destruct (doRequest_events _ _ _ _ _ _ _ Hdo) as (evs & Ht & _ & Hsl & _). by exists evs.
  - intros n. cbn [attemptLoop]. unfold bind at 1. by rewrite Hbody.
Qed.

(** C4, witness: the first dispatch of a fresh session on [consentOutside]. *)
Lemma consent_redirect_pass_witness :
  ∃ resp s1,
    @doRequest asciiLib consentOutside "GET" chartEndpoint ∅ NilBody freshSys = (inl resp, s1) ∧
    @isConsentURL asciiLib (FinalURL resp) = true ∧
    @attemptBody asciiLib consentOutside 3 0 None "GET" chartEndpoint ∅ NilBody freshSys
      = (Continue None, consentReset s1).
Proof.
  eexists. eexists. split; [vm_compute; reflexivity|]. split; [vm_compute; reflexivity|].
  apply (@consent_redirect_pass asciiLib consentOutside 3 0 None "GET" chartEndpoint ∅ NilBody
           freshSys _ _ ltac:(vm_compute; reflexivity) ltac:(vm_compute; discriminate)
           ltac:(vm_compute; reflexivity)).
Defined.

(** C4, counterexample to the claim as worded: with one retry configured
    (two passes) and every request redirected to the consent host, the call
    ends after exactly two requests, empty-handed.  The two consent passes
    used up the budget. *)
Lemma consent_passes_use_the_budget :
  retryBudget 1 = 1 ∧
  (@makeRequest asciiLib consentOutside 1 "GET" chartEndpoint ∅ NilBody freshSys).1
    = (None, None) ∧
  countEvents isApi
    (trace (world (@makeRequest asciiLib consentOutside 1 "GET" chartEndpoint ∅ NilBody freshSys).2))
    = 2%nat ∧
  countEvents isSleep
    (trace (world (@makeRequest asciiLib consentOutside 1 "GET" chartEndpoint ∅ NilBody freshSys).2))
    = 0%nat.
Proof. repeat split; vm_compute; reflexivity. Qed.

(* ===================================================================== *)
(** * Part III: further properties of the code                             *)
(* ===================================================================== *)

(** ** The credential store over time *)

Section SessionExtras.
Context `{GoLib} `{Outside}.

Lemma getCookieAndCrumb_acquires s :
  crumb (session s) = "" →
  ∃ evs, trace (world (getCookieAndCrumb s).2) = evs ++ trace (world s) ∧
         Forall (λ e, isAcq e = true) evs ∧
         (1 <= countEvents (isEntry (strategyOf (cookieStrategy (session s)))) evs)%nat.
Proof.
  intros Hc. rewrite getCookieAndCrumb_acquire by done. simpl.
  set (k := strategyOf _).
  destruct (acquire k s) as [r1 s1] eqn:H1.
  destruct (acquire_events _ _ _ _ H1) as (_ & evs1 & Ht1 & Ha1 & Hn1 & _).
  destruct r1 as [c|e1].
  - destruct (finishAcquisition c s1) as [r s'] eqn:Hf.
    apply finishAcquisition_effect in Hf as (Ht & _). simpl.
    exists evs1. rewrite Ht, Hn1. done.
  - destruct (acquire (otherStrategy k) _) as [r2 s2] eqn:H2.
    destruct (acquire_events _ _ _ _ H2) as (_ & evs2 & Ht2 & Ha2 & _).
    simpl in Ht2. rewrite Ht1, app_assoc in Ht2.
    assert (Hall : Forall (λ e, isAcq e = true) (evs2 ++ evs1)) by (by apply Forall_app).
    assert (Hcount : (1 <= countEvents (isEntry k) (evs2 ++ evs1))%nat).
    { rewrite countEvents_app, Hn1. lia. }
    destruct r2 as [c|e2].
    + destruct (finishAcquisition c s2) as [r s'] eqn:Hf.
      apply finishAcquisition_effect in Hf as (Ht & _). simpl.
      exists (evs2 ++ evs1). by rewrite Ht.
    + simpl. by exists (evs2 ++ evs1).
Qed.

(** X1.  Once [getCookieAndCrumb] has returned a crumb, calling it again
    returns the same crumb and changes nothing -- no request, no write --
    until the crumb is cleared: after [ResetCrumb] the next call runs an
    acquisition again, opening with the request of the remembered
    strategy. *)
Theorem crumb_cached_until_reset (s : Sys) (c : string) (s' : Sys) :
  getCookieAndCrumb s = (inl c, s') →
  getCookieAndCrumb s' = (inl c, s') ∧
  ∃ evs, trace (world (getCookieAndCrumb (ResetCrumb s').2).2) = evs ++ trace (world s') ∧
         Forall (λ e, isAcq e = true) evs ∧
         (1 <= countEvents (isEntry (strategyOf (cookieStrategy (session s')))) evs)%nat.
Proof.
  intros Hcall.
  destruct (getCookieAndCrumb_effect _ _ _ Hcall) as (_ & _ & _ & _ & (Hne & Hc & _) & _).
  split.
  - rewrite getCookieAndCrumb_cached by congruence. by rewrite Hc.
  - apply (getCookieAndCrumb_acquires (ResetCrumb s').2). reflexivity.
Qed.

Lemma sendRequest_session method url body s r s' :
  sendRequest method url body s = (r, s') → session s' = session s.
Proof.
  unfold sendRequest. munfold.
  destruct body; try destruct (newRequestOK _ _); by intros [= <- <-].
Qed.

Lemma crumbOK_getCookieAndCrumb s r s' :
  crumbOK s → getCookieAndCrumb s = (r, s') → crumbOK s'.
Proof.
  intros Hok Hcall.
  destruct (getCookieAndCrumb_effect _ _ _ Hcall) as (_ & _ & _ & _ & Hr & _).
  destruct r as [c|e].
  - destruct Hr as (_ & Hc & [->|[_ Hv]]); [done|]. right. by rewrite Hc.
  - destruct Hr as (_ & Hc & _). by left.
Qed.

Lemma crumbOK_doRequest method endpoint params body s r s' :
  crumbOK s → doRequest method endpoint params body s = (r, s') → crumbOK s'.
Proof.
  intros Hok. destruct (getCookieAndCrumb s) as [r1 s1] eqn:Hcall.
  rewrite (doRequest_after_acquisition _ _ _ _ _ _ _ Hcall). intros Hsend.
  apply sendRequest_session in Hsend. unfold crumbOK. rewrite Hsend.
  by eapply crumbOK_getCookieAndCrumb.
Qed.

(** What one pass of the retry loop can end in. *)
Lemma attemptBody_cases retries attempt lastErr method endpoint params body s st s' :
  attemptBody retries attempt lastErr method endpoint params body s = (st, s') →
  ∃ r s1, doRequest method endpoint params body s = (r, s1) ∧
    (crumb (session s') = crumb (session s1) ∨ crumb (session s') = "") ∧
    match st with
    | Return (Some resp) err =>
        err = None ∧ r = inl resp ∧ s' = s1 ∧
        StatusCode resp ≠ 429 ∧ StatusCode resp ≠ 401 ∧ StatusCode resp ≠ 403 ∧
        isConsentURL (FinalURL resp) = false
    | Return None err => err ≠ None
    | Continue _ => True
    end.
Proof.
  unfold attemptBody, bind at 1.
  destruct (doRequest _ _ _ _ s) as [r s1] eqn:Hdo.
  intros Hbody. exists r, s1. split; [done|].
  unfold switchCookieStrategy, acceptConsent, ResetCrumb in Hbody. munfold.
  destruct r as [resp|err]; simpl in Hbody.
  - destruct (Z.eqb_spec (StatusCode resp) 429) as [H429|H429].
    { destruct (String.eqb _ "basic"), (attempt <? retries);
        inversion Hbody; subst; simpl; split; try (by right); done. }
    destruct (isConsentURL (FinalURL resp)) eqn:Hco.
    { inversion Hbody; subst; simpl. split; [by right|done]. }
    destruct (Z.eqb_spec (StatusCode resp) 401) as [H401|H401];
      destruct (Z.eqb_spec (StatusCode resp) 403) as [H403|H403]; simpl in Hbody;
      try (destruct (attempt <? retries); inversion Hbody; subst; simpl;
           split; try (by right); done).
    inversion Hbody; subst. split; [by left|]. done.
  - destruct (attempt <? retries); inversion Hbody; subst; simpl; split; try (by left); done.
Qed.

Lemma crumbOK_attemptBody retries attempt lastErr method endpoint params body s st s' :
  crumbOK s →
  attemptBody retries attempt lastErr method endpoint params body s = (st, s') → crumbOK s'.
Proof.
  intros Hok Hbody.
  destruct (attemptBody_cases _ _ _ _ _ _ _ _ _ _ Hbody) as (r & s1 & Hdo & Hc & _).
  pose proof (crumbOK_doRequest _ _ _ _ _ _ _ Hok Hdo) as Hok1.
  destruct Hc as [Hc|Hc]; unfold crumbOK; rewrite Hc; [done|by left].
Qed.

Lemma crumbOK_attemptLoop remaining : ∀ retries attempt lastErr method endpoint params body s r s',
  crumbOK s →
  attemptLoop remaining retries attempt lastErr method endpoint params body s = (r, s') →
  crumbOK s'.
Proof.
  induction remaining as [|n IH]; intros retries attempt lastErr method endpoint params body s r s' Hok.
  { simpl. unfold ret. by intros [= <- <-]. }
  simpl. unfold bind at 1.
  destruct (attemptBody _ _ _ _ _ _ _ s) as [st s1] eqn:Hbody.
  pose proof (crumbOK_attemptBody _ _ _ _ _ _ _ _ _ _ Hok Hbody) as Hok1.
  destruct st as [resp err|lastErr'].
  - unfold ret. by intros [= <- <-].
  - by apply IH.
Qed.

Lemma loadCookieCache_hit s s' :
  loadCookieCache s = (true, s') →
  isValidCrumb (crumb (session s')) = true ∧ world s' = world s ∧
  ∃ data cache,
    cacheDir (session s) ≠ "" ∧
    disk (world s) !! cacheFileOf (session s) = Some data ∧
    Unmarshal data = Some cache ∧
    clock (world s) <= Expiry cache ∧
    session s' = setStrategy (Strategy cache)
                   (setCrumb (Crumb cache) (setCookie (Cookie cache) (session s))).
Proof.
  unfold loadCookieCache. munfold.
  destruct (String.eqb_spec (cacheDir (session s)) "") as [Hd|Hd]; [discriminate|].
  destruct (disk (world s) !! cacheFileOf (session s)) as [data|] eqn:Hfile; [|discriminate].
  destruct (Unmarshal data) as [cache|] eqn:Hdec; [|discriminate].
  destruct (Z.ltb_spec (Expiry cache) (clock (world s))); [discriminate|].
  destruct (isValidCrumb (Crumb cache)) eqn:Hv; [|discriminate].
  simpl. intros [= <-]. simpl. split; [done|]. split; [done|].
  exists data, cache. repeat split; done.
Qed.

(** X2.  The crumb in memory is always empty or one that [isValidCrumb]
    accepts: a session as [NewYfData] builds it has this property, whatever
    the cache file holds, and [makeRequest] (so [Get] and [Post]),
    [ClearCache] and [loadCookieCache] keep it. *)
Theorem crumb_empty_or_valid (pick : nat) (sid dir : string) (w : World) :
  crumbOK (NewYfData pick sid dir w) ∧
  ∀ s, crumbOK s →
    (∀ configured method endpoint params body,
        crumbOK (makeRequest configured method endpoint params body s).2) ∧
    crumbOK (ClearCache s).2 ∧
    crumbOK (loadCookieCache s).2.
Proof.
  assert (Hload : ∀ s, crumbOK s → crumbOK (loadCookieCache s).2).
  { intros s Hok. destruct (loadCookieCache s) as [[|] s'] eqn:Hl; simpl.
    - right. by apply loadCookieCache_hit in Hl as [? _].
    - by apply loadCookieCache_miss in Hl as ->. }
  split.
  { unfold NewYfData. apply Hload. by left. }
  intros s Hok. split; [|split; [|by apply Hload]].
  - intros configured method endpoint params body.
    destruct (makeRequest _ _ _ _ _ s) as [r s'] eqn:Hcall. simpl.
    unfold makeRequest in Hcall. by eapply crumbOK_attemptLoop.
  - unfold ClearCache, RemoveFile. munfold. simpl.
    repeat (case_match; simplify_eq; simpl); by left.
Qed.

End SessionExtras.

(** X2, witness: a session whose crumb is valid, asked for a chart on
    [twice429]. *)
Lemma crumb_empty_or_valid_witness :
  crumbOK (mkSys validCredentials (emptyWorld 0)) ∧
  crumbOK (@makeRequest asciiLib twice429 0 "GET" chartEndpoint ∅ NilBody
             (mkSys validCredentials (emptyWorld 0))).2.
Proof.
  assert (Hok : crumbOK (mkSys validCredentials (emptyWorld 0))) by (right; reflexivity).
  split; [exact Hok|].
  destruct (@crumb_empty_or_valid asciiLib twice429 0 "" "" (emptyWorld 0)) as [_ Hkeep].
  destruct (Hkeep _ Hok) as [Hreq _]. apply Hreq.
Defined.

(** X1, witness: a fresh session acquiring its crumb on [twice429]. *)
Lemma crumb_cached_until_reset_witness :
  ∃ s', @getCookieAndCrumb asciiLib twice429 freshSys = (inl "crumbOne", s') ∧
        @getCookieAndCrumb asciiLib twice429 s' = (inl "crumbOne", s').
Proof.
  eexists. split; [vm_compute; reflexivity|].
  eapply (@crumb_cached_until_reset asciiLib twice429 freshSys "crumbOne").
  vm_compute. reflexivity.
Defined.

Section CacheExtras.
Context `{GoLib} `{Outside}.

(** X3.  [loadCookieCache] answers [true] only when the cache file exists,
    decodes, has not expired and holds a crumb [isValidCrumb] accepts; it
    then installs exactly the file's cookie, crumb and strategy and touches
    nothing else.  In every other case -- no cache directory, no file,
    corrupt file, expired or invalid entry -- it answers [false] and leaves
    session and world exactly as they were. *)
Theorem loadCookieCache_outcome (s : Sys) (hit : bool) (s' : Sys) :
  loadCookieCache s = (hit, s') →
  world s' = world s ∧
  if hit then
    ∃ data cache,
      cacheDir (session s) ≠ "" ∧
      disk (world s) !! cacheFileOf (session s) = Some data ∧
      Unmarshal data = Some cache ∧
      clock (world s) <= Expiry cache ∧
      isValidCrumb (Crumb cache) = true ∧
      session s' = setStrategy (Strategy cache)
                     (setCrumb (Crumb cache) (setCookie (Cookie cache) (session s)))
  else s' = s.
Proof.
  destruct hit; intros Hload.
  - apply loadCookieCache_hit in Hload as (Hv & Hw & data & cache & Hd & Hf & Hu & Ht & Hs).
    split; [done|]. exists data, cache. repeat split; try done.
    by rewrite Hs in Hv.
  - apply loadCookieCache_miss in Hload as ->. done.
Qed.

(** X4.  [ClearCache] always empties crumb and cookie in memory, even when
    it returns an error (no file to remove).  When it returns [nil], the
    cache file is gone: a session on the same cache directory that loads
    afterwards gets a miss. *)
Theorem ClearCache_then_load_misses (s : Sys) (e : option error) (s1 : Sys) :
  ClearCache s = (e, s1) →
  crumb (session s1) = "" ∧ cookie (session s1) = "" ∧
  cacheDir (session s1) = cacheDir (session s) ∧
  (e = None →
   ∀ yd' w', cacheDir yd' = cacheDir (session s) → disk w' = disk (world s1) →
             loadCookieCache (mkSys yd' w') = (false, mkSys yd' w')).
Proof.
  unfold ClearCache, RemoveFile. munfold. simpl.
  destruct (String.eqb_spec (cacheDir (session s)) "") as [Hd|Hd].
  { intros [= <- <-]. simpl. repeat split. intros _ yd' w' Hsame _.
    unfold loadCookieCache. munfold. simpl. by rewrite Hsame, Hd. }
  unfold cacheFileOf. simpl.
  destruct (disk (world s) !! PathJoin (cacheDir (session s)) "cookie_cache.json") eqn:Hfile.
  2:{ intros [= <- <-]. simpl. repeat split. discriminate. }
  destruct (writable _).
  2:{ intros [= <- <-]. simpl. repeat split. discriminate. }
  intros [= <- <-]. simpl. repeat split. intros _ yd' w' Hsame Hdisk.
  unfold loadCookieCache. munfold. simpl.
  destruct (String.eqb (cacheDir yd') ""); [done|].
  unfold cacheFileOf. change (disk (world (mkSys yd' w'))) with (disk w').
  rewrite Hdisk, Hsame, lookup_delete_eq. done.
Qed.

(** What the retry loop can return. *)
Lemma attemptLoop_result remaining : ∀ retries attempt lastErr method endpoint params body s resp err s',
  attemptLoop remaining retries attempt lastErr method endpoint params body s
    = ((Some resp, err), s') →
  err = None ∧
  StatusCode resp ≠ 429 ∧ StatusCode resp ≠ 401 ∧ StatusCode resp ≠ 403 ∧
  isConsentURL (FinalURL resp) = false.
Proof.
  induction remaining as [|n IH];
    intros retries attempt lastErr method endpoint params body s resp err s'.
  { simpl. unfold ret. discriminate. }
  simpl. unfold bind at 1.
  destruct (attemptBody _ _ _ _ _ _ _ s) as [st s1] eqn:Hbody.
  destruct (attemptBody_cases _ _ _ _ _ _ _ _ _ _ Hbody) as (r & s0 & _ & _ & Hst).
  destruct st as [resp0 err0|lastErr'].
  - unfold ret. intros [= -> -> <-]. by destruct Hst as (?&_&_&?&?&?&?).
  - apply IH.
Qed.

(** X5.  A response [makeRequest] hands to its caller never comes with an
    error, is never a 429, 401 or 403, and never has a consent host as its
    final URL: those are all dealt with inside the loop. *)
Theorem makeRequest_response_is_final (configured : Z) (method endpoint : string)
    (params : gmap string string) (body : ReqBody) (s : Sys) resp err s' :
  makeRequest configured method endpoint params body s = ((Some resp, err), s') →
  err = None ∧
  StatusCode resp ≠ 429 ∧ StatusCode resp ≠ 401 ∧ StatusCode resp ≠ 403 ∧
  isConsentURL (FinalURL resp) = false.
Proof. unfold makeRequest. apply attemptLoop_result. Qed.

(** X6.  With a negative retry count configured the loop body never runs:
    [makeRequest] sends nothing and returns a [nil] response together with
    a [nil] error, and [GetRawJSON], which only tests the error before it
    defers [resp.Body.Close()], panics on the [nil] response. *)
Theorem negative_retries_return_nothing {V : Type} (decode : string -> option V)
    (configured : Z) (method endpoint : string) (params : gmap string string)
    (body : ReqBody) (s : Sys) :
  configured < 0 →
  makeRequest configured method endpoint params body s = ((None, None), s) ∧
  GetRawJSON decode configured endpoint params s = (Panicked, s).
Proof.
  intros Hneg.
  assert (Hmake : ∀ m b, makeRequest configured m endpoint params b s = ((None, None), s)).
  { intros m b. unfold makeRequest, retryBudget.
    destruct (Z.eqb_spec configured 0); [lia|].
    replace (Z.to_nat (configured + 1)) with 0%nat by lia. reflexivity. }
  split; [apply Hmake|].
  unfold GetRawJSON, Get, bind. by rewrite Hmake.
Qed.

(** X7.  [GetRawJSON] hands a decoded value to its caller only when the
    request ended in a response with a status below 400, whose body could
    be read, does not contain the maintenance marker ["Will be right back"]
    and parses; a maintenance page is refused even when it would parse. *)
Theorem GetRawJSON_decodes_only_good_pages {V : Type} (decode : string -> option V)
    (configured : Z) (endpoint : string) (params : gmap string string) (s : Sys) :
  (∀ v s', GetRawJSON decode configured endpoint params s = (Decoded v, s') →
     ∃ resp body,
       Get configured endpoint params s = ((Some resp, None), s') ∧
       StatusCode resp < 400 ∧
       isConsentURL (FinalURL resp) = false ∧
       Body resp = inl body ∧
       Contains body downMarker = false ∧
       decode body = Some v) ∧
  (∀ resp body s', Get configured endpoint params s = ((Some resp, None), s') →
     Body resp = inl body → Contains body downMarker = true →
     ∃ e, GetRawJSON decode configured endpoint params s = (FetchFailed e, s') ∧
          (e = YahooDown ∨ e = HTTPError (StatusCode resp))).
Proof.
  split.
  - intros v s'. unfold GetRawJSON, bind.
    destruct (Get configured endpoint params s) as [[oresp oerr] s1] eqn:Hget.
    destruct oresp as [resp|], oerr as [err|]; try discriminate.
    destruct (Z.leb_spec 400 (StatusCode resp)); [discriminate|].
    destruct (Body resp) as [body|err] eqn:Hbody; [|discriminate].
    destruct (Contains body downMarker) eqn:Hdown; [discriminate|].
    destruct (decode body) as [v0|] eqn:Hdec; [|discriminate].
    unfold ret. intros [= <- <-]. exists resp, body.
    unfold Get, makeRequest in Hget.
    apply attemptLoop_result in Hget as (_ & _ & _ & _ & Hco).
    repeat split; try done.
  - intros resp body s' Hget Hbody Hdown. unfold GetRawJSON, bind.
    rewrite Hget, Hbody, Hdown.
    destruct (400 <=? StatusCode resp); eexists; split; try reflexivity; auto.
Qed.

End CacheExtras.

(** X3, witness: the cache written for [validCredentials], loaded an hour
    later by a fresh session. *)
Lemma loadCookieCache_outcome_witness :
  ∃ s s',
    @loadCookieCache asciiLib s = (true, s') ∧
    world s' = world s ∧ crumb (session s') = "crumbOne".
Proof.
  pose (w := mkWorld [] (disk (world (@saveCookieCache asciiLib twice429
                                        (mkSys validCredentials (emptyWorld 0))).2)) Hour).
  pose (s := mkSys (freshSession "/home/u/.cache/yfinance-go") w).
  destruct (@loadCookieCache asciiLib s) as [hit s'] eqn:Hload.
  assert (Hhit : hit = true).
  { assert (Hfst : (@loadCookieCache asciiLib s).1 = true) by (vm_compute; reflexivity).
    rewrite Hload in Hfst. exact Hfst. }
  subst hit.
  destruct (@loadCookieCache_outcome asciiLib s true s' Hload)
    as (Hw & data & cache & _ & Hf & Hu & _ & _ & Hs).
  exists s, s'. split; [exact Hload|]. split; [exact Hw|].
  assert (Hsnd : crumb (session (@loadCookieCache asciiLib s).2) = "crumbOne")
    by (vm_compute; reflexivity).
  rewrite Hload in Hsnd. exact Hsnd.
Defined.

(** X4, witness: the cache of [validCredentials] is written, then cleared. *)
Lemma ClearCache_then_load_misses_witness :
  (@ClearCache asciiLib twice429
     (@saveCookieCache asciiLib twice429 (mkSys validCredentials (emptyWorld 0))).2).1 = None ∧
  crumb (session (@ClearCache asciiLib twice429
     (@saveCookieCache asciiLib twice429 (mkSys validCredentials (emptyWorld 0))).2).2) = "" ∧
  @loadCookieCache asciiLib
    (mkSys (freshSession "/home/u/.cache/yfinance-go")
       (mkWorld [] (disk (world (@ClearCache asciiLib twice429
          (@saveCookieCache asciiLib twice429 (mkSys validCredentials (emptyWorld 0))).2).2))
          Hour))
    = (false,
       mkSys (freshSession "/home/u/.cache/yfinance-go")
         (mkWorld [] (disk (world (@ClearCache asciiLib twice429
            (@saveCookieCache asciiLib twice429 (mkSys validCredentials (emptyWorld 0))).2).2))
            Hour)).
Proof.
  set (s0 := (@saveCookieCache asciiLib twice429 (mkSys validCredentials (emptyWorld 0))).2).
  assert (Hnil : (@ClearCache asciiLib twice429 s0).1 = None) by (vm_compute; reflexivity).
  destruct (@ClearCache asciiLib twice429 s0) as [e s1] eqn:Hclear. simpl in *.
  destruct (@ClearCache_then_load_misses asciiLib twice429 s0 e s1 Hclear)
    as (Hc & _ & _ & Hmiss).
  split; [exact Hnil|]. split; [exact Hc|].
  apply (Hmiss Hnil); reflexivity.
Defined.

(** X5, witness: the third request to [twice429] is answered with 200. *)
Lemma makeRequest_response_is_final_witness :
  ∃ resp s',
    @makeRequest asciiLib twice429 0 "GET" chartEndpoint ∅ NilBody freshSys
      = ((Some resp, None), s') ∧
    StatusCode resp ≠ 429.
Proof.
  eexists. eexists. split; [vm_compute; reflexivity|].
  eapply (@makeRequest_response_is_final asciiLib twice429 0 "GET" chartEndpoint ∅ NilBody freshSys).
  vm_compute. reflexivity.
Defined.

(** X6, witness: a retry count of -1, as [SetRetries(-1)] stores it. *)
Lemma negative_retries_return_nothing_witness :
  -1 < 0 ∧
  @makeRequest asciiLib twice429 (-1) "GET" chartEndpoint ∅ NilBody freshSys
    = ((None, None), freshSys) ∧
  @GetRawJSON asciiLib twice429 string Some (-1) chartEndpoint ∅ freshSys = (Panicked, freshSys).
Proof.
  split; [lia|].
  apply (@negative_retries_return_nothing asciiLib twice429 string Some (-1) "GET"
           chartEndpoint ∅ NilBody freshSys). lia.
Defined.

(** X7, witness: the body [{}] of the third answer of [twice429]. *)
Lemma GetRawJSON_decodes_only_good_pages_witness :
  ∃ s' resp,
    @GetRawJSON asciiLib twice429 string Some 0 chartEndpoint ∅ freshSys = (Decoded "{}", s') ∧
    @Get asciiLib twice429 0 chartEndpoint ∅ freshSys = ((Some resp, None), s') ∧
    StatusCode resp < 400.
Proof.
  eexists.
  destruct (proj1 (@GetRawJSON_decodes_only_good_pages asciiLib twice429 string Some 0
                     chartEndpoint ∅ freshSys) "{}" _ ltac:(vm_compute; reflexivity))
    as (resp & body & Hget & Hst & _).
  exists resp. split; [vm_compute; reflexivity|]. split; [exact Hget|exact Hst].
Defined.

(** ** The retry loop against a server that keeps failing *)

Section RetryExtras.
Context `{GoLib} `{Outside}.
Variables (method endpoint : string) (params : gmap string string) (body : ReqBody).
Hypothesis Hbody : body ≠ BadBody.
Hypothesis Hnew : ∀ u, newRequestOK method u = true.







End RetryExtras.







(** ** Configuration *)

Lemma retryBudget_nonzero configured : retryBudget configured ≠ 0.
Proof. unfold retryBudget. destruct (Z.eqb_spec configured 0); lia. Qed.

Lemma SetConfig_keeps_bounds proxy retries hide timeout c :
  0 <= Config.Retries c → 0 < Config.Timeout c →
  0 <= Config.Retries (Config.SetConfig proxy retries hide timeout c) ∧
  0 < Config.Timeout (Config.SetConfig proxy retries hide timeout c).
Proof.
  intros Hr Ht. unfold Config.SetConfig.
  destruct (negb _), (Z.leb_spec 0 retries), (Z.ltb_spec 0 timeout); simpl; lia.
Qed.

(** X11.  Whatever calls of [SetConfig] are made on the global
    configuration, the retry count it holds is never negative and the
    timeout stays positive: a negative count and a non-positive timeout are
    ignored.  The budget [makeRequest] derives from it is then at least
    one retry, and for no configured count is it zero: a count of zero
    selects three retries, so retrying cannot be switched off, and every
    request is allowed at least two attempts. *)
Theorem SetConfig_cannot_disable_retries (calls : list Config.call) :
  0 <= Config.GetRetries (foldl Config.apply Config.GlobalConfig calls) ∧
  0 < Config.Timeout (foldl Config.apply Config.GlobalConfig calls) ∧
  1 <= retryBudget (Config.GetRetries (foldl Config.apply Config.GlobalConfig calls)) ∧
  (2 <= Z.to_nat (retryBudget (Config.GetRetries
                     (foldl Config.apply Config.GlobalConfig calls)) + 1))%nat ∧
  ∀ configured, retryBudget configured ≠ 0.
Proof.
  assert (Hinv : 0 <= Config.Retries (foldl Config.apply Config.GlobalConfig calls) ∧
                 0 < Config.Timeout (foldl Config.apply Config.GlobalConfig calls)).
  { assert (Hgen : ∀ c, 0 <= Config.Retries c → 0 < Config.Timeout c →
               0 <= Config.Retries (foldl Config.apply c calls) ∧
               0 < Config.Timeout (foldl Config.apply c calls)).
    { induction calls as [|[[[p r] h] t] calls IH]; intros c Hr Ht; simpl; [done|].
      destruct (SetConfig_keeps_bounds p r h t c Hr Ht). by apply IH. }
    apply Hgen; simpl; lia. }
  destruct Hinv as [Hr Ht]. unfold Config.GetRetries.
  pose proof (retryBudget_nonzero (Config.Retries (foldl Config.apply Config.GlobalConfig calls))).
  assert (0 <= retryBudget (Config.Retries (foldl Config.apply Config.GlobalConfig calls))).
  { unfold retryBudget.
    destruct (Z.eqb_spec (Config.Retries (foldl Config.apply Config.GlobalConfig calls)) 0); lia. }
  repeat split; try done; try lia. apply retryBudget_nonzero.
Qed.

(** X12.  [GetProxy] gives the environment precedence over the configured
    value: while [YFINANCE_PROXY], [HTTPS_PROXY] or [HTTP_PROXY] is set,
    [SetProxy] has no effect on what [GetProxy] returns, which is the first
    of the three that is set; only with all three unset does [GetProxy]
    return what [SetProxy] stored. *)
Theorem GetProxy_prefers_environment (getenv : string -> string) (proxy : string) (c : Config.t) :
  (getenv "YFINANCE_PROXY" = "" → getenv "HTTPS_PROXY" = "" → getenv "HTTP_PROXY" = "" →
   Config.GetProxy getenv (Config.SetProxy proxy c) = proxy) ∧
  (getenv "YFINANCE_PROXY" ≠ "" →
   Config.GetProxy getenv (Config.SetProxy proxy c) = getenv "YFINANCE_PROXY") ∧
  (getenv "YFINANCE_PROXY" = "" → getenv "HTTPS_PROXY" ≠ "" →
   Config.GetProxy getenv (Config.SetProxy proxy c) = getenv "HTTPS_PROXY") ∧
  (getenv "YFINANCE_PROXY" = "" → getenv "HTTPS_PROXY" = "" → getenv "HTTP_PROXY" ≠ "" →
   Config.GetProxy getenv (Config.SetProxy proxy c) = getenv "HTTP_PROXY").
Proof.
  unfold Config.GetProxy.
  destruct (String.eqb_spec (getenv "YFINANCE_PROXY") "");
    destruct (String.eqb_spec (getenv "HTTPS_PROXY") "");
    destruct (String.eqb_spec (getenv "HTTP_PROXY") ""); simpl;
    repeat split; intros; congruence.
Qed.

(** X12, witness: only [HTTP_PROXY] is set. *)
Lemma GetProxy_prefers_environment_witness :
  Config.GetProxy (fun v => if String.eqb v "HTTP_PROXY" then "http://env:3128" else "")
                  (Config.SetProxy "http://explicit:8080" Config.GlobalConfig)
  = "http://env:3128".
Proof.
  apply (proj2 (proj2 (proj2 (GetProxy_prefers_environment
           (fun v => if String.eqb v "HTTP_PROXY" then "http://env:3128" else "")
           "http://explicit:8080" Config.GlobalConfig)))); [reflexivity|reflexivity|discriminate].
Defined.

(** ** [DownloadSimple], [NewTickers] and [Tickers.History] *)

Lemma string_app_cons (x : ascii) (a b : string) : String x a +:+ b = String x (a +:+ b).
Proof. reflexivity. Qed.

Lemma string_app_assoc (a b c : string) : (a +:+ b) +:+ c = a +:+ b +:+ c.
Proof. induction a as [|x a IH]; [done|]. by rewrite !string_app_cons, IH. Qed.

Lemma HasPrefix_comma (s : string) :
  HasPrefix s "," = match s with String c _ => Ascii.eqb "," c | EmptyString => false end.
Proof.
  unfold HasPrefix. destruct s as [|c s]; [done|].
  change (String.prefix "," (String c s))
    with (if ascii_dec "," c then String.prefix "" s else false).
  destruct (ascii_dec "," c) as [Heq|Hne].
  - subst c. by destruct s.
  - apply Ascii.eqb_neq in Hne. by rewrite Hne.
Qed.

Lemma SplitComma_no_comma (t : string) : Contains t "," = false → SplitComma t = [t].
Proof.
  induction t as [|c t IH]; [done|].
  change (Contains (String c t) ",") with (HasPrefix (String c t) "," || Contains t ",").
  rewrite HasPrefix_comma.
  intros Hc. apply orb_false_elim in Hc as [Hhead Htail].
  simpl. rewrite Ascii.eqb_sym in Hhead. rewrite Hhead, (IH Htail). done.
Qed.

Lemma SplitComma_app_comma (a b : string) :
  Contains a "," = false → SplitComma (a +:+ "," +:+ b) = a :: SplitComma b.
Proof.
  induction a as [|c a IH]; [done|].
  change (Contains (String c a) ",") with (HasPrefix (String c a) "," || Contains a ",").
  rewrite HasPrefix_comma.
  intros Hc. apply orb_false_elim in Hc as [Hhead Htail].
  rewrite string_app_cons. simpl. rewrite Ascii.eqb_sym in Hhead.
  rewrite Hhead, (IH Htail). done.
Qed.

Lemma joinModules_JoinComma (modules : list string) : joinModules modules = JoinComma modules.
Proof.
  unfold joinModules.
  assert (Hgen : ∀ ms n acc,
            (foldl (fun (a : nat * string) (m : string) =>
                      (S a.1, (if (0 <? a.1)%nat then a.2 +:+ "," else a.2) +:+ m))
                   (S n, acc) ms).2
            = match ms with [] => acc | _ => acc +:+ "," +:+ JoinComma ms end).
  { induction ms as [|m ms IH]; intros n acc; [done|].
    cbn [foldl fst snd]. rewrite IH. simpl.
    destruct ms as [|m' ms]; rewrite !string_app_assoc; done. }
  destruct modules as [|m ms]; [done|].
  cbn [foldl fst snd]. simpl. rewrite Hgen.
  destruct ms; done.
Qed.

(** X13.  [joinModules] computes [strings.Join(modules, ",")], and
    splitting its result on commas gives the list back, as long as the
    list is not empty and no element contains a comma; the empty list
    joins to the empty string, which splits into one empty part. *)
Theorem joinModules_split_round_trip (modules : list string) :
  joinModules modules = JoinComma modules ∧
  (modules ≠ [] → Forall (λ m, Contains m "," = false) modules →
   SplitComma (joinModules modules) = modules) ∧
  SplitComma (joinModules []) = [""].
Proof.
  split; [apply joinModules_JoinComma|]. split; [|done].
  rewrite joinModules_JoinComma. intros Hne Hall.
  induction Hall as [|m ms Hm Hms IH]; [done|].
  destruct ms as [|m' ms].
  - simpl. by apply SplitComma_no_comma.
  - change (JoinComma (m :: m' :: ms)) with (m +:+ "," +:+ JoinComma (m' :: ms)).
    rewrite SplitComma_app_comma by done. f_equal. by apply IH.
Qed.

(** X13, witness: the modules [GetInfo] asks for first. *)
Lemma joinModules_split_round_trip_witness :
  SplitComma (joinModules ["summaryProfile"; "summaryDetail"; "assetProfile"])
  = ["summaryProfile"; "summaryDetail"; "assetProfile"].
Proof.
  apply (proj1 (proj2 (joinModules_split_round_trip
                         ["summaryProfile"; "summaryDetail"; "assetProfile"]))).
  - discriminate.
  - repeat constructor.
Defined.

Section MoreDownload.
Context `{GoLib}.

Lemma normalizeGroup_no_comma acc t :
  Contains t "," = false → normalizeGroup acc t = normalizePart acc t.
Proof. intros Hc. unfold normalizeGroup. by rewrite SplitComma_no_comma. Qed.

(** X14.  The symbols of [NewTickers] are pairwise distinct and are exactly
    the non-empty results of trimming and upper-casing an entry of the
    input.  Unlike [Download], [NewTickers] does not split an entry on
    commas; on an input none of whose entries contains a comma the two
    normalise alike. *)
Theorem NewTickers_symbols (symbols : list string) :
  NoDup (NewTickers symbols) ∧
  (∀ x, x ∈ NewTickers symbols ↔
        x ≠ "" ∧ ∃ s, s ∈ symbols ∧ x = ToUpper (TrimSpace s)) ∧
  (Forall (λ t, Contains t "," = false) symbols →
   NewTickers symbols = normalizeTickers symbols).
Proof.
  destruct (normalizeParts_spec symbols _ normInv_init) as [[Hnd _] Hmem].
  split; [done|]. split.
  - intros x. unfold NewTickers. rewrite Hmem. simpl. split.
    + intros [Hx|?]; [by apply elem_of_nil in Hx|done].
    + intros ?. by right.
  - intros Hall. unfold NewTickers, normalizeTickers. f_equal.
    clear Hnd Hmem.
    generalize (([], ∅) : list string * gmap string bool).
    induction Hall as [|t ts Ht _ IH]; intros acc; [done|].
    simpl. rewrite normalizeGroup_no_comma by done. apply IH.
Qed.

Lemma simpleOptions_one_worker {HistoryResult : Type} tickers period interval :
  (length (workers (startPool (HistoryResult := HistoryResult)
                      (simpleOptions tickers period interval))) <= 1)%nat.
Proof.
  unfold startPool. simpl. rewrite length_replicate. unfold workerCount. simpl.
  destruct (Z.gtb_spec 1 (Z.of_nat (length (normalizeTickers tickers)))); lia.
Qed.

(** X15.  [DownloadSimple] leaves [Threads] at zero, so its pool has a
    single worker at most: the tickers are fetched one after the other.
    Whenever it returns, it returns the data map, whose keys are the
    tickers that succeeded; its error is [nil] exactly when no ticker
    failed, in which case the keys are all the normalised tickers; otherwise
    the error lists the failed tickers, each once, and they are the
    normalised tickers missing from the map. *)
Theorem DownloadSimple_reports_failures {HistoryResult : Type} (tickers : list string)
    (period interval : string) (sched : list (PoolEvent HistoryResult)) data err :
  DownloadSimple tickers period interval sched = Some (data, err) →
  (length (workers (startPool (HistoryResult := HistoryResult)
                      (simpleOptions tickers period interval))) <= 1)%nat ∧
  ∃ d, data = Some d ∧
    match err with
    | None => dom d = list_to_set (normalizeTickers tickers)
    | Some (FailedToDownload failed) =>
        failed ≠ [] ∧ NoDup failed ∧
        (∀ x, x ∈ failed → x ∉ dom d) ∧
        dom d ∪ list_to_set failed = list_to_set (normalizeTickers tickers)
    | Some (DownloadError _) => False
    end.
Proof.
  unfold DownloadSimple. intros Hret. split; [apply simpleOptions_one_worker|].
  destruct (Download _ sched) as [[res [e|]]|] eqn:Hd; try discriminate.
  { by apply Download_result_perm in Hd as [? _]. }
  apply Download_result_perm in Hd as (_ & Hperm & Hdata & _). simpl in Hperm.
  destruct (normalizeTickers_spec tickers) as [Hnd _].
  assert (Hnd' : NoDup (Succeeded res ++ Failed res)) by (by rewrite Hperm).
  assert (Hset : list_to_set (C := gset string) (Succeeded res) ∪ list_to_set (Failed res)
                 = list_to_set (normalizeTickers tickers)).
  { rewrite <- list_to_set_app_L. apply set_eq. intros x.
    rewrite !elem_of_list_to_set. by rewrite Hperm. }
  destruct (Failed res) as [|f fs] eqn:Hf; simpl in Hret; inversion Hret; subst; clear Hret.
  - exists (Data res). split; [done|]. rewrite Hdata, <- Hset. set_solver.
  - exists (Data res). split; [done|]. split; [done|].
    apply NoDup_app in Hnd' as (_ & Hdisj & Hndf).
    split; [done|]. split; [|by rewrite Hdata].
    intros x Hx Hin. rewrite Hdata in Hin. apply elem_of_list_to_set in Hin.
    by apply (Hdisj x).
Qed.

End MoreDownload.

(** X14, witness: two entries without a comma. *)
Lemma NewTickers_symbols_witness :
  @NewTickers asciiLib [" aapl"; "msft "] = @normalizeTickers asciiLib [" aapl"; "msft "] ∧
  @NewTickers asciiLib [" aapl"; "msft "] = ["AAPL"; "MSFT"].
Proof.
  split; [|vm_compute; reflexivity].
  apply (proj2 (proj2 (@NewTickers_symbols asciiLib [" aapl"; "msft "]))).
  repeat constructor.
Defined.

(** X15, witness: ["aapl,"] fetched by the single worker. *)
Lemma DownloadSimple_reports_failures_witness :
  ∃ d, @DownloadSimple asciiLib unit ["aapl,"] "1mo" "1d" trailingCommaSchedule
         = Some (Some d, None) ∧
       dom d = list_to_set (@normalizeTickers asciiLib ["aapl,"]).
Proof.
  assert (Hrun : @DownloadSimple asciiLib unit ["aapl,"] "1mo" "1d" trailingCommaSchedule
                 = Some (Some ({["AAPL" := tt]} : gmap string unit), None))
    by (vm_compute; reflexivity).
  destruct (@DownloadSimple_reports_failures asciiLib unit ["aapl,"] "1mo" "1d"
              trailingCommaSchedule _ _ Hrun) as (_ & d & Hd & Hdom).
  exists d. split; [|exact Hdom].
  injection Hd as <-. exact Hrun.
Defined.

Section TickersHistoryProofs.
Context {HistoryResult : Type}.
Implicit Types (st : HistoryRun HistoryResult) (ps : list (option string)).

Lemma stillPending_insert ps i sym :
  ps !! i = Some (Some sym) →
  stillPending ps ≡ₚ sym :: stillPending (<[i := None]> ps).
Proof.
  intros Hi.
  rewrite <- (take_drop_middle ps i (Some sym) Hi) at 1.
  rewrite insert_take_drop by (by eapply lookup_lt_Some).
  unfold stillPending. rewrite !omap_app. simpl.
  by rewrite <- Permutation_middle.
Qed.

Lemma historyStep_inv symbols ev st st' :
  historyInv symbols st → historyStep ev st = Some st' → historyInv symbols st'.
Proof.
  intros [Hcover Hapart] Hstep. unfold historyStep in Hstep.
  destruct (pending st !! ev.1) as [[sym|]|] eqn:Hi; try discriminate.
  pose proof (stillPending_insert _ _ _ Hi) as Hperm.
  assert (Hset : list_to_set (C := gset string) (stillPending (pending st))
                 = {[sym]} ∪ list_to_set (stillPending (<[ev.1 := None]> (pending st)))).
  { apply set_eq. intros x. rewrite elem_of_union, !elem_of_list_to_set, elem_of_singleton.
    rewrite Hperm, elem_of_cons. done. }
  destruct ev.2 as [history|err]; inversion Hstep; subst; clear Hstep;
    constructor; simpl.
  - rewrite dom_insert_L, <- Hcover, Hset. set_solver.
  - intros Hnd. destruct (Hapart Hnd) as (Hndp & Hdisj & Hfresh).
    rewrite Hperm in Hndp. apply NoDup_cons in Hndp as [Hsym Hndp'].
    destruct (Hfresh sym) as [Hs1 Hs2]; [rewrite Hperm; left|].
    split; [done|]. split.
    + rewrite dom_insert_L. set_solver.
    + intros x Hx. destruct (Hfresh x) as [Hx1 Hx2]; [rewrite Hperm; by right|].
      rewrite dom_insert_L. split; [|done]. set_solver.
  - rewrite dom_insert_L, <- Hcover, Hset. set_solver.
  - intros Hnd. destruct (Hapart Hnd) as (Hndp & Hdisj & Hfresh).
    rewrite Hperm in Hndp. apply NoDup_cons in Hndp as [Hsym Hndp'].
    destruct (Hfresh sym) as [Hs1 Hs2]; [rewrite Hperm; left|].
    split; [done|]. split.
    + rewrite dom_insert_L. set_solver.
    + intros x Hx. destruct (Hfresh x) as [Hx1 Hx2]; [rewrite Hperm; by right|].
      rewrite dom_insert_L. split; [done|]. set_solver.
Qed.

Lemma historyRun_inv symbols sched : ∀ st st',
  historyInv symbols st → historyRun sched st = Some st' → historyInv symbols st'.
Proof.
  induction sched as [|ev sched IH]; intros st st' Hinv Hrun; simpl in Hrun.
  { by inversion Hrun; subst. }
  destruct (historyStep ev st) as [st1|] eqn:Hstep; [|discriminate].
  eapply IH; [|done]. by eapply historyStep_inv.
Qed.

Lemma stillPending_Some (symbols : list string) : stillPending (Some <$> symbols) = symbols.
Proof.
  unfold stillPending. induction symbols as [|x l IH]; [done|].
  rewrite fmap_cons. simpl. by f_equal.
Qed.

Lemma historyInv_start (symbols : list string) :
  historyInv symbols (mkHistoryRun (HistoryResult := HistoryResult) (Some <$> symbols) ∅ ∅).
Proof.
  constructor; simpl; rewrite stillPending_Some.
  - rewrite !dom_empty_L. set_solver.
  - intros Hnd. split; [done|]. rewrite !dom_empty_L. set_solver.
Qed.

Lemma allDone_stillPending st : allDone st = true → stillPending (pending st) = [].
Proof.
  unfold allDone, stillPending. induction (pending st) as [|[x|] ps IH]; simpl; try done.
Qed.

Lemma history_progress st :
  allDone st = false → ∃ ev st', historyStep ev st = Some st' ∧
    length (stillPending (pending st)) = S (length (stillPending (pending st'))).
Proof.
  unfold allDone. intros Hnot.
  assert (∃ i sym, pending st !! i = Some (Some sym)) as (i & sym & Hi).
  { induction (pending st) as [|[x|] ps IH]; [discriminate| |].
    - by exists 0%nat, x.
    - destruct (IH Hnot) as (i & sym & Hi). by exists (S i), sym. }
  exists (i, inr (ErrOther "")). eexists. unfold historyStep. simpl. rewrite Hi.
  split; [done|]. simpl. by rewrite (stillPending_insert _ _ _ Hi).
Qed.

Lemma history_completes : ∀ n st, length (stillPending (pending st)) = n →
  ∃ sched st', historyRun sched st = Some st' ∧ allDone st' = true.
Proof.
  induction n as [n IH] using lt_wf_ind. intros st Hn.
  destruct (allDone st) eqn:Hall.
  { by exists [], st. }
  destruct (history_progress st Hall) as (ev & st1 & Hstep & Hlen).
  destruct (IH (length (stillPending (pending st1))) ltac:(lia) st1 eq_refl)
    as (sched & st' & Hrun & Hfin).
  exists (ev :: sched), st'. simpl. by rewrite Hstep.
Qed.

(** X16.  [Tickers.History] returns -- its goroutines can always all finish
    -- and whenever it returns, every symbol has an entry in the result map
    or in the error map, and the maps hold no other key.  The error is
    [nil] exactly when the error map is empty, and then the result map has
    an entry for every symbol.  When the symbols are pairwise distinct, as
    [NewTickers] makes them, no symbol is in both maps, in whatever order
    the goroutines finish. *)
Theorem Tickers_History_covers_symbols (symbols : list string) :
  (∃ sched res err, TickersHistory (HistoryResult := HistoryResult) symbols sched
                    = Some (res, err)) ∧
  ∀ sched (res : gmap string HistoryResult) err,
    TickersHistory symbols sched = Some (res, err) →
    match err with
    | None => dom res = list_to_set symbols
    | Some errs =>
        errs ≠ ∅ ∧ dom res ∪ dom errs = list_to_set symbols ∧
        (NoDup symbols → dom res ## dom errs)
    end.
Proof.
  split.
  { destruct (history_completes _ (mkHistoryRun (Some <$> symbols) ∅ ∅) eq_refl)
      as (sched & st & Hrun & Hall).
    exists sched. unfold TickersHistory. rewrite Hrun, Hall. by eexists _, _. }
  intros sched res err. unfold TickersHistory.
  destruct (historyRun sched _) as [st|] eqn:Hrun; [|discriminate].
  destruct (allDone st) eqn:Hall; [|discriminate].
  pose proof (historyRun_inv _ _ _ _ (historyInv_start symbols) Hrun) as [Hcover Hapart].
  rewrite (allDone_stillPending _ Hall) in Hcover, Hapart. simpl in Hcover.
  destruct (Nat.ltb_spec 0 (size (failures st))) as [Hsz|Hsz]; intros [= <- <-].
  - split; [intros Hempty; rewrite Hempty, map_size_empty in Hsz; lia|].
    split; [rewrite <- Hcover; set_solver|].
    intros Hnd. by destruct (Hapart Hnd) as (_ & ? & _).
  - assert (Hempty : failures st = ∅) by (apply map_size_empty_inv; lia).
    rewrite Hempty, dom_empty_L in Hcover. rewrite <- Hcover. set_solver.
Qed.

End TickersHistoryProofs.

(** X16, witness: two symbols, the second goroutine finishing first. *)
Lemma Tickers_History_covers_symbols_witness :
  ∃ res errs,
    @TickersHistory unit ["AAPL"; "MSFT"]
      [(1%nat, inr (ErrOther "timeout")); (0%nat, inl tt)] = Some (res, Some errs) ∧
    dom res ∪ dom errs = list_to_set ["AAPL"; "MSFT"].
Proof.
  assert (Hrun : @TickersHistory unit ["AAPL"; "MSFT"]
                   [(1%nat, inr (ErrOther "timeout")); (0%nat, inl tt)]
                 = Some (({["AAPL" := tt]} : gmap string unit),
                         Some ({["MSFT" := ErrOther "timeout"]} : gmap string error)))
    by (vm_compute; reflexivity).
  eexists _, _. split; [exact Hrun|].
  apply (proj2 (@Tickers_History_covers_symbols unit ["AAPL"; "MSFT"]) _ _ _ Hrun).
Defined.
(** ** The ticker file: query parameters *)

Lemma oneOf_elem_of v valid : oneOf v valid = true → v ∈ valid.
Proof.
  unfold oneOf. rewrite existsb_exists. intros (p & Hin & Heq).
  apply String.eqb_eq in Heq as ->. by apply list_elem_of_In.
Qed.

Lemma ToParams_range (o : HistoryOptions.t) :
  ToParams o !! "range" =
    if negb (String.eqb (HistoryOptions.Period o) "") && bool_decide (HistoryOptions.Start o = None)
    then Some (HistoryOptions.Period o) else None.
Proof.
  unfold ToParams, setIf. repeat case_match; by simplify_map_eq.
Qed.

Lemma ToParams_interval (o : HistoryOptions.t) :
  ToParams o !! "interval" =
    if negb (String.eqb (HistoryOptions.Interval o) "") then Some (HistoryOptions.Interval o) else None.
Proof.
  unfold ToParams, setIf. repeat case_match; by simplify_map_eq.
Qed.

Lemma ToParams_period1 (o : HistoryOptions.t) :
  ToParams o !! "period1" = formatInt <$> HistoryOptions.Start o.
Proof.
  unfold ToParams, setIf. repeat case_match; by simplify_map_eq.
Qed.

Lemma ToParams_keys (o : HistoryOptions.t) : dom (ToParams o) ⊆ historyKeys.
Proof.
  unfold ToParams, setIf, historyKeys.
  repeat case_match; rewrite ?dom_insert_L, ?dom_empty_L; set_solver.
Qed.

(** X17.  The parameters [ToParams] builds never hold both ["range"] and
    ["period1"]: ["range"] is sent exactly when [Period] is not empty and
    [Start] is [nil], ["period1"] exactly when [Start] is set.  No key other
    than the six of the function is set, and for options [Validate] accepts
    the values of ["range"] and ["interval"] are among [ValidPeriods] and
    [ValidIntervals]. *)
Theorem ToParams_range_excludes_period1 (o : HistoryOptions.t) :
  (ToParams o !! "range" = None ∨ ToParams o !! "period1" = None) ∧
  (is_Some (ToParams o !! "range")
     ↔ HistoryOptions.Period o ≠ "" ∧ HistoryOptions.Start o = None) ∧
  (is_Some (ToParams o !! "period1") ↔ is_Some (HistoryOptions.Start o)) ∧
  dom (ToParams o) ⊆ historyKeys ∧
  (Validate o = None →
     (∀ v, ToParams o !! "range" = Some v → v ∈ ValidPeriods) ∧
     (∀ v, ToParams o !! "interval" = Some v → v ∈ ValidIntervals)).
Proof.
  rewrite ToParams_range, ToParams_interval, ToParams_period1.
  split; [|split; [|split; [|split]]].
  - destruct (HistoryOptions.Start o); simpl; [left|by right].
    by rewrite andb_false_r.
  - destruct (String.eqb_spec (HistoryOptions.Period o) "") as [->|Hp]; simpl.
    { split; [by intros [? ?]|by intros [? _]]. }
    case_bool_decide as Hs; simpl; split; try done; try (by intros [? ?]); by intros [_ ?].
  - by rewrite fmap_is_Some.
  - apply ToParams_keys.
  - unfold Validate. intros Hv.
    destruct (String.eqb (HistoryOptions.Period o) "");
      destruct (oneOf (HistoryOptions.Period o) ValidPeriods) eqn:Hp;
      destruct (String.eqb (HistoryOptions.Interval o) "");
      destruct (oneOf (HistoryOptions.Interval o) ValidIntervals) eqn:Hi;
      cbn [negb andb] in *; try discriminate;
      (split; intros v Hsent; [try case_bool_decide|]); try discriminate;
      injection Hsent as <-; by apply oneOf_elem_of.
Qed.

(** X17, witness: the default options. *)
Lemma ToParams_range_excludes_period1_witness :
  Validate DefaultHistoryOptions = None ∧
  (∀ v, ToParams DefaultHistoryOptions !! "range" = Some v → v ∈ ValidPeriods).
Proof.
  split; [reflexivity|].
  destruct (ToParams_range_excludes_period1 DefaultHistoryOptions) as (_ & _ & _ & _ & Hvalid).
  exact (proj1 (Hvalid eq_refl)).
Defined.

(** X18.  The query a worker of [Download] sends depends on the download
    options through [Period], [Interval], [Start], [End] and [PrePost]
    only, and never asks for ["events"]: [ShowErrors], like [Threads],
    [GroupBy] and the other fields, does not reach [ToParams]. *)
Theorem Download_query_ignores_ShowErrors (options options' : DownloadOptions) :
  ToParams (histOpts options) !! "events" = None ∧
  (Period options = Period options' → Interval options = Interval options' →
   Start options = Start options' → End_ options = End_ options' →
   PrePost options = PrePost options' →
   ToParams (histOpts options) = ToParams (histOpts options')).
Proof.
  split.
  - unfold ToParams, histOpts, setIf. cbn [HistoryOptions.ShowErrors].
    repeat case_match; by simplify_map_eq.
  - intros Hp Hi Hs He Hpp. unfold ToParams, histOpts.
    cbn [HistoryOptions.Period HistoryOptions.Interval HistoryOptions.Start
         HistoryOptions.End_ HistoryOptions.PrePost HistoryOptions.ShowErrors].
    by rewrite Hp, Hi, Hs, He, Hpp.
Qed.

(** X18, witness: the default options, and the same with [ShowErrors]
    set and eight threads. *)
Lemma Download_query_ignores_ShowErrors_witness :
  ToParams (histOpts DefaultDownloadOptions)
  = ToParams (histOpts (mkDownloadOptions [] "1mo" "1d" None None "ticker" false false
                                          false false false 8 true true 30)).
Proof.
  apply (Download_query_ignores_ShowErrors DefaultDownloadOptions); reflexivity.
Defined.
Section PriceProofs.
Context {F : Type}.
Implicit Types (quote : Quote.t F) (adjClose : list F) (data rows : list (PriceData.t F)).

Lemma priceLoop_rows quote adjClose : ∀ timestamps i data,
  let n := Nat.min (length timestamps) (length (Quote.Open quote) - i) in
  (n = 0 ∨ i + n ≤ shortest quote)%nat →
  ∃ rows, priceLoop quote adjClose i timestamps data = Some (data ++ rows) ∧
          length rows = n ∧
          ∀ k row, rows !! k = Some row → rowOf quote adjClose timestamps i k row.
Proof.
  induction timestamps as [|ts rest IH]; intros i data n Hn.
  { exists []. by rewrite app_nil_r. }
  simpl. destruct (Quote.Open quote !! i) as [open|] eqn:Hopen.
  2:{ apply lookup_ge_None in Hopen. exists []. rewrite app_nil_r.
      split; [done|]. split; [subst n; cbn [length]; lia|done]. }
  pose proof (lookup_lt_Some _ _ _ Hopen) as Hlt.
  assert (Hi : (i < shortest quote)%nat) by (subst n; cbn [length] in Hn; lia).
  unfold shortest in Hi.
  destruct (lookup_lt_is_Some_2 (Quote.High quote) i ltac:(lia)) as [high Hhigh].
  destruct (lookup_lt_is_Some_2 (Quote.Low quote) i ltac:(lia)) as [low Hlow].
  destruct (lookup_lt_is_Some_2 (Quote.Close quote) i ltac:(lia)) as [close Hclose].
  destruct (lookup_lt_is_Some_2 (Quote.Volume quote) i ltac:(lia)) as [volume Hvolume].
  rewrite Hhigh, Hlow, Hclose, Hvolume.
  set (row := PriceData.mk ts open high low close _ volume).
  destruct (IH (S i) (data ++ [row])) as (rows & Hloop & Hlen & Hrows).
  { subst n. cbn [length] in Hn. lia. }
  exists (row :: rows). split; [by rewrite Hloop, <- app_assoc|].
  split; [subst n; cbn [length]; rewrite Hlen; lia|].
  intros [|k] row' Hk; simpl in Hk.
  - injection Hk as <-. unfold rowOf. rewrite Nat.add_0_r. simpl.
    repeat split; try done; by destruct (adjClose !! i).
  - specialize (Hrows k row' Hk). unfold rowOf in *.
    replace (i + S k)%nat with (S i + k)%nat by lia. done.
Qed.

Lemma priceLoop_panics quote adjClose : ∀ timestamps i data,
  let n := Nat.min (length timestamps) (length (Quote.Open quote) - i) in
  (n ≠ 0 ∧ shortest quote < i + n)%nat →
  priceLoop quote adjClose i timestamps data = None.
Proof.
  induction timestamps as [|ts rest IH]; intros i data n [Hn0 Hn].
  { done. }
  simpl. destruct (Quote.Open quote !! i) as [open|] eqn:Hopen.
  2:{ apply lookup_ge_None in Hopen. subst n. cbn [length] in Hn0. lia. }
  pose proof (lookup_lt_Some _ _ _ Hopen) as Hlt.
  destruct (Quote.High quote !! i) as [high|] eqn:Hhigh; [|done].
  destruct (Quote.Low quote !! i) as [low|] eqn:Hlow; [|done].
  destruct (Quote.Close quote !! i) as [close|] eqn:Hclose; [|done].
  destruct (Quote.Volume quote !! i) as [volume|] eqn:Hvolume; [|done].
  apply lookup_lt_Some in Hhigh, Hlow, Hclose, Hvolume.
  apply IH. unfold shortest in *. subst n. cbn [length] in Hn. lia.
Qed.

(** X19.  The price rows of [parseChartResult].  With at least one
    timestamp and one quote, the loop makes [n] rows, [n] the smaller of
    the number of timestamps and the length of [Open]: row [k] holds the
    values at index [k], and the adjusted close at [k] where the first
    [Adjclose] array has one, the close otherwise.  It does so exactly
    when [High], [Low], [Close] and [Volume] have at least [n] entries: if
    one of them is shorter, indexing it panics. *)
Theorem parsePriceData_rows (ts : Z) (rest : list Z) quote (quotes : list (Quote.t F))
    (adjcloses : list (list F)) :
  let timestamps := ts :: rest in
  let n := Nat.min (length timestamps) (length (Quote.Open quote)) in
  let adjClose := default [] (head adjcloses) in
  ((n ≤ shortest quote)%nat →
     ∃ rows, parsePriceData timestamps (quote :: quotes) adjcloses = Some rows ∧
             length rows = n ∧
             ∀ k row, rows !! k = Some row → rowOf quote adjClose timestamps 0 k row) ∧
  ((shortest quote < n)%nat →
     parsePriceData timestamps (quote :: quotes) adjcloses = None).
Proof.
  intros timestamps n adjClose. unfold parsePriceData.
  replace (match adjcloses with first :: _ => first | [] => [] end) with adjClose
    by (by destruct adjcloses).
  split; intros Hn.
  - destruct (priceLoop_rows quote adjClose timestamps 0 []) as (rows & Hloop & Hlen & Hrows).
    { right. rewrite Nat.sub_0_r. fold n. lia. }
    exists rows. rewrite Nat.sub_0_r in Hlen. done.
  - apply priceLoop_panics. rewrite Nat.sub_0_r. fold n. lia.
Qed.

End PriceProofs.

(** X19, witness: two timestamps, two opens, but a single high. *)
Lemma parsePriceData_rows_witness :
  parsePriceData [100; 200] [Quote.mk [1; 2] [3] [1; 2] [1; 2] [5; 6]] [] = None.
Proof.
  apply (proj2 (parsePriceData_rows 100 [200] (Quote.mk [1; 2] [3] [1; 2] [1; 2] [5; 6]) [] [])).
  vm_compute. lia.
Defined.

Section AdjustProofs.
Context {F : Type} (isZero : F → bool) (fmul fdiv : F → F → F).

Lemma sameButAdjClose_Close (pd pd' : PriceData.t F) :
  sameButAdjClose pd pd' →
  PriceData.Close pd' = PriceData.Close pd ∧ ∀ v, setAdjClose v pd' = setAdjClose v pd.
Proof. unfold sameButAdjClose. intros ->. by destruct pd. Qed.

(** X20.  [AutoAdjustPrices] keeps the number of rows and changes no
    column but [AdjClose]; and of the adjusted closes it was given it uses
    the one of the last row only: two tables that differ in the [AdjClose]
    of earlier rows, with a last close and adjusted close that are not
    zero, come out the same. *)
Theorem AutoAdjustPrices_uses_last_AdjClose (data data' : list (PriceData.t F))
    (final final' : PriceData.t F) :
  Forall2 sameButAdjClose data (AutoAdjustPrices isZero fmul fdiv data) ∧
  (Forall2 sameButAdjClose data data' →
   last data = Some final → last data' = Some final' →
   PriceData.AdjClose final = PriceData.AdjClose final' →
   isZero (PriceData.Close final) = false →
   isZero (PriceData.AdjClose final) = false →
   AutoAdjustPrices isZero fmul fdiv data = AutoAdjustPrices isZero fmul fdiv data').
Proof.
  split.
  - unfold AutoAdjustPrices. destruct (last data) as [l|].
    2:{ apply Forall_Forall2_diag, Forall_forall. intros pd _. by destruct pd. }
    destruct (isZero _ || isZero _).
    { apply Forall_Forall2_diag, Forall_forall. intros pd _. by destruct pd. }
    apply Forall2_fmap_r, Forall_Forall2_diag, Forall_forall. intros pd _. by destruct pd.
  - intros Hsame Hlast Hlast' Hadj Hc Ha. unfold AutoAdjustPrices.
    pose proof (Forall2_last _ _ _ Hsame) as Hfin. rewrite Hlast, Hlast' in Hfin.
    inversion Hfin as [? ? Hff|]; subst.
    destruct (sameButAdjClose_Close _ _ Hff) as [Hcf _].
    rewrite Hlast, Hlast', <- Hadj, Hcf, Hc, Ha. simpl.
    clear Hlast Hlast' Hfin. induction Hsame as [|pd pd' l l' Hpd _ IH]; [done|].
    rewrite !fmap_cons, IH. f_equal.
    destruct (sameButAdjClose_Close _ _ Hpd) as [Hcp Hset]. by rewrite Hcp, Hset.
Qed.

End AdjustProofs.

(** X20, witness: integers for floats; the tables differ in the adjusted
    close of the first row. *)
Lemma AutoAdjustPrices_uses_last_AdjClose_witness :
  AutoAdjustPrices (Z.eqb 0) Z.mul Z.div
    [PriceData.mk 1 10 10 10 10 7 0; PriceData.mk 2 20 20 20 20 40 0]
  = AutoAdjustPrices (Z.eqb 0) Z.mul Z.div
    [PriceData.mk 1 10 10 10 10 9 0; PriceData.mk 2 20 20 20 20 40 0].
Proof.
  apply (proj2 (AutoAdjustPrices_uses_last_AdjClose (Z.eqb 0) Z.mul Z.div
                  [PriceData.mk 1 10 10 10 10 7 0; PriceData.mk 2 20 20 20 20 40 0]
                  [PriceData.mk 1 10 10 10 10 9 0; PriceData.mk 2 20 20 20 20 40 0]
                  (PriceData.mk 2 20 20 20 20 40 0) (PriceData.mk 2 20 20 20 20 40 0)));
    try reflexivity.
  repeat constructor.
Defined.

Section HistoryProofs.
Context `{GoLib} `{Outside}.
Context {chartResult HistoryResult : Type}.
Variable metaTimezone : chartResult → string.
Variable parseChartResult : chartResult → HistoryOptions.t → option HistoryResult.
Variable decodeChart : string → option (chartResponse chartResult).
Variable configured : Z.

Lemma GetRawJSON_events {V : Type} (decode : string → option V) endpoint params s r s' :
  GetRawJSON decode configured endpoint params s = (r, s') →
  ∃ evs, trace (world s') = evs ++ trace (world s) ∧
         (countEvents isApi evs ≤ Z.to_nat (retryBudget configured + 1))%nat.
Proof.
  unfold GetRawJSON, Get, makeRequest, bind.
  destruct (attemptLoop _ _ _ _ _ _ _ _ s) as [res s1] eqn:Hloop.
  apply attemptLoop_api_bound in Hloop.
  intros Hrest. assert (s' = s1) as ->; [|done].
  destruct res as [[resp|] [err|]]; unfold ret in Hrest; repeat case_match; congruence.
Qed.

Lemma GetTimezone_events t s r t' s' :
  GetTimezone chartResult metaTimezone decodeChart configured t s = ((r, t'), s') →
  Symbol t' = Symbol t ∧
  (∀ z, r = Returned z → tz t' = z) ∧
  ((∀ z, r ≠ Returned z) → t' = t) ∧
  ∃ evs, trace (world s') = evs ++ trace (world s) ∧
         (countEvents isApi evs ≤ Z.to_nat (retryBudget configured + 1))%nat.
Proof.
  unfold GetTimezone. destruct (negb (String.eqb (tz t) "")).
  { unfold ret. intros [= <- <- <-]. repeat split; try done.
    - by intros z [= <-].
    - exists []. split; [done|]. change (countEvents isApi []) with 0%nat. lia. }
  unfold bind. destruct (GetRawJSON _ _ _ _ s) as [res s1] eqn:Hfetch.
  apply GetRawJSON_events in Hfetch.
  destruct res as [result|e|]; [destruct (ChartResult _ result)|..];
    unfold ret; intros [= <- <- <-]; repeat split; try done.
  - by intros z [= <-].
  - intros Hno. by destruct (Hno (metaTimezone c)).
Qed.

(** X21.  [Ticker.History] validates before anything else: with options
    [Validate] rejects it returns that error and sends nothing.  It never
    changes the symbol, nor a time zone the ticker already has; and it
    sends at most [budget] API requests when the time zone is known and
    at most twice as many when it has to look it up, [budget] being the
    number of attempts that [makeRequest] allows. *)
Theorem History_request_budget (t : Ticker) (options : option HistoryOptions.t)
    (s : Sys) (r : Result HistoryResult) (t' : Ticker) (s' : Sys) :
  History chartResult metaTimezone HistoryResult parseChartResult decodeChart configured
          t options s = ((r, t'), s') →
  let budget := Z.to_nat (retryBudget configured + 1) in
  Symbol t' = Symbol t ∧
  (tz t ≠ "" → t' = t) ∧
  (∃ evs, trace (world s') = evs ++ trace (world s) ∧
          (countEvents isApi evs ≤ if String.eqb (tz t) "" then 2 * budget else budget)%nat) ∧
  (∀ e, Validate (default DefaultHistoryOptions options) = Some e →
        r = Errored (InvalidOptions e) ∧ t' = t ∧ s' = s).
Proof.
  intros Hrun budget. unfold History in Hrun.
  destruct (Validate _) as [e|] eqn:Hvalid.
  { unfold ret in Hrun. injection Hrun as <- <- <-.
    split; [done|]. split; [done|]. split; [|by intros e' [= <-]].
    exists []. split; [done|]. change (countEvents isApi []) with 0%nat.
    destruct (String.eqb _ _); lia. }
  assert (∃ crashed t1 s1,
            Symbol t1 = Symbol t ∧ (tz t ≠ "" → t1 = t) ∧
            (∃ evs, trace (world s1) = evs ++ trace (world s) ∧
               (countEvents isApi evs ≤ if String.eqb (tz t) "" then budget else 0)%nat) ∧
            (let '(crashed, t) := (crashed, t1) in
             if (crashed : bool) then ret (Crashed, t)
             else
               r <~ GetRawJSON decodeChart configured (chartURL t)
                      (ToParams (default DefaultHistoryOptions options)) ;;
               match r with
               | FetchFailed e => ret (Errored (FetchError e), t)
               | Panicked => ret (Crashed, t)
               | Decoded result =>
                   match ChartErr _ result with
                   | Some description => ret (Errored (ChartError description), t)
                   | None =>
                       match ChartResult _ result with
                       | [] => ret (Errored (PricesMissing (Symbol t)), t)
                       | first :: _ =>
                           match parseChartResult first (default DefaultHistoryOptions options) with
                           | Some hr => ret (Returned hr, t)
                           | None => ret (Crashed, t)
                           end
                       end
                   end
               end) s1 = ((r, t'), s'))
    as (crashed & t1 & s1 & Hsym & Htz & (evs1 & Ht1 & Hb1) & Hrest).
  { unfold bind at 1 in Hrun.
    destruct (String.eqb_spec (tz t) "") as [Hz|Hz].
    - unfold bind at 1 in Hrun.
      destruct (GetTimezone _ _ _ _ t s) as [[zr tq] sq] eqn:Hq.
      destruct (GetTimezone_events _ _ _ _ _ Hq) as (Hs & _ & _ & Hev).
      destruct zr as [z|ez|]; unfold ret in Hrun at 1.
      + exists false, (mkTicker (Symbol tq) z), sq. repeat split; try done.
      + exists false, tq, sq. repeat split; try done.
      + exists true, tq, sq. repeat split; try done.
    - unfold ret in Hrun at 1. exists false, t, s. repeat split; try done.
      exists []. split; [done|]. change (countEvents isApi []) with 0%nat. lia. }
  clear Hrun. cbv beta iota in Hrest.
  assert (∃ evs2, trace (world s') = evs2 ++ trace (world s1) ∧
                  (countEvents isApi evs2 ≤ budget)%nat ∧ t' = t1)
    as (evs2 & Ht2 & Hb2 & ->).
  { destruct crashed.
    - unfold ret in Hrest. injection Hrest as <- <- <-. exists [].
      change (countEvents isApi []) with 0%nat. repeat split; try done; lia.
    - unfold bind in Hrest. destruct (GetRawJSON _ _ _ _ s1) as [res s2] eqn:Hfetch.
      destruct (GetRawJSON_events _ _ _ _ _ _ Hfetch) as (evs2 & Ht2 & Hb2).
      exists evs2.
      assert (s' = s2 ∧ t' = t1) as [-> ->]; [|done].
      unfold ret in Hrest. repeat case_match; by injection Hrest as <- <- <-. }
  split; [done|]. split; [done|]. split; [|done].
  exists (evs2 ++ evs1). rewrite Ht2, Ht1, app_assoc. split; [done|].
  rewrite countEvents_app. destruct (String.eqb (tz t) ""); lia.
Qed.

End HistoryProofs.

(** X21, witness: a period that is not in [ValidPeriods]. *)
Lemma History_request_budget_witness :
  ∃ r t' s',
    @History asciiLib offline unit (fun _ => "UTC") unit (fun _ _ => Some tt) (fun _ => None) 0
             (mkTicker "AAPL" "")
             (Some (HistoryOptions.mk "1week" "1d" None None false true false false false false
                                      10 false))
             freshSys = ((r, t'), s') ∧
    r = Errored (InvalidOptions (InvalidPeriod "1week")) ∧ s' = freshSys.
Proof.
  destruct (@History asciiLib offline unit (fun _ => "UTC") unit (fun _ _ => Some tt)
              (fun _ => None) 0 (mkTicker "AAPL" "")
              (Some (HistoryOptions.mk "1week" "1d" None None false true false false false false
                                       10 false))
              freshSys) as [[r t'] s'] eqn:Hrun.
  exists r, t', s'. split; [reflexivity|].
  destruct (@History_request_budget asciiLib offline unit unit _ _ _ _ _ _ _ _ _ _ Hrun)
    as (_ & _ & _ & Hinvalid).
  destruct (Hinvalid _ eq_refl) as (Hr & _ & Hs). split; [exact Hr|exact Hs].
Defined.

(** ** The ticker file: the numeric parameters of a search *)

Lemma lead_byte (mask x : Z) :
  (mask = 192 ∨ mask = 224 ∨ mask = 240) → 0 <= x < 32 → 128 <= Z.lor mask x < 256.
Proof.
  intros Hmask Hx.
  assert (Hall : forallb (fun x => forallb (fun m => (128 <=? Z.lor m x) && (Z.lor m x <? 256))
                                           [192; 224; 240]) (seqZ 0 32) = true)
    by (vm_compute; reflexivity).
  rewrite forallb_forall in Hall. specialize (Hall x).
  rewrite <- list_elem_of_In, elem_of_seqZ in Hall. specialize (Hall ltac:(lia)).
  rewrite forallb_forall in Hall. specialize (Hall mask).
  rewrite <- list_elem_of_In in Hall.
  assert (Hin : mask ∈ [192; 224; 240]) by (destruct Hmask as [->| [->| ->]]; set_solver).
  apply Hall in Hin. lia.
Qed.

Lemma shiftr_bound (r k b : Z) : 0 <= k → 0 <= r < b * 2 ^ k → 0 <= Z.shiftr r k < b.
Proof.
  intros Hk Hr. rewrite Z.shiftr_div_pow2 by done.
  split; [apply Z.div_pos; lia|]. apply Z.div_lt_upper_bound; lia.
Qed.

(** The encoding of a rune is one byte below 128, or begins with a byte
    from 128 on. *)
Lemma utf8_head (r : Z) :
  (0 <= r < 128 ∧ utf8 r = [r]) ∨ (∃ b bs, utf8 r = b :: bs ∧ 128 <= b < 256).
Proof.
  unfold utf8. destruct (_ || _ || _) eqn:Hbad.
  { right. exists 239, [191; 189]. split; [done|lia]. }
  apply orb_false_elim in Hbad as [Hbad _]. apply orb_false_elim in Hbad as [Hneg Hbig].
  apply Z.ltb_ge in Hneg, Hbig.
  destruct (Z.ltb_spec r 128); [left; split; [lia|done]|right].
  destruct (Z.ltb_spec r 2048).
  { eexists _, _. split; [done|]. apply lead_byte; [by left|].
    apply shiftr_bound; lia. }
  destruct (Z.ltb_spec r 65536).
  { eexists _, _. split; [done|]. apply lead_byte; [by right; left|].
    pose proof (shiftr_bound r 12 16). lia. }
  eexists _, _. split; [done|]. apply lead_byte; [by right; right|].
  pose proof (shiftr_bound r 18 8). lia.
Qed.

(** The decimal text of a number begins with a character below 128, and
    has a single character for the numbers 0 to 9 only. *)
Lemma formatInt_head (n : Z) :
  ∃ c s, formatInt n = String c s ∧ (N_of_ascii c < 128)%N ∧
         (s = EmptyString → 0 <= n <= 9 ∧ c = ascii_of_N (Z.to_N (48 + n))).
Proof.
  unfold formatInt. destruct n as [|p|p]; simpl.
  - eexists _, _. split; [reflexivity|]. split; [by vm_compute|]. intros _. split; [lia|done].
  - pose proof (Unsigned.of_to p) as Hback.
    destruct (Pos.to_uint p) as [|d|d|d|d|d|d|d|d|d|d]; simpl in *; try discriminate;
      (eexists _, _; split; [reflexivity|]; split; [by vm_compute|]);
      intros Hs; destruct d; simpl in Hs; try discriminate;
      simpl in Hback; injection Hback as <-; (split; [lia|done]).
  - destruct (Pos.to_uint p); simpl;
      (eexists _, _; split; [reflexivity|]; split; [by vm_compute|]); discriminate.
Qed.

Lemma runeString_not_decimal (n : Z) : runeString n ≠ formatInt n.
Proof.
  unfold runeString. destruct (formatInt_head n) as (c & s & -> & Hc & Hone).
  destruct (utf8_head (wrap32 n)) as [[Hr ->]|(b & bs & -> & Hb)]; simpl.
  - intros [= Hchar <-]. destruct (Hone eq_refl) as [Hn ->].
    assert (Hw : wrap32 n = n) by (unfold wrap32; rewrite Z.mod_small; lia).
    rewrite Hw in Hchar.
    assert (Hcases : n = 0 ∨ n = 1 ∨ n = 2 ∨ n = 3 ∨ n = 4 ∨ n = 5 ∨ n = 6 ∨ n = 7 ∨ n = 8 ∨ n = 9)
      by lia.
    repeat (destruct Hcases as [->|Hcases]; [discriminate|]). by subst.
  - intros [= <- _]. rewrite N_ascii_embedding in Hc; lia.
Qed.

(** X22.  [Search.Do] never sends a count as its decimal text: whatever
    [MaxResults], [NewsCount], [ListsCount] and [Recommended] are, the
    values of ["quotesCount"], ["newsCount"], ["listsCount"] and
    ["recommendedCount"] are the UTF-8 text of the code point with that
    number, and differ from the number printed in decimal. *)
Theorem Search_counts_are_not_decimal (s : Search) :
  SearchParams s !! "quotesCount" = Some (runeString (MaxResults s)) ∧
  SearchParams s !! "newsCount" = Some (runeString (NewsCount s)) ∧
  SearchParams s !! "listsCount" = Some (runeString (ListsCount s)) ∧
  SearchParams s !! "recommendedCount" = Some (runeString (Recommended s)) ∧
  SearchParams s !! "quotesCount" ≠ Some (formatInt (MaxResults s)) ∧
  SearchParams s !! "newsCount" ≠ Some (formatInt (NewsCount s)) ∧
  SearchParams s !! "listsCount" ≠ Some (formatInt (ListsCount s)) ∧
  SearchParams s !! "recommendedCount" ≠ Some (formatInt (Recommended s)).
Proof.
  assert (Hq : SearchParams s !! "quotesCount" = Some (runeString (MaxResults s)))
    by (unfold SearchParams; by simplify_map_eq).
  assert (Hn : SearchParams s !! "newsCount" = Some (runeString (NewsCount s)))
    by (unfold SearchParams; by simplify_map_eq).
  assert (Hl : SearchParams s !! "listsCount" = Some (runeString (ListsCount s)))
    by (unfold SearchParams; by simplify_map_eq).
  assert (Hr : SearchParams s !! "recommendedCount" = Some (runeString (Recommended s)))
    by (unfold SearchParams; by simplify_map_eq).
  rewrite Hq, Hn, Hl, Hr.
  repeat split; try done; intros [= Heq]; by apply runeString_not_decimal in Heq.
Qed.
(** ** The user agent of a session *)

Section AgentProofs.
Context `{GoLib} `{Outside}.

Lemma sentWith_nil ua : sentWith ua [].
Proof. intros o req Hin. by apply elem_of_nil in Hin. Qed.

Lemma sentWith_app ua evs1 evs2 : sentWith ua evs1 → sentWith ua evs2 → sentWith ua (evs1 ++ evs2).
Proof. intros H1 H2 o req Hin. apply elem_of_app in Hin as [Hin|Hin]; eauto. Qed.

Lemma keepsAgent_quiet {A : Type} (m : M A) s :
  (∀ r s', m s = (r, s') →
     userAgent (session s') = userAgent (session s) ∧ trace (world s') = trace (world s)) →
  keepsAgent m s.
Proof.
  intros Hm r s' Hrun. destruct (Hm r s' Hrun) as [Hua Htr]. split; [done|].
  exists []. split; [done|apply sentWith_nil].
Qed.

Lemma keepsAgent_ret {A : Type} (a : A) s : keepsAgent (ret a) s.
Proof. apply keepsAgent_quiet. by intros r s' [= <- <-]. Qed.

Lemma keepsAgent_bind {A B : Type} (m : M A) (k : A → M B) s :
  keepsAgent m s →
  (∀ a s1, userAgent (session s1) = userAgent (session s) → keepsAgent (k a) s1) →
  keepsAgent (bind m k) s.
Proof.
  intros Hm Hk r s'. unfold bind. destruct (m s) as [a s1] eqn:Hrun. intros Hrest.
  destruct (Hm a s1 Hrun) as (Hua1 & evs1 & Ht1 & Hs1).
  destruct (Hk a s1 Hua1 r s' Hrest) as (Hua2 & evs2 & Ht2 & Hs2).
  split; [congruence|]. exists (evs2 ++ evs1). rewrite Ht2, Ht1, app_assoc. split; [done|].
  apply sentWith_app; [by rewrite <- Hua1|done].
Qed.

Lemma keepsAgent_getYd {B : Type} (k : YfData → M B) s :
  keepsAgent (k (session s)) s → keepsAgent (bind getYd k) s.
Proof. intros Hk r s'. unfold bind, getYd. apply Hk. Qed.

Lemma keepsAgent_modifyYd (f : YfData → YfData) s :
  (∀ yd, userAgent (f yd) = userAgent yd) → keepsAgent (modifyYd f) s.
Proof. intros Hf. apply keepsAgent_quiet. intros r s' [= <- <-]. by rewrite <- (Hf (session s)). Qed.

Lemma keepsAgent_clientDo o req s :
  UserAgentHdr req = userAgent (session s) → keepsAgent (clientDo o req) s.
Proof.
  intros Hreq r s' [= <- <-]. split; [done|]. exists [Sent o req]. split; [done|].
  intros o' req' Hin. apply list_elem_of_singleton in Hin. by injection Hin as -> ->.
Qed.

Lemma keepsAgent_jarLookup s : keepsAgent jarLookup s.
Proof. apply keepsAgent_quiet. by intros r s' [= <- <-]. Qed.

Lemma keepsAgent_timeNow s : keepsAgent timeNow s.
Proof. apply keepsAgent_quiet. by intros r s' [= <- <-]. Qed.

Lemma keepsAgent_timeSleep d s : keepsAgent (timeSleep d) s.
Proof.
  intros r s' [= <- <-]. split; [done|]. exists [Slept d]. split; [done|].
  intros o req Hin. apply list_elem_of_singleton in Hin. discriminate.
Qed.

Lemma keepsAgent_WriteFile path data s : keepsAgent (WriteFile path data) s.
Proof.
  apply keepsAgent_quiet. unfold WriteFile. intros r s'.
  destruct (writable path); by intros [= <- <-].
Qed.

Lemma keepsAgent_switchCookieStrategy s : keepsAgent switchCookieStrategy s.
Proof.
  intros r s'. unfold switchCookieStrategy. munfold.
  destruct (String.eqb _ _); intros [= <- <-]; (split; [done|]);
    exists [Switched]; (split; [done|]); intros o req Hin;
    apply list_elem_of_singleton in Hin; discriminate.
Qed.


Lemma setCrumb_agent v yd : userAgent (setCrumb v yd) = userAgent yd.
Proof. done. Qed.

Lemma setCookie_agent v yd : userAgent (setCookie v yd) = userAgent yd.
Proof. done. Qed.

Lemma setStrategy_agent v yd : userAgent (setStrategy v yd) = userAgent yd.
Proof. done. Qed.

(** One step through a computation built from the pieces above. *)
Ltac agent_step :=
  first
    [ apply keepsAgent_ret
    | apply keepsAgent_getYd; cbv beta
    | apply keepsAgent_modifyYd;
      first [apply setCrumb_agent | apply setCookie_agent | apply setStrategy_agent]
    | apply keepsAgent_clientDo; simpl; congruence
    | apply keepsAgent_jarLookup
    | apply keepsAgent_timeNow
    | apply keepsAgent_timeSleep
    | apply keepsAgent_WriteFile
    | apply keepsAgent_switchCookieStrategy
    | match goal with Hk : context [keepsAgent] |- _ => apply Hk end
    | apply keepsAgent_bind; [|intros ? ? ?]
    | progress cbv beta zeta
    | case_match ].

Ltac agent := repeat agent_step.

Lemma keepsAgent_ResetCrumb s : keepsAgent ResetCrumb s.
Proof. unfold ResetCrumb. agent. Qed.

Lemma keepsAgent_acceptConsent s : keepsAgent acceptConsent s.
Proof. unfold acceptConsent. agent. Qed.

Lemma keepsAgent_saveCookieCache s : keepsAgent saveCookieCache s.
Proof. unfold saveCookieCache. agent. Qed.

Lemma keepsAgent_basic s : keepsAgent getCookieAndCrumbBasicInternal s.
Proof.
  unfold getCookieAndCrumbBasicInternal, getCookieBasicInternal, getCrumbBasicInternal. agent.
Qed.

Lemma keepsAgent_csrf s : keepsAgent getCookieAndCrumbCSRFInternal s.
Proof.
  unfold getCookieAndCrumbCSRFInternal, getCookieCSRFInternal, getCrumbCSRFInternal. agent.
Qed.

Lemma keepsAgent_getCookieAndCrumb s : keepsAgent getCookieAndCrumb s.
Proof.
  pose proof keepsAgent_basic. pose proof keepsAgent_csrf. pose proof keepsAgent_saveCookieCache.
  unfold getCookieAndCrumb. agent.
Qed.

Lemma keepsAgent_doRequest method endpoint params body s :
  keepsAgent (doRequest method endpoint params body) s.
Proof.
  pose proof keepsAgent_getCookieAndCrumb. unfold doRequest, sendRequest. agent.
Qed.

Lemma keepsAgent_attemptBody retries attempt lastErr method endpoint params body s :
  keepsAgent (attemptBody retries attempt lastErr method endpoint params body) s.
Proof.
  pose proof keepsAgent_doRequest. pose proof keepsAgent_ResetCrumb.
  pose proof keepsAgent_acceptConsent.
  unfold attemptBody. agent.
Qed.

Lemma keepsAgent_attemptLoop remaining : ∀ retries attempt lastErr method endpoint params body s,
  keepsAgent (attemptLoop remaining retries attempt lastErr method endpoint params body) s.
Proof.
  pose proof keepsAgent_attemptBody.
  induction remaining as [|n IH]; intros; simpl; agent.
Qed.

(** X23.  A session sends every request with one user agent.  After
    [SetUserAgent(ua)], all that a [makeRequest] call sends -- the API
    requests, and the requests of both acquisition strategies -- carries
    [ua] in its User-Agent header, and the call leaves [ua] in place. *)
Theorem SetUserAgent_reaches_every_request (ua : string) (configured : Z)
    (method endpoint : string) (params : gmap string string) (body : ReqBody)
    (s : Sys) (r : option Response * option error) (s' : Sys) :
  makeRequest configured method endpoint params body (SetUserAgent ua s).2 = (r, s') →
  userAgent (session s') = ua ∧
  ∃ evs, trace (world s') = evs ++ trace (world s) ∧ sentWith ua evs.
Proof.
  intros Hrun. unfold makeRequest in Hrun.
  destruct (keepsAgent_attemptLoop _ _ _ _ _ _ _ _ _ _ _ Hrun) as (Hua & evs & Htr & Hsent).
  split; [exact Hua|]. exists evs. split; [exact Htr|exact Hsent].
Qed.

End AgentProofs.

(** X23, witness: a server that answers 401 throughout. *)
Lemma SetUserAgent_reaches_every_request_witness :
  ∃ r s' evs,
    @makeRequest asciiLib always401 1 "GET" chartEndpoint ∅ NilBody
                 (SetUserAgent "curl/8.5" freshSys).2 = (r, s') ∧
    trace (world s') = evs ++ [] ∧ sentWith "curl/8.5" evs.
Proof.
  destruct (@makeRequest asciiLib always401 1 "GET" chartEndpoint ∅ NilBody
                         (SetUserAgent "curl/8.5" freshSys).2) as [r s'] eqn:Hrun.
  destruct (@SetUserAgent_reaches_every_request asciiLib always401 "curl/8.5" 1 "GET"
              chartEndpoint ∅ NilBody freshSys r s' Hrun) as (_ & evs & Htr & Hsent).
  exists r, s', evs. split; [reflexivity|]. split; [exact Htr|exact Hsent].
Defined.

(** ** The hidden inputs of the consent page *)

Lemma Index_None_Contains (s p : string) : Index s p = None ↔ Contains s p = false.
Proof.
  induction s as [|c s IH]; cbn [Index Contains].
  - destruct (HasPrefix "" p); cbn [orb]; [split; discriminate|done].
  - destruct (HasPrefix (String c s) p); cbn [orb]; [split; discriminate|].
    rewrite <- IH. destruct (Index s p); simpl; split; (done || discriminate).
Qed.

Lemma HasPrefix_dquote (s : string) :
  HasPrefix s dquote = match s with
                       | String c _ => Ascii.eqb c "034"%char
                       | EmptyString => false
                       end.
Proof.
  unfold HasPrefix, dquote. destruct s as [|c s]; [done|].
  change (String.prefix (String "034" "") (String c s))
    with (if ascii_dec "034" c then String.prefix "" s else false).
  destruct (ascii_dec "034" c) as [Heq|Hne].
  - subst c. by destruct s.
  - symmetry. apply Ascii.eqb_neq. congruence.
Qed.

Lemma substring_whole (s : string) : substring 0 (String.length s) s = s.
Proof. induction s as [|c s IH]; [done|]. simpl. by rewrite IH. Qed.

Lemma substring_sliceFrom (s : string) : ∀ a e,
  substring a e s = substring 0 e (sliceFrom s a).
Proof.
  unfold sliceFrom. induction s as [|c s IH]; intros a e.
  - destruct a, e; done.
  - destruct a as [|a].
    + rewrite Nat.sub_0_r, substring_whole. done.
    + simpl. apply IH.
Qed.

Lemma prefix_before_quote (s : string) : ∀ e,
  Index s dquote = Some e → Contains (substring 0 e s) dquote = false.
Proof.
  induction s as [|c s IH]; intros e; cbn [Index]; rewrite HasPrefix_dquote.
  - discriminate.
  - destruct (Ascii.eqb c "034") eqn:Hc; [by intros [= <-]|].
    destruct (Index s dquote) as [e'|] eqn:Hidx; simpl; [|discriminate]. intros [= <-].
    cbn [substring Contains]. rewrite HasPrefix_dquote, Hc. cbn [orb]. by apply IH.
Qed.

Lemma prefix_without_quote (s : string) : ∀ e,
  Index s dquote = None → Contains (substring 0 e s) dquote = false.
Proof.
  induction s as [|c s IH]; intros e; cbn [Index]; rewrite HasPrefix_dquote.
  - by destruct e.
  - destruct (Ascii.eqb c "034") eqn:Hc; [discriminate|].
    destruct (Index s dquote) as [e'|] eqn:Hidx; simpl; [discriminate|]. intros _.
    destruct e as [|e]; [done|].
    cbn [substring Contains]. rewrite HasPrefix_dquote, Hc. cbn [orb]. by apply IH.
Qed.

Lemma extractInputValue_absent (html name : string) :
  Contains html ("name=" +:+ dquote +:+ name +:+ dquote) = false →
  Contains html ("name='" +:+ name +:+ "'") = false →
  extractInputValue html name = "".
Proof.
  intros H1 H2. apply Index_None_Contains in H1, H2.
  unfold extractInputValue, indexEither. by rewrite H1, H2.
Qed.

(** X24.  The value [extractInputValue] returns never contains a double
    quote, whatever the page, and it is empty when the page holds the
    input's name neither in double nor in single quotes. *)
Theorem extractInputValue_has_no_quote (html name : string) :
  Contains (extractInputValue html name) dquote = false ∧
  (Contains html ("name=" +:+ dquote +:+ name +:+ dquote) = false →
   Contains html ("name='" +:+ name +:+ "'") = false →
   extractInputValue html name = "").
Proof.
  unfold extractInputValue. split.
  - destruct (indexEither html _ _) as [idx|]; [|done].
    destruct (indexEither (sliceFrom html idx) _ _) as [vs|]; [|done].
    cbv zeta. set (valueStart := (vs + idx + 7)%nat).
    unfold indexEither.
    destruct (Index (sliceFrom html valueStart) dquote) as [e|] eqn:Hq.
    + unfold slice. replace (valueStart + e - valueStart)%nat with e by lia.
      rewrite substring_sliceFrom. by apply prefix_before_quote.
    + destruct (Index (sliceFrom html valueStart) "'") as [e|]; [|done].
      unfold slice. replace (valueStart + e - valueStart)%nat with e by lia.
      rewrite substring_sliceFrom. by apply prefix_without_quote.
  - apply extractInputValue_absent.
Qed.

(** X24, witness: a page without the input. *)
Lemma extractInputValue_has_no_quote_witness :
  extractInputValue "<html><body>Sorry</body></html>" "csrfToken" = "".
Proof.
  apply (proj2 (extractInputValue_has_no_quote "<html><body>Sorry</body></html>" "csrfToken"));
    vm_compute; reflexivity.
Defined.

(** X25.  The CSRF strategy against a consent page that holds no
    [csrfToken] input: it fails with "failed to find csrfToken" after the
    one request for the page -- nothing is posted to the consent service,
    no crumb is asked for -- and it leaves the session as it was. *)
Theorem csrf_without_token `{GoLib} `{Outside} (s : Sys) (resp : Response) (html : string) :
  let page := browserRequest "GET" consentPageURL None (userAgent (session s)) in
  transport (trace (world s)) Acq page = inl resp →
  Body resp = inl html →
  Contains html ("name=" +:+ dquote +:+ "csrfToken" +:+ dquote) = false →
  Contains html "name='csrfToken'" = false →
  getCookieAndCrumbCSRFInternal s
  = (inr ErrNoCsrfToken, mkSys (session s) (emit (Sent Acq page) (world s))).
Proof.
  intros page Hpage Hbody H1 H2.
  unfold getCookieAndCrumbCSRFInternal, getCookieCSRFInternal. munfold. fold page.
  rewrite Hpage, Hbody.
  by rewrite (extractInputValue_absent html "csrfToken" H1 H2).
Qed.

(** X25, witness: the page of [blockedConsent]. *)
Lemma csrf_without_token_witness :
  ∃ s', @getCookieAndCrumbCSRFInternal asciiLib blockedConsent freshSys
        = (inr ErrNoCsrfToken, s') ∧
        countEvents isAcq (trace (world s')) = 1%nat.
Proof.
  eexists. split.
  - apply (@csrf_without_token asciiLib blockedConsent freshSys
             (okResponse "<html><body>Sorry</body></html>" consentPageURL)
             "<html><body>Sorry</body></html>"); reflexivity.
  - reflexivity.
Defined.
